(** * zeus_watchdog: frequency watchdog gating a velocity command

    Shallow embedding of [src/zeus_watchdog.cpp].  The node owns a list of
    [TopicMonitor]s; each monitor logs the receipt time of every message of
    one topic and, once per pass of its own loop, decides whether the
    topic is alive.  [ZeusWatchdog::run] takes the conjunction of the
    verdicts and [ZeusWatchdog::cmdVelCB] gates [cmd_vel] with it.

    The C++ [float] is IEEE-754 binary32 and [double] is binary64; both are
    modelled with the bit-exact operations of [SpecFloat].  Where
    [createTopicMonitors] flows off its end without a [return] the
    behaviour is undefined, and the model gives the call no result and the
    program no state from there on. *)

From Stdlib Require Import ZArith List Bool Lia DecimalString.
From Stdlib Require Import Floats.SpecFloat.
From stdpp Require Import base strings gmap.

Local Open Scope Z_scope.

(** ** IEEE-754 arithmetic *)

(** C++ [double]: 53 bits of precision, exponent of the infinities 1024. *)
Module F64.
Definition prec : Z := 53.
Definition emax : Z := 1024.
Definition t : Type := spec_float.
Definition zero : t := S754_zero false.
Definition of_Z (z : Z) : t := binary_normalize prec emax z 0 false.
Definition add : t -> t -> t := SFadd prec emax.
Definition mul : t -> t -> t := SFmul prec emax.
Definition div : t -> t -> t := SFdiv prec emax.
End F64.

(** C++ [float]: 24 bits of precision, exponent of the infinities 128. *)
Module F32.
Definition prec : Z := 24.
Definition emax : Z := 128.
Definition t : Type := spec_float.
Definition zero : t := S754_zero false.

(** integer to [float] conversion, round to nearest even *)
Definition of_Z (z : Z) : t := binary_normalize prec emax z 0 false.

(** the implicit conversion [float x = <double>] *)
Definition of_double (d : F64.t) : t :=
  match d with
  | S754_finite s m e => binary_round prec emax s m e
  | _ => d
  end.

Definition add : t -> t -> t := SFadd prec emax.
Definition mul : t -> t -> t := SFmul prec emax.
Definition div : t -> t -> t := SFdiv prec emax.

(** [a > b] and [a <= b] of C++: false when an operand is NaN *)
Definition gt (a b : t) : bool := SFltb b a.
Definition le (a b : t) : bool := SFleb a b.
Definition is_nan (a : t) : bool :=
  match a with S754_nan => true | _ => false end.

(** a number whose half [float] holds exactly: a zero, or a normal
    number at least two binades above the denormals *)
Definition halvable (a : t) : bool :=
  match a with
  | S754_zero _ => true
  | S754_finite _ m e =>
      (Z.pos (digits2_pos m) =? prec) && (-147 <=? e) && (e <=? emax - prec)
  | _ => false
  end.

(** a normal [float], a zero or an infinity *)
Definition regular (a : t) : bool :=
  match a with
  | S754_nan => false
  | S754_finite _ m e =>
      (Z.pos (digits2_pos m) =? prec) && (-149 <=? e) && (e <=? emax - prec)
  | _ => true
  end.

(** a zero, an infinity, or a normal number below [2^126]: dividing 1 or
    2 by it does not reach the exponent of the denormals *)
Definition invertible (a : t) : bool :=
  match a with
  | S754_nan => false
  | S754_finite _ m e =>
      (Z.pos (digits2_pos m) =? prec) && (-149 <=? e) && (e <=? 102)
  | _ => true
  end.

(** the double of a number: one more in the exponent, or an infinity
    past the largest exponent *)
Definition scale2 (a : t) : t :=
  match a with
  | S754_finite s p e =>
      if e + 1 <=? emax - prec then S754_finite s p (e + 1)
      else S754_infinity s
  | _ => a
  end.

(** a number of sign [s] *)
Definition signed (s : bool) (a : t) : Prop :=
  match a with
  | S754_zero s' | S754_infinity s' | S754_finite s' _ _ => s' = s
  | S754_nan => False
  end.
(** the value of a finite [float] in units of [2^-149], the smallest
    denormal; zero for the others *)
Definition units (a : t) : Z :=
  match a with
  | S754_finite s m e => (if s then -1 else 1) * (Z.pos m * 2 ^ (e + 149))
  | _ => 0
  end.

(** a zero or a finite binary32 number in canonical form *)
Definition number (a : t) : bool :=
  match a with
  | S754_zero _ => true
  | S754_finite _ m e => bounded prec emax m e
  | _ => false
  end.

(** neither an infinity nor NaN *)
Definition finite (a : t) : bool :=
  match a with
  | S754_zero _ | S754_finite _ _ _ => true
  | _ => false
  end.
End F32.

(** ** TopicMonitor *)

Module TopicMonitor.
Section WithTime.

(** [ros::Time] and the seconds of the [ros::Duration] between two
    stamps, [(later - earlier).toSec()], belong to roscpp. *)
Variable Time : Type.
Variable toSec_diff : Time -> Time -> F64.t.

(** The members that the monitoring loop reads or writes; the numeric
    ones are [float] like the constructor's parameters. *)
Record t : Type := mk {
  name_ : string;
  topic_name_ : string;
  min_freq_ : F32.t;
  use_average_ : bool;
  rate_ : F32.t;
  min_time_ : F32.t;
  stamps_ : list Time;
  status_ : bool
}.

(** [TopicMonitor::TopicMonitor].  The constructor leaves [status_]
    uninitialised: [status0] is the value it happens to hold. *)
Definition new (status0 : bool) (name topic_name : string)
    (min_freq : F32.t) (use_average : bool) (rate : F32.t) : t :=
  {| name_ := name;
     topic_name_ := topic_name;
     min_freq_ := min_freq;
     use_average_ := use_average;
     rate_ := rate;
     min_time_ := F32.div (F32.of_Z 1) min_freq;
     stamps_ := [];
     status_ := status0 |}.

Definition set_stamps (l : list Time) (x : t) : t :=
  {| name_ := name_ x; topic_name_ := topic_name_ x;
     min_freq_ := min_freq_ x; use_average_ := use_average_ x;
     rate_ := rate_ x; min_time_ := min_time_ x;
     stamps_ := l; status_ := status_ x |}.

Definition set_status (b : bool) (x : t) : t :=
  {| name_ := name_ x; topic_name_ := topic_name_ x;
     min_freq_ := min_freq_ x; use_average_ := use_average_ x;
     rate_ := rate_ x; min_time_ := min_time_ x;
     stamps_ := stamps_ x; status_ := b |}.

Definition set_use_average (b : bool) (x : t) : t :=
  {| name_ := name_ x; topic_name_ := topic_name_ x;
     min_freq_ := min_freq_ x; use_average_ := b;
     rate_ := rate_ x; min_time_ := min_time_ x;
     stamps_ := stamps_ x; status_ := status_ x |}.

(** [TopicMonitor::topicCB]: log the receipt time of the message. *)
Definition topicCB (receipt : Time) (x : t) : t :=
  set_stamps (stamps_ x ++ [receipt]) x.

(** the callback run once per message, in the order of arrival *)
Definition arrivals (l : list Time) (x : t) : t :=
  fold_left (fun x receipt => topicCB receipt x) l x.

(** [TopicMonitor::getStatus] and [TopicMonitor::getName] *)
Definition getStatus (x : t) : bool := status_ x.
Definition getName (x : t) : string := name_ x.

(** [float elapsed_time = (stamps_[i+1] - stamps_[i]).toSec();] *)
Definition elapsed_time (earlier later : Time) : F32.t :=
  F32.of_double (toSec_diff later earlier).

(** The [for] loop of [TopicMonitor::run] over the adjacent pairs
    [stamps_[i]], [stamps_[i+1]]; [l] is the log from index [i] on.
    Returns [status_] and [elapsed_time_sum] as the loop leaves them. *)
Fixpoint scan (use_average : bool) (min_time : F32.t)
    (l : list Time) (status : bool) (sum : F32.t) : bool * F32.t :=
  match l with
  | a :: (b :: _) as tl =>
      let e := elapsed_time a b in
      if negb use_average && F32.gt e min_time
      then (false, sum)                                   (* break *)
      else scan use_average min_time tl status (F32.add sum e)
  | _ => (status, sum)
  end.

(** [float average_time_elapsed = elapsed_time_sum / stamps_.size();] *)
Definition average_time_elapsed (sum : F32.t) (size : nat) : F32.t :=
  F32.div sum (F32.of_Z (Z.of_nat size)).

(** The value of [status_] after the first [if] of a pass. *)
Definition verdict (x : t) : bool :=
  if (2 <=? length (stamps_ x))%nat then
    let '(status, sum) :=
      scan (use_average_ x) (min_time_ x) (stamps_ x) true F32.zero in
    if use_average_ x then
      if F32.gt (average_time_elapsed sum (length (stamps_ x))) (min_time_ x)
      then false
      else status
    else status
  else false.

(** The log after the second [if] of a pass: cleared, and the last stamp
    put back. *)
Definition retained (l : list Time) : list Time :=
  match l with
  | [] => []
  | a :: l' => [List.last l' a]
  end.

(** One pass of the [while] loop of [TopicMonitor::run], under the lock. *)
Definition run_cycle (x : t) : t :=
  set_stamps (retained (stamps_ x)) (set_status (verdict x) x).

(** [n] passes with no arrival in between *)
Definition run (n : nat) (x : t) : t := Nat.iter n run_cycle x.

(** *** Vocabulary of the properties *)

(** every gap [g_i = stamps[i+1] - stamps[i]], as the [float] the loop
    compares *)
Fixpoint gaps (l : list Time) : list F32.t :=
  match l with
  | a :: (b :: _) as tl => elapsed_time a b :: gaps tl
  | _ => []
  end.

(** the [float] sum of the gaps, added from [+0] in the order of the log *)
Definition fsum (acc : F32.t) (gs : list F32.t) : F32.t :=
  fold_left F32.add gs acc.

(** a scan that examines every gap and never leaves early *)
Definition all_within (min_time : F32.t) (gs : list F32.t) : bool :=
  forallb (fun g => negb (F32.gt g min_time)) gs.

End WithTime.

Arguments name_ {Time}.
Arguments topic_name_ {Time}.
Arguments min_freq_ {Time}.
Arguments use_average_ {Time}.
Arguments rate_ {Time}.
Arguments min_time_ {Time}.
Arguments stamps_ {Time}.
Arguments status_ {Time}.
Arguments set_stamps {Time}.
Arguments set_status {Time}.
Arguments set_use_average {Time}.
Arguments topicCB {Time}.
Arguments arrivals {Time}.
Arguments getStatus {Time}.
Arguments getName {Time}.
Arguments retained {Time}.
Arguments run_cycle {Time}.
Arguments run {Time}.
Arguments verdict {Time}.
Arguments scan {Time}.
Arguments gaps {Time}.
Arguments elapsed_time {Time}.

End TopicMonitor.

(** ** Messages *)

(** [geometry_msgs::Twist]: two vectors of [double]. *)
Module geometry_msgs.
Record Vector3 : Type := mkVector3 { x : F64.t; y : F64.t; z : F64.t }.
Record Twist : Type := mkTwist { linear : Vector3; angular : Vector3 }.

(** [geometry_msgs::Twist()]: every component is [0.0]. *)
Definition Twist_new : Twist :=
  {| linear := {| x := F64.zero; y := F64.zero; z := F64.zero |};
     angular := {| x := F64.zero; y := F64.zero; z := F64.zero |} |}.
End geometry_msgs.

(** [zeus_watchdog::TopicStatus] and [zeus_watchdog::TopicArray] *)
Record TopicStatus : Type := mkTopicStatus { ts_name : string; ts_status : bool }.
Record TopicArray (Time : Type) : Type :=
  mkTopicArray { header_stamp : Time; statuses : list TopicStatus }.
Arguments mkTopicArray {Time}.
Arguments header_stamp {Time}.
Arguments statuses {Time}.

(** ** ZeusWatchdog *)

Module ZeusWatchdog.
Section WithRos.

Variable Time : Type.

(** The private parameter server, one lookup per type that
    [getParam] is called at: [None] when [getParam] returns [false]. *)
Record ParamServer : Type := mkParams {
  getParam_int : string -> option Z;
  getParam_float : string -> option F32.t;
  getParam_bool : string -> option bool;
  getParam_string : string -> option string
}.

(** The members of the node, the messages published on each of its
    topics (oldest first) and the lines it logged. *)
Record t : Type := mk {
  nb_of_topics_ : Z;
  rate_ : F32.t;
  topic_list_ : list (TopicMonitor.t Time);
  status_ : bool;
  cmd_vel_pub_ : list geometry_msgs.Twist;
  status_pub_ : list bool;
  info_pub_ : list (TopicArray Time);
  ros_fatal : list string;
  ros_info : list string
}.

Definition set_nb_of_topics (n : Z) (w : t) : t :=
  {| nb_of_topics_ := n; rate_ := rate_ w; topic_list_ := topic_list_ w;
     status_ := status_ w; cmd_vel_pub_ := cmd_vel_pub_ w;
     status_pub_ := status_pub_ w; info_pub_ := info_pub_ w;
     ros_fatal := ros_fatal w; ros_info := ros_info w |}.

Definition set_rate (r : F32.t) (w : t) : t :=
  {| nb_of_topics_ := nb_of_topics_ w; rate_ := r; topic_list_ := topic_list_ w;
     status_ := status_ w; cmd_vel_pub_ := cmd_vel_pub_ w;
     status_pub_ := status_pub_ w; info_pub_ := info_pub_ w;
     ros_fatal := ros_fatal w; ros_info := ros_info w |}.

Definition push_topic (m : TopicMonitor.t Time) (w : t) : t :=
  {| nb_of_topics_ := nb_of_topics_ w; rate_ := rate_ w;
     topic_list_ := topic_list_ w ++ [m];
     status_ := status_ w; cmd_vel_pub_ := cmd_vel_pub_ w;
     status_pub_ := status_pub_ w; info_pub_ := info_pub_ w;
     ros_fatal := ros_fatal w; ros_info := ros_info w |}.

Definition set_status (b : bool) (w : t) : t :=
  {| nb_of_topics_ := nb_of_topics_ w; rate_ := rate_ w;
     topic_list_ := topic_list_ w;
     status_ := b; cmd_vel_pub_ := cmd_vel_pub_ w;
     status_pub_ := status_pub_ w; info_pub_ := info_pub_ w;
     ros_fatal := ros_fatal w; ros_info := ros_info w |}.

Definition publish_cmd_vel (msg : geometry_msgs.Twist) (w : t) : t :=
  {| nb_of_topics_ := nb_of_topics_ w; rate_ := rate_ w;
     topic_list_ := topic_list_ w;
     status_ := status_ w; cmd_vel_pub_ := cmd_vel_pub_ w ++ [msg];
     status_pub_ := status_pub_ w; info_pub_ := info_pub_ w;
     ros_fatal := ros_fatal w; ros_info := ros_info w |}.

Definition publish_status (msg : bool) (w : t) : t :=
  {| nb_of_topics_ := nb_of_topics_ w; rate_ := rate_ w;
     topic_list_ := topic_list_ w;
     status_ := status_ w; cmd_vel_pub_ := cmd_vel_pub_ w;
     status_pub_ := status_pub_ w ++ [msg]; info_pub_ := info_pub_ w;
     ros_fatal := ros_fatal w; ros_info := ros_info w |}.

Definition publish_info (msg : TopicArray Time) (w : t) : t :=
  {| nb_of_topics_ := nb_of_topics_ w; rate_ := rate_ w;
     topic_list_ := topic_list_ w;
     status_ := status_ w; cmd_vel_pub_ := cmd_vel_pub_ w;
     status_pub_ := status_pub_ w; info_pub_ := info_pub_ w ++ [msg];
     ros_fatal := ros_fatal w; ros_info := ros_info w |}.

Definition log_fatal (line : string) (w : t) : t :=
  {| nb_of_topics_ := nb_of_topics_ w; rate_ := rate_ w;
     topic_list_ := topic_list_ w;
     status_ := status_ w; cmd_vel_pub_ := cmd_vel_pub_ w;
     status_pub_ := status_pub_ w; info_pub_ := info_pub_ w;
     ros_fatal := ros_fatal w ++ [line]; ros_info := ros_info w |}.

Definition log_info (line : string) (w : t) : t :=
  {| nb_of_topics_ := nb_of_topics_ w; rate_ := rate_ w;
     topic_list_ := topic_list_ w;
     status_ := status_ w; cmd_vel_pub_ := cmd_vel_pub_ w;
     status_pub_ := status_pub_ w; info_pub_ := info_pub_ w;
     ros_fatal := ros_fatal w; ros_info := ros_info w ++ [line] |}.

(** [std::to_string] of an [int] *)
Definition to_string (i : Z) : string := NilZero.string_of_int (Z.to_int i).

(** ["topic_" + std::to_string(i+1)] *)
Definition topic_id (i : Z) : string := "topic_" +:+ to_string (i + 1).

(** What a call of the [bool] function amounts to.  [Returned b w] is a
    [return b;] that leaves the node as [w].  [Undefined] is control
    reaching the closing brace: the function has no [return] there, and
    flowing off the end of a function that returns a value is undefined
    behaviour, so nothing is said of the value handed back, of the node,
    or of what the program does from there on. *)
Inductive result : Type :=
| Returned (b : bool) (w : t)
| Undefined.

(** One turn of the loop "retrieve all topics".  [uninit i] is the
    uninitialised [status_] of the monitor that turn [i] creates.
    [inl w'] is the [return false;] of the turn, [inr w'] its normal
    end.  What the turn writes to [std::cout] is left out. *)
Definition retrieve_topic (ps : ParamServer) (uninit : Z -> bool) (i : Z)
    (w : t) : t + t :=
  let id := topic_id i in
  match getParam_string ps (id +:+ "/name"),
        getParam_string ps (id +:+ "/topic_name"),
        getParam_float ps (id +:+ "/min_freq"),
        getParam_bool ps (id +:+ "/use_average"),
        getParam_float ps (id +:+ "/monitoring_rate") with
  | Some name, Some topic_name, Some min_freq, Some use_average,
    Some monitoring_rate =>
      inr (push_topic
             (TopicMonitor.new Time (uninit i) name topic_name min_freq
                use_average monitoring_rate) w)
  | _, _, _, _, _ =>
      inl (log_fatal ("One or more parameter for " +:+ id +:+ " is missing") w)
  end.

(** [for(int i=0; i<nb_of_topics_; i++)], with [remaining] turns to go
    from index [i].  A turn that misses a parameter returns false; when
    no turn is left the loop ends and control reaches the closing brace
    of the function. *)
Fixpoint retrieve_topics (ps : ParamServer) (uninit : Z -> bool)
    (remaining : nat) (i : Z) (w : t) : result :=
  match remaining with
  | O => Undefined
  | S remaining' =>
      match retrieve_topic ps uninit i w with
      | inl w' => Returned false w'
      | inr w' => retrieve_topics ps uninit remaining' (i + 1) w'
      end
  end.

(** The statements of [createTopicMonitors] that precede the loop: the
    two global parameters are looked up and stored.  [inl w'] is a
    [return false;], [inr w'] is control arriving at the loop. *)
Definition global_parameters (ps : ParamServer) (w : t) : t + t :=
  match getParam_int ps "nb_of_topics" with
  | None => inl (log_fatal "Missing nb_of_topics parameter" w)
  | Some nb =>
      let w := set_nb_of_topics nb w in
      match getParam_float ps "rate" with
      | None => inl (log_fatal "Missing rate parameter" w)
      | Some rate =>
          let w := set_rate rate w in
          inr (log_info ("Monitoring " +:+ to_string nb +:+ " topics") w)
      end
  end.

(** the number of turns of the loop [for(int i=0; i<nb_of_topics_; i++)] *)
Definition turns (w : t) : nat := Z.to_nat (nb_of_topics_ w).

(** [ZeusWatchdog::createTopicMonitors] *)
Definition createTopicMonitors (ps : ParamServer) (uninit : Z -> bool)
    (w : t) : result :=
  match global_parameters ps w with
  | inl w' => Returned false w'
  | inr w' => retrieve_topics ps uninit (turns w') 0 w'
  end.

(** [ZeusWatchdog::ZeusWatchdog]: [nb0], [rate0] and [status0] are the
    values the uninitialised members happen to hold; the value that
    [createTopicMonitors()] returns is dropped.  There is no constructed
    node to speak of when that call has undefined behaviour. *)
Definition new (ps : ParamServer) (uninit : Z -> bool) (nb0 : Z)
    (rate0 : F32.t) (status0 : bool) : option t :=
  match createTopicMonitors ps uninit
          {| nb_of_topics_ := nb0; rate_ := rate0; topic_list_ := [];
             status_ := status0; cmd_vel_pub_ := []; status_pub_ := [];
             info_pub_ := []; ros_fatal := []; ros_info := [] |} with
  | Returned _ w => Some w
  | Undefined => None
  end.

(** [ZeusWatchdog::getNbOfTopics] *)
Definition getNbOfTopics (w : t) : Z := nb_of_topics_ w.

(** The range-[for] of [ZeusWatchdog::run]: [status] is [status_] and
    [arr] is [topic_array_msg.status]. *)
Fixpoint collect (l : list (TopicMonitor.t Time)) (status : bool)
    (arr : list TopicStatus) : bool * list TopicStatus :=
  match l with
  | [] => (status, arr)
  | m :: l' =>
      let topic_status_msg :=
        {| ts_name := TopicMonitor.getName m;
           ts_status := TopicMonitor.getStatus m |} in
      let arr := arr ++ [topic_status_msg] in
      let status :=
        if Bool.eqb (TopicMonitor.getStatus m) false then false else status in
      collect l' status arr
  end.

(** One pass of the [while] loop of [ZeusWatchdog::run]; [now] is
    [ros::Time::now()]. *)
Definition run_cycle (now : Time) (w : t) : t :=
  let '(status, arr) := collect (topic_list_ w) true [] in
  let w := set_status status w in
  let status_msg := status_ w in
  let topic_array_msg := {| header_stamp := now; statuses := arr |} in
  publish_info topic_array_msg (publish_status status_msg w).

(** [ZeusWatchdog::cmdVelCB] *)
Definition cmdVelCB (msg : geometry_msgs.Twist) (w : t) : t :=
  if Bool.eqb (status_ w) true
  then publish_cmd_vel msg w
  else publish_cmd_vel geometry_msgs.Twist_new w.

(** [main] up to the end of the first pass of [run()]: the node is
    constructed, then [run()] is entered whatever [createTopicMonitors]
    returned. *)
Definition main (ps : ParamServer) (uninit : Z -> bool) (nb0 : Z)
    (rate0 : F32.t) (status0 : bool) (now : Time) : option t :=
  match new ps uninit nb0 rate0 status0 with
  | Some w => Some (run_cycle now w)
  | None => None
  end.

(** *** Vocabulary of the properties *)

(** the entry of one monitor in the published report *)
Definition report (m : TopicMonitor.t Time) : TopicStatus :=
  {| ts_name := TopicMonitor.getName m;
     ts_status := TopicMonitor.getStatus m |}.

(** the five parameters of topic [i+1] are present *)
Definition topic_complete (ps : ParamServer) (i : Z) : bool :=
  let id := topic_id i in
  bool_decide (is_Some (getParam_string ps (id +:+ "/name")))
  && bool_decide (is_Some (getParam_string ps (id +:+ "/topic_name")))
  && bool_decide (is_Some (getParam_float ps (id +:+ "/min_freq")))
  && bool_decide (is_Some (getParam_bool ps (id +:+ "/use_average")))
  && bool_decide (is_Some (getParam_float ps (id +:+ "/monitoring_rate"))).

(** the parameters of the [n] topics from index [i] on are present *)
Fixpoint topics_complete (ps : ParamServer) (n : nat) (i : Z) : bool :=
  match n with
  | O => true
  | S n' => topic_complete ps i && topics_complete ps n' (i + 1)
  end.

(** every required parameter is present: [nb_of_topics], [rate] and the
    five parameters of each of the [nb_of_topics] topics *)
Definition config_complete (ps : ParamServer) : bool :=
  match getParam_int ps "nb_of_topics", getParam_float ps "rate" with
  | Some nb, Some _ => topics_complete ps (Z.to_nat nb) 0
  | _, _ => false
  end.

End WithRos.

Arguments nb_of_topics_ {Time}.
Arguments rate_ {Time}.
Arguments topic_list_ {Time}.
Arguments status_ {Time}.
Arguments cmd_vel_pub_ {Time}.
Arguments status_pub_ {Time}.
Arguments info_pub_ {Time}.
Arguments ros_fatal {Time}.
Arguments ros_info {Time}.
Arguments set_status {Time}.
Arguments cmdVelCB {Time}.
Arguments run_cycle {Time}.
Arguments collect {Time}.
Arguments getNbOfTopics {Time}.
Arguments report {Time}.
Arguments Returned {Time}.
Arguments Undefined {Time}.
Arguments turns {Time}.

End ZeusWatchdog.

(** ** roscpp's time arithmetic and a parameter server, for concrete runs *)

Module Ros.
(** [ros::Time]: seconds and nanoseconds since the epoch. *)
Record Time : Type := mkTime { sec : Z; nsec : Z }.

Definition toNSec (t : Time) : Z := sec t * 1000000000 + nsec t.

(** the [double] nearest to [1e-9] *)
Definition nano : F64.t :=
  Eval vm_compute in F64.div (F64.of_Z 1) (F64.of_Z 1000000000).

(** [ros::Duration::toSec] of [later - earlier]: the duration is
    normalised to [0 <= nsec < 10^9] and read as
    [(double)sec + 1e-9 * (double)nsec]. *)
Definition toSec_diff (later earlier : Time) : F64.t :=
  let d := toNSec later - toNSec earlier in
  F64.add (F64.of_Z (d / 1000000000))
          (F64.mul nano (F64.of_Z (d mod 1000000000))).

(** the stamp [n] milliseconds after the epoch *)
Definition ms (n : Z) : Time :=
  {| sec := n / 1000; nsec := (n mod 1000) * 1000000 |}.

(** A parameter server holding the values of a YAML file; a [float] is
    read from a double or from an integer. *)
Inductive XmlRpcValue : Type :=
| VInt (i : Z)
| VDouble (d : F64.t)
| VBool (b : bool)
| VString (s : string).

Definition params (m : gmap string XmlRpcValue) : ZeusWatchdog.ParamServer :=
  {| ZeusWatchdog.getParam_int k :=
       match m !! k with Some (VInt i) => Some i | _ => None end;
     ZeusWatchdog.getParam_float k :=
       match m !! k with
       | Some (VDouble d) => Some (F32.of_double d)
       | Some (VInt i) => Some (F32.of_Z i)
       | _ => None
       end;
     ZeusWatchdog.getParam_bool k :=
       match m !! k with Some (VBool b) => Some b | _ => None end;
     ZeusWatchdog.getParam_string k :=
       match m !! k with Some (VString s) => Some s | _ => None end |}.
End Ros.

(** ** Scenarios *)

(** The channel "lidar": at least 10 Hz, strict mode, checked at 10 Hz;
    messages received 0, 50, 110 and 300 ms after the epoch. *)
Definition lidar (status0 : bool) : TopicMonitor.t Ros.Time :=
  TopicMonitor.new Ros.Time status0 "lidar" "/scan"
    (F32.of_Z 10) false (F32.of_Z 10).

Definition lidar_log : list Ros.Time :=
  [Ros.ms 0; Ros.ms 50; Ros.ms 110; Ros.ms 300].

(** the [float] nearest to [n / d] *)
Definition ratio (n d : Z) : F32.t := F32.div (F32.of_Z n) (F32.of_Z d).

(** The channel "imu": at least 1000 Hz, in either mode; [n] messages
    received one millisecond apart. *)
Definition imu (status0 use_average : bool) : TopicMonitor.t Ros.Time :=
  TopicMonitor.new Ros.Time status0 "imu" "/imu/data"
    (F32.of_Z 1000) use_average (ratio 1 12).

Definition every_ms (n : nat) : list Ros.Time :=
  map (fun i => Ros.ms (Z.of_nat i)) (seq 0 n).

(** the gap between two stamps one millisecond apart, as the loop sees it *)
Definition gap_1ms : F32.t :=
  Eval vm_compute in
    TopicMonitor.elapsed_time Ros.toSec_diff (Ros.ms 0) (Ros.ms 1).

(** A channel at 10 Hz in averaging mode whose two messages are 200 ms
    apart, that is, arrive at 5 Hz. *)
Definition odom (status0 : bool) : TopicMonitor.t Ros.Time :=
  TopicMonitor.new Ros.Time status0 "odom" "/odom"
    (F32.of_Z 10) true (F32.of_Z 10).

Definition odom_log : list Ros.Time := [Ros.ms 1000; Ros.ms 1200].

(** A node with four monitors, three of them reporting true and one
    false, before a pass of its loop. *)
Definition four_topics : ZeusWatchdog.t Ros.Time :=
  {| ZeusWatchdog.nb_of_topics_ := 4;
     ZeusWatchdog.rate_ := F32.of_Z 10;
     ZeusWatchdog.topic_list_ :=
       [lidar true; odom true; imu false false; imu true true];
     ZeusWatchdog.status_ := true;
     ZeusWatchdog.cmd_vel_pub_ := [];
     ZeusWatchdog.status_pub_ := [];
     ZeusWatchdog.info_pub_ := [];
     ZeusWatchdog.ros_fatal := [];
     ZeusWatchdog.ros_info := [] |}.

(** Parameter files: an empty one, one that monitors no topic, and one
    with a single complete topic. *)
Definition no_params : gmap string Ros.XmlRpcValue := ∅.

Definition zero_topics : gmap string Ros.XmlRpcValue :=
  <["nb_of_topics" := Ros.VInt 0]> (<["rate" := Ros.VInt 10]> ∅).

Definition one_topic : gmap string Ros.XmlRpcValue :=
  <["nb_of_topics" := Ros.VInt 1]>
    (<["rate" := Ros.VInt 10]>
       (<["topic_1/name" := Ros.VString "lidar"]>
          (<["topic_1/topic_name" := Ros.VString "/scan"]>
             (<["topic_1/min_freq" := Ros.VInt 10]>
                (<["topic_1/use_average" := Ros.VBool false]>
                   (<["topic_1/monitoring_rate" := Ros.VInt 10]> ∅)))))).

(** ** The rest of the monitor and of the node *)

(** The frequency of the passes of [TopicMonitor::run]:
    [if(min_freq_ < rate_) run_freq = min_freq_; else run_freq = rate_;] *)
Definition run_freq {Time : Type} (x : TopicMonitor.t Time) : F32.t :=
  if SFltb (TopicMonitor.min_freq_ x) (TopicMonitor.rate_ x)
  then TopicMonitor.min_freq_ x
  else TopicMonitor.rate_ x.

(** What happens to one monitor: [topicCB] and the body of the loop of
    [run] both hold [mu_] from their first statement to their last, so
    they follow one another in some order. *)
Inductive monitor_event (Time : Type) : Type :=
| Arrival (receipt : Time)
| Pass.
Arguments Arrival {Time}.
Arguments Pass {Time}.

Definition monitor_step {Time : Type} (toSec_diff : Time -> Time -> F64.t)
    (x : TopicMonitor.t Time) (e : monitor_event Time) : TopicMonitor.t Time :=
  match e with
  | Arrival receipt => TopicMonitor.topicCB receipt x
  | Pass => TopicMonitor.run_cycle toSec_diff x
  end.

Definition monitor_exec {Time : Type} (toSec_diff : Time -> Time -> F64.t)
    (tr : list (monitor_event Time)) (x : TopicMonitor.t Time)
    : TopicMonitor.t Time :=
  fold_left (monitor_step toSec_diff) tr x.

(** the receipt times of the arrivals of a trace, in order *)
Definition receipts {Time : Type} (tr : list (monitor_event Time)) : list Time :=
  flat_map (fun e => match e with Arrival r => [r] | Pass => [] end) tr.

(** The statements of one pass of [ZeusWatchdog::run], one by one.
    [status_] is the member that [cmdVelCB] reads: [pass_reset] is
    [status_ = true;], [pass_visit] is one turn of the range-[for] and
    [pass_publish] is what follows the loop.  The second component is the
    local [topic_array_msg.status]. *)
Definition pass_reset {Time : Type} (w : ZeusWatchdog.t Time)
    : ZeusWatchdog.t Time * list TopicStatus :=
  (ZeusWatchdog.set_status true w, []).

Definition pass_visit {Time : Type}
    (s : ZeusWatchdog.t Time * list TopicStatus) (m : TopicMonitor.t Time)
    : ZeusWatchdog.t Time * list TopicStatus :=
  let topic_status_msg :=
    {| ts_name := TopicMonitor.getName m;
       ts_status := TopicMonitor.getStatus m |} in
  (if Bool.eqb (TopicMonitor.getStatus m) false
   then ZeusWatchdog.set_status false (fst s)
   else fst s,
   snd s ++ [topic_status_msg]).

Definition pass_publish {Time : Type} (now : Time)
    (s : ZeusWatchdog.t Time * list TopicStatus) : ZeusWatchdog.t Time :=
  ZeusWatchdog.publish_info Time {| header_stamp := now; statuses := snd s |}
    (ZeusWatchdog.publish_status Time (ZeusWatchdog.status_ (fst s)) (fst s)).

(** [cmdVelCB] run once per command, in the order of arrival *)
Definition commands {Time : Type} (msgs : list geometry_msgs.Twist)
    (w : ZeusWatchdog.t Time) : ZeusWatchdog.t Time :=
  fold_left (fun w msg => ZeusWatchdog.cmdVelCB msg w) msgs w.

(** the monitor that turn [i] of "retrieve all topics" constructs when the
    five parameters of the topic are present *)
Definition created_monitor {Time : Type} (ps : ZeusWatchdog.ParamServer)
    (uninit : Z -> bool) (i : Z) : option (TopicMonitor.t Time) :=
  let id := ZeusWatchdog.topic_id i in
  match ZeusWatchdog.getParam_string ps (id +:+ "/name"),
        ZeusWatchdog.getParam_string ps (id +:+ "/topic_name"),
        ZeusWatchdog.getParam_float ps (id +:+ "/min_freq"),
        ZeusWatchdog.getParam_bool ps (id +:+ "/use_average"),
        ZeusWatchdog.getParam_float ps (id +:+ "/monitoring_rate") with
  | Some name, Some topic_name, Some min_freq, Some use_average,
    Some monitoring_rate =>
      Some (TopicMonitor.new Time (uninit i) name topic_name min_freq
              use_average monitoring_rate)
  | _, _, _, _, _ => None
  end.

(** the monitors of the [n] topics from index [i] on, up to the first
    topic with a missing parameter *)
Fixpoint created_monitors {Time : Type} (ps : ZeusWatchdog.ParamServer)
    (uninit : Z -> bool) (n : nat) (i : Z) : list (TopicMonitor.t Time) :=
  match n with
  | O => []
  | S n' =>
      match created_monitor ps uninit i with
      | Some m => m :: created_monitors ps uninit n' (i + 1)
      | None => []
      end
  end.

(** A parameter file whose second topic lacks its [min_freq]. *)
Definition second_topic_incomplete : gmap string Ros.XmlRpcValue :=
  <["nb_of_topics" := Ros.VInt 3]>
    (<["topic_2/name" := Ros.VString "odom"]>
       (<["topic_2/topic_name" := Ros.VString "/odom"]>
          (<["topic_2/use_average" := Ros.VBool true]>
             (<["topic_2/monitoring_rate" := Ros.VInt 10]> one_topic)))).

(** ** Vocabulary of the rounding facts *)

(** mantissa and exponent of a binary32 number in canonical form *)
Definition canonic (m e : Z) : Prop :=
  -149 <= e /\ 0 <= m < 2 ^ 24 /\ (-149 < e -> 2 ^ 23 <= m).

(** [r] holds the mantissa of a value [N / D]: its integer part at most, and
    half a unit more when the round bit is set *)
Definition above (N D : Z) (r : shr_record) : Prop :=
  0 <= shr_m r /\ shr_m r * D <= N
  /\ (shr_r r = true -> (2 * shr_m r + 1) * D <= 2 * N).

(** what [n] right shifts leave *)
Definition shifted (N D m : Z) (n : Z) (r : shr_record) : Prop :=
  above N (2 ^ n * D) r /\ shr_m r = m / 2 ^ n.

(** a float that is at most [B / 2^24] units: minus infinity, a zero, or a
    finite number *)
Definition within (B : Z) (a : F32.t) : Prop :=
  match a with
  | S754_zero _ => True
  | S754_infinity s => s = true
  | S754_nan => False
  | S754_finite _ _ e => -149 <= e /\ 2 ^ 24 * F32.units a <= B
  end.

(** a gap of at most [M] units *)
Definition gap_within (M : Z) (g : F32.t) : Prop :=
  match g with
  | S754_zero _ => True
  | S754_finite _ _ e => -149 <= e /\ F32.units g <= M
  | _ => False
  end.

(** [2^24] times the units that the sum of [k] gaps of at most [M] units
    can hold, rounding included *)
Definition budget (k M : Z) : Z := (2 ^ 24 * k + k * (k + 1)) * M.

(** a zero, an infinity, or a finite number in canonical form *)
Definition proper (a : F32.t) : Prop :=
  match a with
  | S754_finite _ m e => bounded F32.prec F32.emax m e = true
  | S754_nan => False
  | _ => True
  end.

(** ** Facts about the comparisons of [float] *)

(** Swapping the operands of a comparison flips its result. *)
Lemma SFcompare_swap (a b : spec_float) (c : comparison) :
  SFcompare a b = Some c -> SFcompare b a = Some (CompOpp c).
Proof.
  destruct a as [sa|sa| |sa ma ea], b as [sb|sb| |sb mb eb]; simpl;
    try discriminate;
    try (intros [= <-]; destruct sa; try destruct sb; reflexivity).
  intros [= <-]. f_equal.
  destruct sa, sb; try reflexivity;
    rewrite (Z.compare_antisym ea eb);
    destruct (ea ?= eb); simpl; try reflexivity;
    rewrite (Pos.compare_cont_antisym ma mb Eq); simpl;
    try rewrite CompOpp_involutive; reflexivity.
Qed.

(** Two numbers always compare. *)
Lemma SFcompare_defined (a b : spec_float) :
  F32.is_nan a = false -> F32.is_nan b = false ->
  exists c, SFcompare a b = Some c.
Proof.
  destruct a, b; simpl; try discriminate; intros _ _; eexists; reflexivity.
Qed.

(** For numbers, [a <= b] is the negation of [a > b]. *)
Lemma le_not_gt (a b : F32.t) :
  F32.is_nan a = false -> F32.is_nan b = false ->
  F32.le a b = negb (F32.gt a b).
Proof.
  intros Ha Hb. unfold F32.le, F32.gt, SFleb, SFltb.
  destruct (SFcompare_defined a b Ha Hb) as [c Hc].
  rewrite (SFcompare_swap _ _ _ Hc), Hc. destruct c; reflexivity.
Qed.

(** [a > b] and [a <= b] never hold together. *)
Lemma gt_not_le (a b : F32.t) : F32.gt a b = true -> F32.le a b = false.
Proof.
  unfold F32.le, F32.gt, SFleb, SFltb.
  destruct (SFcompare b a) as [c|] eqn:Hc; try discriminate.
  rewrite (SFcompare_swap _ _ _ Hc). destruct c; simpl; congruence.
Qed.

(** ** Facts about rounding in [float] *)

Lemma fexp32 (e : Z) : fexp F32.prec F32.emax e = Z.max (e - 24) (-149).
Proof. reflexivity. Qed.

Lemma shr_fexp_keep (m e : Z) (l : location) :
  fexp F32.prec F32.emax (Zdigits2 m + e) <= e ->
  shr_fexp F32.prec F32.emax m e l = (shr_record_of_loc m l, e).
Proof.
  intros H. unfold shr_fexp, shr.
  destruct (fexp F32.prec F32.emax (Zdigits2 m + e) - e) eqn:E;
    try reflexivity.
  lia.
Qed.

Lemma shr_fexp_shift (m e : Z) (l : location) (p : positive) :
  fexp F32.prec F32.emax (Zdigits2 m + e) = e + Z.pos p ->
  shr_fexp F32.prec F32.emax m e l
  = (SpecFloat.iter_pos shr_1 p (shr_record_of_loc m l), e + Z.pos p).
Proof.
  intros H. unfold shr_fexp, shr.
  replace (fexp F32.prec F32.emax (Zdigits2 m + e) - e) with (Z.pos p) by lia.
  reflexivity.
Qed.

Lemma binary_round_aux_char (s : bool) (m e : Z) (l : location)
    (r1 r2 : shr_record) (e1 e2 : Z) :
  shr_fexp F32.prec F32.emax m e l = (r1, e1) ->
  shr_fexp F32.prec F32.emax
    (round_nearest_even (shr_m r1) (loc_of_shr_record r1)) e1 loc_Exact
  = (r2, e2) ->
  binary_round_aux F32.prec F32.emax s m e l
  = match shr_m r2 with
    | 0 => S754_zero s
    | Z.pos p =>
        if e2 <=? F32.emax - F32.prec then S754_finite s p e2
        else S754_infinity s
    | Z.neg _ => S754_nan
    end.
Proof. intros H1 H2. unfold binary_round_aux. rewrite H1, H2. reflexivity. Qed.

Lemma two_is : F32.of_Z 2 = S754_finite false 8388608 (-22).
Proof. reflexivity. Qed.

Lemma div2_halvable (s : bool) (mx : positive) (ex : Z) :
  Z.pos (digits2_pos mx) = 24 -> -147 <= ex -> ex <= 105 ->
  F32.div (S754_finite s mx ex) (F32.of_Z 2) = S754_finite s mx (ex - 1).
Proof.
  intros Hd Hlo Hhi. rewrite two_is. unfold F32.div, SFdiv, SFdiv_core_binary.
  change (Zdigits2 (Z.pos mx)) with (Z.pos (digits2_pos mx)). rewrite Hd.
  change (Zdigits2 8388608) with 24.
  replace (Z.min (fexp F32.prec F32.emax (24 + ex - (24 + -22))) (ex - -22))
    with (ex - 2) by (rewrite fexp32; lia).
  replace (ex - -22 - (ex - 2)) with 24 by lia.
  assert (Hq : Z.div_eucl (Z.shiftl (Z.pos mx) 24) 8388608 = (Z.pos mx~0, 0)).
  { rewrite Z.shiftl_mul_pow2 by lia.
    pose proof (Z.div_eucl_eq (Z.pos mx * 2 ^ 24) 8388608 ltac:(lia)) as E.
    pose proof (Z.mod_pos_bound (Z.pos mx * 2 ^ 24) 8388608 ltac:(lia)) as B.
    unfold Z.modulo in B.
    destruct (Z.div_eucl (Z.pos mx * 2 ^ 24) 8388608) as [q r].
    change (2 ^ 24) with 16777216 in *.
    assert (q = Z.pos mx~0 /\ r = 0) as [-> ->] by lia. reflexivity. }
  rewrite Hq. cbn [new_location Z.even new_location_even Z.eqb].
  rewrite (binary_round_aux_char (xorb s false) (Z.pos mx~0) (ex - 2)
             loc_Exact
             (Build_shr_record (Z.pos mx) false false)
             (Build_shr_record (Z.pos mx) false false)
             (ex - 1) (ex - 1)).
  - cbn [shr_m].
    replace (ex - 1 <=? F32.emax - F32.prec) with true
      by (symmetry; apply Z.leb_le; unfold F32.emax, F32.prec; lia).
    rewrite xorb_false_r. reflexivity.
  - rewrite (shr_fexp_shift _ _ _ 1%positive).
    + cbn. f_equal. lia.
    + change (Zdigits2 (Z.pos mx~0)) with (Z.pos (Pos.succ (digits2_pos mx))).
      rewrite Pos2Z.inj_succ, Hd, fexp32. lia.
  - cbn [shr_m loc_of_shr_record round_nearest_even].
    rewrite shr_fexp_keep; [reflexivity|].
    change (Zdigits2 (Z.pos mx)) with (Z.pos (digits2_pos mx)).
    rewrite Hd, fexp32. lia.
Qed.

Lemma mul2_regular (s : bool) (mm : positive) (em : Z) :
  Z.pos (digits2_pos mm) = 24 -> -149 <= em ->
  F32.mul (F32.of_Z 2) (S754_finite s mm em)
  = if em + 1 <=? F32.emax - F32.prec
    then S754_finite s mm (em + 1) else S754_infinity s.
Proof.
  intros Hd Hlo. rewrite two_is. unfold F32.mul, SFmul.
  assert (Hd' : digits2_pos mm = 24%positive) by (injection Hd; auto).
  cbn [xorb].
  let t := eval cbv [Pos.mul] in (8388608 * mm)%positive in
  change (8388608 * mm)%positive with t.
  rewrite (binary_round_aux_char _ _ _ loc_Exact
             (Build_shr_record (Z.pos mm) false false)
             (Build_shr_record (Z.pos mm) false false)
             (em + 1) (em + 1)).
  - reflexivity.
  - rewrite (shr_fexp_shift _ _ _ 23%positive).
    + cbn. f_equal. lia.
    + cbn [Zdigits2 digits2_pos]. rewrite Hd', fexp32. cbn [Pos.succ]. lia.
  - cbn [shr_m loc_of_shr_record round_nearest_even].
    rewrite shr_fexp_keep; [reflexivity|].
    cbn [Zdigits2]. rewrite Hd', fexp32. lia.
Qed.

(** Rounding a non-negative mantissa never gives NaN and keeps the sign. *)
Lemma iter_pos_inv {A : Type} (P : A -> Prop) (f : A -> A) :
  (forall a, P a -> P (f a)) -> forall p a, P a -> P (SpecFloat.iter_pos f p a).
Proof.
  intros Hf. induction p as [p IH|p IH|]; intros a Ha; simpl; auto.
Qed.

Lemma shr_1_nonneg (r : shr_record) : 0 <= shr_m r -> 0 <= shr_m (shr_1 r).
Proof.
  destruct r as [m r s]. simpl.
  destruct m as [|[p|p|]|p]; simpl; lia.
Qed.

Lemma shr_fexp_nonneg (m e : Z) (l : location) :
  0 <= m -> 0 <= shr_m (fst (shr_fexp F32.prec F32.emax m e l)).
Proof.
  intros Hm. unfold shr_fexp, shr.
  assert (H0 : 0 <= shr_m (shr_record_of_loc m l))
    by (destruct l as [|[]]; exact Hm).
  destruct (fexp F32.prec F32.emax (Zdigits2 m + e) - e); simpl; try exact H0.
  apply (iter_pos_inv (fun r => 0 <= shr_m r)); [apply shr_1_nonneg | exact H0].
Qed.

Lemma round_nearest_even_nonneg (m : Z) (l : location) :
  0 <= m -> 0 <= round_nearest_even m l.
Proof.
  intros Hm. destruct l as [|[]]; simpl; try lia.
  destruct (Z.even m); lia.
Qed.

Lemma binary_round_aux_signed (s : bool) (m e : Z) (l : location) :
  0 <= m -> F32.signed s (binary_round_aux F32.prec F32.emax s m e l).
Proof.
  intros Hm. unfold binary_round_aux.
  pose proof (shr_fexp_nonneg m e l Hm) as H1.
  destruct (shr_fexp F32.prec F32.emax m e l) as [r1 e1]. simpl in H1.
  pose proof (shr_fexp_nonneg _ e1 loc_Exact
                (round_nearest_even_nonneg _ (loc_of_shr_record r1) H1)) as H2.
  destruct (shr_fexp F32.prec F32.emax _ e1 loc_Exact) as [r2 e2]. simpl in H2.
  destruct (shr_m r2); [reflexivity| |lia].
  destruct (e2 <=? F32.emax - F32.prec); reflexivity.
Qed.

Lemma div_signed (s1 s2 : bool) (m1 m2 : positive) (e1 e2 : Z) :
  F32.signed (xorb s1 s2)
    (F32.div (S754_finite s1 m1 e1) (S754_finite s2 m2 e2)).
Proof.
  unfold F32.div, SFdiv.
  destruct (SFdiv_core_binary F32.prec F32.emax (Z.pos m1) e1 (Z.pos m2) e2)
    as [[q e] l] eqn:E.
  apply binary_round_aux_signed.
  unfold SFdiv_core_binary in E.
  set (m' := match _ - _ - _ with 0 => _ | Z.pos _ => _ | Z.neg _ => _ end) in E.
  assert (Hm' : 0 <= m').
  { subst m'. destruct (_ - _ - _); try lia. apply Z.shiftl_nonneg. lia. }
  pose proof (Z.div_pos m' (Z.pos m2) Hm' ltac:(lia)) as Hq.
  unfold Z.div in Hq. destruct (Z.div_eucl m' (Z.pos m2)) as [q' r'].
  injection E as <- _ _. exact Hq.
Qed.

(** a positive [min_freq] gives a [min_time] that is zero or positive *)
Lemma min_time_nonneg (f : F32.t) :
  F32.gt f F32.zero = true ->
  F32.le F32.zero (F32.div (F32.of_Z 1) f) = true.
Proof.
  change (F32.of_Z 1) with (S754_finite false 8388608 (-23)).
  destruct f as [s|s| |s m e]; try discriminate.
  - destruct s; [discriminate|reflexivity].
  - destruct s; [discriminate|]. intros _.
    pose proof (div_signed false false 8388608 m (-23) e) as H.
    destruct (F32.div _ _) as [s'|s'| |s' m' e']; simpl in H;
      try contradiction; subst s'; reflexivity.
Qed.

Lemma compare_same_shift (s1 s2 : bool) (m1 m2 : positive) (e1 e2 : Z) :
  SFcompare (S754_finite s1 m1 (e1 + 1)) (S754_finite s2 m2 (e2 + 1))
  = SFcompare (S754_finite s1 m1 e1) (S754_finite s2 m2 e2).
Proof.
  simpl. rewrite (Z.add_comm e1 1), (Z.add_comm e2 1), Z.add_compare_mono_l. reflexivity.
Qed.

Lemma halvable_finite (s : bool) (m : positive) (e : Z) :
  F32.halvable (S754_finite s m e) = true ->
  Z.pos (digits2_pos m) = 24 /\ -147 <= e <= 104.
Proof.
  unfold F32.halvable, F32.prec, F32.emax.
  rewrite !andb_true_iff, Z.eqb_eq, !Z.leb_le. lia.
Qed.

Lemma regular_finite (s : bool) (m : positive) (e : Z) :
  F32.regular (S754_finite s m e) = true ->
  Z.pos (digits2_pos m) = 24 /\ -149 <= e <= 104.
Proof.
  unfold F32.regular, F32.prec, F32.emax.
  rewrite !andb_true_iff, Z.eqb_eq, !Z.leb_le. lia.
Qed.

(** the average of a single gap against [min_time], and the gap against
    twice [min_time] *)
Lemma half_vs_double (g m : F32.t) :
  F32.halvable g = true -> F32.regular m = true ->
  negb (F32.gt (F32.div (F32.add F32.zero g) (F32.of_Z 2)) m)
  = F32.le g (F32.mul (F32.of_Z 2) m).
Proof.
  intros Hg Hm.
  destruct g as [sg|sg| |sg mx ex]; try discriminate.
  - (* zero *)
    replace (F32.add F32.zero (S754_zero sg)) with (S754_zero false)
      by (destruct sg; reflexivity).
    destruct m as [sm|sm| |sm mm em]; try discriminate.
    + destruct sm; reflexivity.
    + destruct sm; reflexivity.
    + destruct (regular_finite _ _ _ Hm) as [Hd [Hlo Hhi]].
      rewrite (mul2_regular sm mm em Hd Hlo).
      destruct (em + 1 <=? F32.emax - F32.prec), sm; reflexivity.
  - (* a normal number *)
    destruct (halvable_finite _ _ _ Hg) as [Hd [Hlo Hhi]].
    change (F32.add F32.zero (S754_finite sg mx ex)) with (S754_finite sg mx ex).
    rewrite (div2_halvable sg mx ex Hd Hlo ltac:(lia)).
    destruct m as [sm|sm| |sm mm em]; try discriminate.
    + destruct sm, sg; reflexivity.
    + destruct sm, sg; reflexivity.
    + destruct (regular_finite _ _ _ Hm) as [Hd' [Hlo' Hhi']].
      rewrite (mul2_regular sm mm em Hd' Hlo').
      destruct (em + 1 <=? F32.emax - F32.prec) eqn:Hov.
      * rewrite <- (le_not_gt (S754_finite sg mx (ex - 1)) (S754_finite sm mm em))
          by reflexivity.
        unfold F32.le, SFleb.
        rewrite <- (compare_same_shift sg sm mx mm (ex - 1) em).
        replace (ex - 1 + 1) with ex by lia. reflexivity.
      * apply Z.leb_gt in Hov. unfold F32.emax, F32.prec in Hov.
        assert (em = 104) as -> by lia.
        assert (Hc : (104 ?= ex - 1) = Gt) by (apply Z.compare_gt_iff; lia).
        unfold F32.gt, F32.le, SFltb, SFleb, SFcompare.
        destruct sm, sg; rewrite ?Hc; reflexivity.
Qed.

Lemma mul2_scale2 (a : F32.t) :
  F32.regular a = true -> F32.mul (F32.of_Z 2) a = F32.scale2 a.
Proof.
  destruct a as [s|s| |s m e]; try discriminate; intros H; try reflexivity.
  destruct (regular_finite _ _ _ H) as [Hd [Hlo Hhi]].
  apply (mul2_regular s m e Hd Hlo).
Qed.

Lemma shr_fexp_succ (m e : Z) (l : location) :
  -149 <= e ->
  shr_fexp F32.prec F32.emax m (e + 1) l
  = (fst (shr_fexp F32.prec F32.emax m e l),
     snd (shr_fexp F32.prec F32.emax m e l) + 1)
  /\ -149 <= snd (shr_fexp F32.prec F32.emax m e l).
Proof.
  intros He. unfold shr_fexp, shr. rewrite !fexp32.
  assert (Hd : 0 <= Zdigits2 m) by (destruct m; simpl; lia).
  destruct (Z.max (Zdigits2 m + e - 24) (-149) - e) as [|p|p] eqn:E1;
  destruct (Z.max (Zdigits2 m + (e + 1) - 24) (-149) - (e + 1)) as [|q|q] eqn:E2;
    simpl; try (split; [reflexivity | lia]); try lia.
  assert (p = q) as -> by lia. split; [f_equal; lia | lia].
Qed.

Lemma binary_round_aux_succ (s : bool) (m e : Z) (l : location) :
  -149 <= e ->
  binary_round_aux F32.prec F32.emax s m (e + 1) l
  = F32.scale2 (binary_round_aux F32.prec F32.emax s m e l).
Proof.
  intros He. unfold binary_round_aux.
  destruct (shr_fexp_succ m e l He) as [-> He1].
  destruct (shr_fexp F32.prec F32.emax m e l) as [r1 e1]. simpl fst. simpl snd.
  simpl in He1.
  destruct (shr_fexp_succ (round_nearest_even (shr_m r1) (loc_of_shr_record r1))
              e1 loc_Exact He1) as [-> He2].
  destruct (shr_fexp F32.prec F32.emax _ e1 loc_Exact) as [r2 e2].
  simpl fst. simpl snd. simpl in He2.
  destruct (shr_m r2); try reflexivity.
  destruct (e2 <=? F32.emax - F32.prec) eqn:E1; [reflexivity|].
  apply Z.leb_gt in E1.
  replace (e2 + 1 <=? F32.emax - F32.prec) with false
    by (symmetry; apply Z.leb_gt; lia).
  reflexivity.
Qed.

Lemma two_over (f : F32.t) :
  F32.invertible f = true ->
  F32.div (F32.of_Z 2) f = F32.scale2 (F32.div (F32.of_Z 1) f).
Proof.
  change (F32.of_Z 1) with (S754_finite false 8388608 (-23)).
  rewrite two_is.
  destruct f as [s|s| |s m e]; try discriminate; intros H; try reflexivity.
  unfold F32.invertible, F32.prec in H.
  rewrite !andb_true_iff, Z.eqb_eq, !Z.leb_le in H. destruct H as [[Hd Hlo] Hhi].
  unfold F32.div, SFdiv, SFdiv_core_binary.
  change (Zdigits2 (Z.pos m)) with (Z.pos (digits2_pos m)). rewrite Hd.
  change (Zdigits2 8388608) with 24.
  replace (Z.min (fexp F32.prec F32.emax (24 + -22 - (24 + e))) (-22 - e))
    with (-47 - e + 1) by (rewrite fexp32; lia).
  replace (Z.min (fexp F32.prec F32.emax (24 + -23 - (24 + e))) (-23 - e))
    with (-47 - e) by (rewrite fexp32; lia).
  replace (-22 - e - (-47 - e + 1)) with 24 by lia.
  replace (-23 - e - (-47 - e)) with 24 by lia.
  destruct (Z.div_eucl (Z.shiftl 8388608 24) (Z.pos m)) as [q r].
  apply binary_round_aux_succ. lia.
Qed.

Lemma twice_min_time (f : F32.t) :
  F32.invertible f = true -> F32.regular (F32.div (F32.of_Z 1) f) = true ->
  F32.mul (F32.of_Z 2) (F32.div (F32.of_Z 1) f) = F32.div (F32.of_Z 2) f.
Proof.
  intros Hf Hm. rewrite (mul2_scale2 _ Hm), (two_over f Hf). reflexivity.
Qed.

(** The inverse of a number is a number. *)
Lemma min_time_not_nan (f : F32.t) :
  F32.is_nan f = false -> F32.is_nan (F32.div (F32.of_Z 1) f) = false.
Proof.
  change (F32.of_Z 1) with (S754_finite false 8388608 (-23)).
  destruct f as [s|s| |s m e]; try discriminate; intros _; try reflexivity.
  pose proof (div_signed false s 8388608 m (-23) e) as H.
  destruct (F32.div _ _); simpl in H; try contradiction; reflexivity.
Qed.

(** ** Facts about one pass of a monitor *)

Section MonitorFacts.
Context {Time : Type}.
Variable toSec_diff : Time -> Time -> F64.t.

Local Abbreviation gaps := (TopicMonitor.gaps toSec_diff).
Local Abbreviation scan := (TopicMonitor.scan toSec_diff).
Local Abbreviation verdict := (TopicMonitor.verdict toSec_diff).
Local Abbreviation run_cycle := (TopicMonitor.run_cycle toSec_diff).

Lemma status_run_cycle (x : TopicMonitor.t Time) :
  TopicMonitor.status_ (run_cycle x) = verdict x.
Proof. reflexivity. Qed.

Lemma stamps_run_cycle (x : TopicMonitor.t Time) :
  TopicMonitor.stamps_ (run_cycle x)
  = TopicMonitor.retained (TopicMonitor.stamps_ x).
Proof. reflexivity. Qed.

Lemma length_gaps (l : list Time) : length (gaps l) = Nat.pred (length l).
Proof.
  induction l as [|a [|b l] IH]; try reflexivity.
  change (gaps (a :: b :: l))
    with (TopicMonitor.elapsed_time toSec_diff a b :: gaps (b :: l)).
  simpl length in *. rewrite IH. reflexivity.
Qed.

(** In strict mode the loop leaves [status_] untouched when no gap is
    above [min_time_], and clears it otherwise. *)
Lemma scan_strict (m : F32.t) (l : list Time) (st : bool) (sum : F32.t) :
  fst (scan false m l st sum)
  = if TopicMonitor.all_within m (gaps l) then st else false.
Proof.
  revert sum. induction l as [|a [|b l] IH]; intros sum; try reflexivity.
  change (gaps (a :: b :: l))
    with (TopicMonitor.elapsed_time toSec_diff a b :: gaps (b :: l)).
  change (scan false m (a :: b :: l) st sum)
    with (if negb false && F32.gt (TopicMonitor.elapsed_time toSec_diff a b) m
          then (false, sum)
          else scan false m (b :: l) st
                 (F32.add sum (TopicMonitor.elapsed_time toSec_diff a b))).
  simpl negb. simpl andb. unfold TopicMonitor.all_within at 1. simpl forallb.
  destruct (F32.gt _ m); simpl; [reflexivity | apply IH].
Qed.

(** In averaging mode the loop never leaves early: it adds every gap. *)
Lemma scan_average (m : F32.t) (l : list Time) (st : bool) (sum : F32.t) :
  scan true m l st sum = (st, TopicMonitor.fsum sum (gaps l)).
Proof.
  revert sum. induction l as [|a [|b l] IH]; intros sum; try reflexivity.
  change (gaps (a :: b :: l))
    with (TopicMonitor.elapsed_time toSec_diff a b :: gaps (b :: l)).
  change (scan true m (a :: b :: l) st sum)
    with (scan true m (b :: l) st
            (F32.add sum (TopicMonitor.elapsed_time toSec_diff a b))).
  rewrite IH. reflexivity.
Qed.

Lemma verdict_strict (x : TopicMonitor.t Time) :
  TopicMonitor.use_average_ x = false ->
  (2 <= length (TopicMonitor.stamps_ x))%nat ->
  verdict x
  = TopicMonitor.all_within (TopicMonitor.min_time_ x)
      (gaps (TopicMonitor.stamps_ x)).
Proof.
  intros Hmode Hlen. unfold TopicMonitor.verdict.
  apply Nat.leb_le in Hlen. rewrite Hlen, Hmode.
  pose proof (scan_strict (TopicMonitor.min_time_ x)
                (TopicMonitor.stamps_ x) true F32.zero) as H.
  destruct (scan false _ _ true F32.zero) as [st sum]. simpl in H.
  rewrite H. destruct (TopicMonitor.all_within _ _); reflexivity.
Qed.

Lemma verdict_average (x : TopicMonitor.t Time) :
  TopicMonitor.use_average_ x = true ->
  (2 <= length (TopicMonitor.stamps_ x))%nat ->
  verdict x
  = negb (F32.gt
            (TopicMonitor.average_time_elapsed
               (TopicMonitor.fsum F32.zero (gaps (TopicMonitor.stamps_ x)))
               (length (TopicMonitor.stamps_ x)))
            (TopicMonitor.min_time_ x)).
Proof.
  intros Hmode Hlen. unfold TopicMonitor.verdict.
  apply Nat.leb_le in Hlen. rewrite Hlen, Hmode, scan_average.
  destruct (F32.gt _ _); reflexivity.
Qed.

Lemma all_within_Forall (m : F32.t) (gs : list F32.t) :
  TopicMonitor.all_within m gs = true
  <-> Forall (fun g => F32.gt g m = false) gs.
Proof.
  unfold TopicMonitor.all_within. rewrite forallb_forall, List.Forall_forall.
  split; intros H g Hg; specialize (H g Hg);
    destruct (F32.gt g m); simpl in *; congruence.
Qed.

(** After the callbacks the log holds the receipt times in their order. *)
Lemma arrivals_spec (l : list Time) (x : TopicMonitor.t Time) :
  TopicMonitor.arrivals l x
  = TopicMonitor.set_stamps (TopicMonitor.stamps_ x ++ l) x.
Proof.
  revert x. induction l as [|a l IH]; intros x.
  - destruct x. simpl. rewrite app_nil_r. reflexivity.
  - change (TopicMonitor.arrivals (a :: l) x)
      with (TopicMonitor.arrivals l (TopicMonitor.topicCB a x)).
    rewrite IH. destruct x. simpl. rewrite <- app_assoc. reflexivity.
Qed.

Lemma retained_snoc (l : list Time) (a : Time) :
  TopicMonitor.retained (l ++ [a]) = [a].
Proof.
  destruct l as [|b l]; [reflexivity|].
  simpl. f_equal. apply List.last_last.
Qed.

(** A pass leaves at most one stamp, so a second pass with no arrival in
    between finds the topic stale. *)
Lemma run_twice_stale (x : TopicMonitor.t Time) :
  TopicMonitor.status_ (TopicMonitor.run toSec_diff 2 x) = false.
Proof.
  change (TopicMonitor.run toSec_diff 2 x) with (run_cycle (run_cycle x)).
  rewrite status_run_cycle. unfold TopicMonitor.verdict.
  rewrite stamps_run_cycle.
  destruct (TopicMonitor.stamps_ x); reflexivity.
Qed.
End MonitorFacts.

(** ** Facts about the node *)

Section NodeFacts.
Context {Time : Type}.

Lemma collect_spec (l : list (TopicMonitor.t Time)) (st : bool)
    (arr : list TopicStatus) :
  ZeusWatchdog.collect l st arr
  = (st && forallb TopicMonitor.getStatus l, arr ++ map ZeusWatchdog.report l).
Proof.
  revert st arr. induction l as [|m l IH]; intros st arr; simpl.
  - now rewrite andb_true_r, app_nil_r.
  - rewrite IH, <- app_assoc. simpl. f_equal.
    destruct (TopicMonitor.getStatus m), st; reflexivity.
Qed.
End NodeFacts.

(** ** The claims *)

(** C1. [ZeusWatchdog::cmdVelCB] publishes exactly one message on
    [cmd_vel_out] for every command it receives: the command itself,
    unchanged, when [status_] is true, and the all-zero [Twist] when
    [status_] is false, whatever the command holds.  Nothing else of the
    node changes. *)
Theorem C1_cmdVelCB_gates (Time : Type) (w : ZeusWatchdog.t Time)
    (msg : geometry_msgs.Twist) :
  ZeusWatchdog.cmd_vel_pub_ (ZeusWatchdog.cmdVelCB msg w)
  = ZeusWatchdog.cmd_vel_pub_ w ++ [if ZeusWatchdog.status_ w then msg
        else geometry_msgs.Twist_new]
  /\ ZeusWatchdog.cmd_vel_pub_
       (ZeusWatchdog.cmdVelCB msg (ZeusWatchdog.set_status true w))
     = ZeusWatchdog.cmd_vel_pub_ w ++ [msg]
  /\ ZeusWatchdog.cmd_vel_pub_
       (ZeusWatchdog.cmdVelCB msg (ZeusWatchdog.set_status false w))
     = ZeusWatchdog.cmd_vel_pub_ w ++ [geometry_msgs.Twist_new]
  /\ geometry_msgs.Twist_new
     = geometry_msgs.mkTwist
         (geometry_msgs.mkVector3
            (S754_zero false) (S754_zero false) (S754_zero false))
         (geometry_msgs.mkVector3
            (S754_zero false) (S754_zero false) (S754_zero false))
  /\ ZeusWatchdog.status_ (ZeusWatchdog.cmdVelCB msg w) = ZeusWatchdog.status_ w
  /\ ZeusWatchdog.status_pub_ (ZeusWatchdog.cmdVelCB msg w)
     = ZeusWatchdog.status_pub_ w
  /\ ZeusWatchdog.topic_list_ (ZeusWatchdog.cmdVelCB msg w)
     = ZeusWatchdog.topic_list_ w.
Proof.
  unfold ZeusWatchdog.cmdVelCB.
  repeat split; try reflexivity;
    destruct (ZeusWatchdog.status_ w) eqn:E; simpl; congruence.
Qed.

(** C4. One pass of [ZeusWatchdog::run] sets [status_] to the conjunction
    of [getStatus()] over all monitors: it is true if and only if every
    monitor reports true, and true for an empty monitor list.  The pass
    publishes that value on [status] and, on [info], one (name, status)
    entry per monitor, in the order of the list.  With three monitors
    reporting true and one reporting false the pass publishes false. *)
Theorem C4_run_aggregates (Time : Type) (now : Time) (w : ZeusWatchdog.t Time) :
  let w' := ZeusWatchdog.run_cycle now w in
  ZeusWatchdog.status_ w'
  = forallb TopicMonitor.getStatus (ZeusWatchdog.topic_list_ w)
  /\ (ZeusWatchdog.status_ w' = true
      <-> List.Forall (fun m => TopicMonitor.getStatus m = true)
            (ZeusWatchdog.topic_list_ w))
  /\ (ZeusWatchdog.topic_list_ w = [] -> ZeusWatchdog.status_ w' = true)
  /\ ZeusWatchdog.status_pub_ w'
     = ZeusWatchdog.status_pub_ w ++ [ZeusWatchdog.status_ w']
  /\ ZeusWatchdog.info_pub_ w'
     = ZeusWatchdog.info_pub_ w
       ++ [mkTopicArray now
             (map ZeusWatchdog.report (ZeusWatchdog.topic_list_ w))]
  /\ length (map ZeusWatchdog.report (ZeusWatchdog.topic_list_ w))
     = length (ZeusWatchdog.topic_list_ w)
  /\ ZeusWatchdog.topic_list_ w' = ZeusWatchdog.topic_list_ w
  /\ ZeusWatchdog.status_pub_
       (ZeusWatchdog.run_cycle (Ros.ms 0) four_topics) = [false].
Proof.
  unfold ZeusWatchdog.run_cycle at 1. rewrite collect_spec. simpl.
  repeat split; try reflexivity.
  - intros H. apply List.Forall_forall. intros m Hm.
    rewrite forallb_forall in H. exact (H m Hm).
  - intros H. apply forallb_forall. intros m Hm.
    rewrite List.Forall_forall in H. exact (H m Hm).
  - intros ->. reflexivity.
  - apply length_map.
Qed.

(** C5. After a pass of [TopicMonitor::run] the log holds exactly the
    most recent stamp of the log before the pass: a log ending in [a]
    becomes [[a]] (so [[t1; t2; t3]] becomes [[t3]]), and an empty log
    stays empty. *)
Theorem C5_retention (Time : Type) (toSec_diff : Time -> Time -> F64.t)
    (x : TopicMonitor.t Time) (l : list Time) (a t1 t2 t3 : Time) :
  TopicMonitor.stamps_
    (TopicMonitor.run_cycle toSec_diff (TopicMonitor.set_stamps (l ++ [a]) x))
  = [a]
  /\ TopicMonitor.stamps_
       (TopicMonitor.run_cycle toSec_diff (TopicMonitor.set_stamps [] x))
     = []
  /\ TopicMonitor.stamps_
       (TopicMonitor.run_cycle toSec_diff
          (TopicMonitor.set_stamps [t1; t2; t3] x))
     = [t3].
Proof.
  rewrite !stamps_run_cycle. simpl TopicMonitor.stamps_.
  split; [apply retained_snoc | split; reflexivity].
Qed.

(** C6. A pass of [TopicMonitor::run] over a log of fewer than two stamps
    sets [status_] to false, in strict mode and in averaging mode. *)
Theorem C6_insufficient_data (Time : Type) (toSec_diff : Time -> Time -> F64.t)
    (x : TopicMonitor.t Time) (use_average : bool) :
  (length (TopicMonitor.stamps_ x) < 2)%nat ->
  TopicMonitor.status_
    (TopicMonitor.run_cycle toSec_diff
       (TopicMonitor.set_use_average use_average x))
  = false.
Proof.
  intros Hlen. rewrite status_run_cycle.
  destruct x as [nm tp f avg r m l st]. simpl in Hlen.
  destruct l as [|a [|b l]]; try reflexivity. simpl in Hlen. lia.
Qed.

Lemma C6_insufficient_data_witness :
  TopicMonitor.status_
    (TopicMonitor.run_cycle Ros.toSec_diff
       (TopicMonitor.set_use_average true
          (TopicMonitor.arrivals [Ros.ms 50] (lidar true))))
  = false.
Proof.
  apply (C6_insufficient_data Ros.Time Ros.toSec_diff
           (TopicMonitor.arrivals [Ros.ms 50] (lidar true)) true).
  simpl. lia.
Defined.

(** C2. Strict mode, a log of at least two stamps, [min_time_] and the
    gaps being numbers: the pass sets [status_] to true if and only if
    every gap [stamps[i+1] - stamps[i]] is [<= min_time_]; one gap
    [> min_time_] gives false whatever the other gaps are; and the loop
    that leaves at the first such gap decides as a scan of all gaps does.
    The constructor sets [min_time_ = 1 / min_freq], a number whenever
    [min_freq] is one.  For the channel
    "lidar" at 10 Hz with stamps at 0, 50, 110 and 300 ms the gaps are the
    [float]s 0.05, 0.06 and 0.19, [min_time_] is the [float] 0.1,
    0.19 > 0.1, and the pass sets [status_] to false. *)
Theorem C2_strict_mode :
  (forall (Time : Type) (toSec_diff : Time -> Time -> F64.t)
          (x : TopicMonitor.t Time),
      TopicMonitor.use_average_ x = false ->
      (2 <= length (TopicMonitor.stamps_ x))%nat ->
      F32.is_nan (TopicMonitor.min_time_ x) = false ->
      List.Forall (fun g => F32.is_nan g = false)
        (TopicMonitor.gaps toSec_diff (TopicMonitor.stamps_ x)) ->
      let gs := TopicMonitor.gaps toSec_diff (TopicMonitor.stamps_ x) in
      let m := TopicMonitor.min_time_ x in
      let s := TopicMonitor.status_ (TopicMonitor.run_cycle toSec_diff x) in
      (s = true <-> List.Forall (fun g => F32.le g m = true) gs)
      /\ (List.Exists (fun g => F32.gt g m = true) gs -> s = false)
      /\ s = TopicMonitor.all_within m gs)
  /\ (forall (Time : Type) status0 name topic_name min_freq use_average rate,
         let x := TopicMonitor.new Time status0 name topic_name min_freq
                    use_average rate in
         TopicMonitor.min_time_ x = F32.div (F32.of_Z 1) min_freq
         /\ (F32.is_nan min_freq = false ->
             F32.is_nan (TopicMonitor.min_time_ x) = false))
  /\ (forall status0 : bool,
         let x := TopicMonitor.arrivals lidar_log (lidar status0) in
         TopicMonitor.stamps_ x = lidar_log
         /\ TopicMonitor.gaps Ros.toSec_diff lidar_log
            = [ratio 5 100; ratio 6 100; ratio 19 100]
         /\ TopicMonitor.min_time_ x = ratio 1 10
         /\ F32.gt (ratio 19 100) (ratio 1 10) = true
         /\ TopicMonitor.status_ (TopicMonitor.run_cycle Ros.toSec_diff x)
            = false).
Proof.
  split; [|split].
  - intros Time toSec_diff x Hmode Hlen Hm Hgs gs m s. subst s.
    rewrite status_run_cycle, (verdict_strict _ _ Hmode Hlen).
    fold gs m. repeat split.
    + intros H. apply all_within_Forall in H.
      apply List.Forall_forall. intros g Hg.
      rewrite List.Forall_forall in H, Hgs.
      rewrite (le_not_gt g m (Hgs g Hg) Hm), (H g Hg). reflexivity.
    + intros H. apply all_within_Forall.
      apply List.Forall_forall. intros g Hg.
      rewrite List.Forall_forall in H, Hgs.
      specialize (H g Hg). rewrite (le_not_gt g m (Hgs g Hg) Hm) in H.
      destruct (F32.gt g m); simpl in H; congruence.
    + intros H. apply List.Exists_exists in H. destruct H as [g [Hg Hgt]].
      destruct (TopicMonitor.all_within m gs) eqn:E; [|reflexivity].
      apply all_within_Forall in E. rewrite List.Forall_forall in E.
      rewrite (E g Hg) in Hgt. discriminate.
  - intros Time status0 name topic_name min_freq use_average rate x.
    split; [reflexivity | apply min_time_not_nan].
  - intros status0. vm_compute. repeat split; reflexivity.
Qed.

Lemma C2_strict_mode_witness :
  let x := TopicMonitor.arrivals lidar_log (lidar true) in
  let gs := TopicMonitor.gaps Ros.toSec_diff lidar_log in
  let s := TopicMonitor.status_ (TopicMonitor.run_cycle Ros.toSec_diff x) in
  (s = true
   <-> List.Forall (fun g => F32.le g (TopicMonitor.min_time_ x) = true) gs)
  /\ (List.Exists (fun g => F32.gt g (TopicMonitor.min_time_ x) = true) gs
      -> s = false)
  /\ s = TopicMonitor.all_within (TopicMonitor.min_time_ x) gs.
Proof.
  apply (proj1 C2_strict_mode Ros.Time Ros.toSec_diff
           (TopicMonitor.arrivals lidar_log (lidar true))).
  - reflexivity.
  - simpl. lia.
  - reflexivity.
  - vm_compute. repeat constructor.
Defined.

(** C3. Averaging mode, a log of at least two stamps: the pass computes
    the [float] sum of all gaps divided by the number of stamps (one more
    than the number of gaps) and sets [status_] to false exactly when that
    average is [> min_time_]; when the average and [min_time_] are
    numbers, [status_] is true if and only if the average is
    [<= min_time_].  For a monitor that the constructor built with
    [min_freq] and that has logged the stamps [log], [min_time_] is
    [1 / min_freq] and the verdict compares the average of [log] with
    [1 / min_freq].  For the channel "odom" at 10 Hz with stamps at 1000
    and 1200 ms, [min_time_] is the [float] 0.1, the sum of the gaps is
    the [float] 0.2, the average is 0.2 / 2, the [float] 0.1, and the
    pass sets [status_] to true. *)
Theorem C3_averaging_mode :
  (forall (Time : Type) (toSec_diff : Time -> Time -> F64.t)
          (x : TopicMonitor.t Time),
      TopicMonitor.use_average_ x = true ->
      (2 <= length (TopicMonitor.stamps_ x))%nat ->
      let gs := TopicMonitor.gaps toSec_diff (TopicMonitor.stamps_ x) in
      let m := TopicMonitor.min_time_ x in
      let avg :=
        F32.div (TopicMonitor.fsum F32.zero gs)
          (F32.of_Z (Z.of_nat (length (TopicMonitor.stamps_ x)))) in
      let s := TopicMonitor.status_ (TopicMonitor.run_cycle toSec_diff x) in
      s = negb (F32.gt avg m)
      /\ (F32.is_nan avg = false -> F32.is_nan m = false ->
          (s = true <-> F32.le avg m = true))
      /\ length (TopicMonitor.stamps_ x) = S (length gs))
  /\ (forall (Time : Type) (toSec_diff : Time -> Time -> F64.t)
             status0 name topic_name min_freq rate (log : list Time),
         (2 <= length log)%nat ->
         let x := TopicMonitor.arrivals log
                    (TopicMonitor.new Time status0 name topic_name min_freq
                       true rate) in
         let min_interval := F32.div (F32.of_Z 1) min_freq in
         let avg :=
           F32.div (TopicMonitor.fsum F32.zero (TopicMonitor.gaps toSec_diff log))
             (F32.of_Z (Z.of_nat (length log))) in
         let s := TopicMonitor.status_ (TopicMonitor.run_cycle toSec_diff x) in
         TopicMonitor.min_time_ x = min_interval
         /\ TopicMonitor.stamps_ x = log
         /\ s = negb (F32.gt avg min_interval)
         /\ (F32.is_nan avg = false -> F32.is_nan min_freq = false ->
             (s = true <-> F32.le avg min_interval = true)))
  /\ (forall status0 : bool,
         let x := TopicMonitor.arrivals odom_log (odom status0) in
         TopicMonitor.min_time_ x = ratio 1 10
         /\ TopicMonitor.fsum F32.zero
              (TopicMonitor.gaps Ros.toSec_diff odom_log) = ratio 2 10
         /\ F32.div (ratio 2 10) (F32.of_Z 2) = ratio 1 10
         /\ F32.le (ratio 1 10) (ratio 1 10) = true
         /\ TopicMonitor.status_ (TopicMonitor.run_cycle Ros.toSec_diff x)
            = true).
Proof.
  assert (G : forall (Time : Type) (toSec_diff : Time -> Time -> F64.t)
                     (x : TopicMonitor.t Time),
             TopicMonitor.use_average_ x = true ->
             (2 <= length (TopicMonitor.stamps_ x))%nat ->
             TopicMonitor.status_ (TopicMonitor.run_cycle toSec_diff x)
             = negb (F32.gt
                       (F32.div
                          (TopicMonitor.fsum F32.zero
                             (TopicMonitor.gaps toSec_diff
                                (TopicMonitor.stamps_ x)))
                          (F32.of_Z
                             (Z.of_nat (length (TopicMonitor.stamps_ x)))))
                       (TopicMonitor.min_time_ x))).
  { intros Time toSec_diff x Hmode Hlen.
    rewrite status_run_cycle, (verdict_average _ _ Hmode Hlen). reflexivity. }
  split; [|split].
  - intros Time toSec_diff x Hmode Hlen gs m avg s. subst s.
    rewrite (G Time toSec_diff x Hmode Hlen). fold gs m avg.
    split; [reflexivity|split].
    + intros Havg Hm. rewrite (le_not_gt avg m Havg Hm). tauto.
    + subst gs. rewrite length_gaps. lia.
  - intros Time toSec_diff status0 name topic_name min_freq rate log Hlen
      x min_interval avg s.
    assert (Hx : x = TopicMonitor.set_stamps log
                       (TopicMonitor.new Time status0 name topic_name min_freq
                          true rate))
      by (subst x; rewrite arrivals_spec; reflexivity).
    assert (Hm : TopicMonitor.min_time_ x = min_interval)
      by (rewrite Hx; reflexivity).
    assert (Hl : TopicMonitor.stamps_ x = log) by (rewrite Hx; reflexivity).
    assert (Hs : s = negb (F32.gt avg min_interval)).
    { subst s. rewrite (G Time toSec_diff x).
      - rewrite Hl, Hm. reflexivity.
      - rewrite Hx. reflexivity.
      - rewrite Hl. exact Hlen. }
    split; [exact Hm|]. split; [exact Hl|]. split; [exact Hs|].
    intros Havg Hf. rewrite Hs.
    rewrite (le_not_gt avg min_interval Havg (min_time_not_nan _ Hf)). tauto.
  - intros status0. vm_compute. repeat split; reflexivity.
Qed.

Lemma C3_averaging_mode_witness :
  let x := TopicMonitor.arrivals odom_log (odom false) in
  let min_interval := F32.div (F32.of_Z 1) (F32.of_Z 10) in
  let avg :=
    F32.div
      (TopicMonitor.fsum F32.zero (TopicMonitor.gaps Ros.toSec_diff odom_log))
      (F32.of_Z 2) in
  (TopicMonitor.status_ (TopicMonitor.run_cycle Ros.toSec_diff x)
   = negb (F32.gt avg (TopicMonitor.min_time_ x))
   /\ (TopicMonitor.status_ (TopicMonitor.run_cycle Ros.toSec_diff x) = true
       <-> F32.le avg (TopicMonitor.min_time_ x) = true))
  /\ (TopicMonitor.min_time_ x = min_interval
      /\ min_interval = ratio 1 10
      /\ avg = ratio 1 10
      /\ (TopicMonitor.status_ (TopicMonitor.run_cycle Ros.toSec_diff x) = true
          <-> F32.le avg min_interval = true)).
Proof.
  split.
  - pose proof (proj1 C3_averaging_mode Ros.Time Ros.toSec_diff
                  (TopicMonitor.arrivals odom_log (odom false))) as H.
    assert (H1 : TopicMonitor.use_average_
                   (TopicMonitor.arrivals odom_log (odom false)) = true)
      by reflexivity.
    assert (H2 : (2 <= length (TopicMonitor.stamps_
                    (TopicMonitor.arrivals odom_log (odom false))))%nat)
      by (simpl; lia).
    destruct (H H1 H2) as [Hs [Hiff _]].
    split; [exact Hs|].
    apply Hiff; vm_compute; reflexivity.
  - pose proof (proj1 (proj2 C3_averaging_mode) Ros.Time Ros.toSec_diff
                  false "odom" "/odom" (F32.of_Z 10) (F32.of_Z 10) odom_log)
      as H.
    assert (H2 : (2 <= length odom_log)%nat) by (simpl; lia).
    destruct (H H2) as (Hm & _ & _ & Hiff).
    split; [exact Hm|].
    split; [vm_compute; reflexivity|].
    split; [vm_compute; reflexivity|].
    apply Hiff; vm_compute; reflexivity.
Defined.

(** ** Facts about the initialisation *)

Section InitFacts.
Context {Time : Type}.
Variable ps : ZeusWatchdog.ParamServer.
Variable uninit : Z -> bool.

Lemma retrieve_topic_complete (i : Z) (w : ZeusWatchdog.t Time) :
  ZeusWatchdog.topic_complete ps i = true ->
  exists m, ZeusWatchdog.retrieve_topic Time ps uninit i w
            = inr (ZeusWatchdog.push_topic Time m w).
Proof.
  unfold ZeusWatchdog.topic_complete, ZeusWatchdog.retrieve_topic.
  destruct (ZeusWatchdog.getParam_string ps _);
    [|simpl; rewrite ?andb_false_r; discriminate].
  destruct (ZeusWatchdog.getParam_string ps _);
    [|simpl; rewrite ?andb_false_r; discriminate].
  destruct (ZeusWatchdog.getParam_float ps _);
    [|simpl; rewrite ?andb_false_r; discriminate].
  destruct (ZeusWatchdog.getParam_bool ps _);
    [|simpl; rewrite ?andb_false_r; discriminate].
  destruct (ZeusWatchdog.getParam_float ps _);
    [|simpl; rewrite ?andb_false_r; discriminate].
  intros _. eexists. reflexivity.
Qed.

Lemma retrieve_topic_incomplete (i : Z) (w : ZeusWatchdog.t Time) :
  ZeusWatchdog.topic_complete ps i = false ->
  exists line, ZeusWatchdog.retrieve_topic Time ps uninit i w
               = inl (ZeusWatchdog.log_fatal Time line w).
Proof.
  unfold ZeusWatchdog.topic_complete, ZeusWatchdog.retrieve_topic.
  destruct (ZeusWatchdog.getParam_string ps _); [|eexists; reflexivity].
  destruct (ZeusWatchdog.getParam_string ps _); [|eexists; reflexivity].
  destruct (ZeusWatchdog.getParam_float ps _); [|eexists; reflexivity].
  destruct (ZeusWatchdog.getParam_bool ps _); [|eexists; reflexivity].
  destruct (ZeusWatchdog.getParam_float ps _); [|eexists; reflexivity].
  simpl. unfold is_Some.
  repeat (rewrite bool_decide_eq_true_2 by eauto). discriminate.
Qed.

(** With every topic complete the loop runs out of turns and control
    reaches the closing brace; otherwise the loop returns false after
    one fatal line. *)
Lemma retrieve_topics_spec (n : nat) (i : Z) (w : ZeusWatchdog.t Time) :
  if ZeusWatchdog.topics_complete ps n i
  then ZeusWatchdog.retrieve_topics Time ps uninit n i w
       = ZeusWatchdog.Undefined
  else exists w' line,
         ZeusWatchdog.retrieve_topics Time ps uninit n i w
         = ZeusWatchdog.Returned false w'
         /\ ZeusWatchdog.ros_fatal w' = ZeusWatchdog.ros_fatal w ++ [line].
Proof.
  revert i w. induction n as [|n IH]; intros i w; simpl.
  - reflexivity.
  - destruct (ZeusWatchdog.topic_complete ps i) eqn:Hc; simpl.
    + destruct (retrieve_topic_complete i w Hc) as [m ->].
      apply (IH (i + 1) (ZeusWatchdog.push_topic Time m w)).
    + destruct (retrieve_topic_incomplete i w Hc) as [line ->].
      eexists. exists line. split; reflexivity.
Qed.

Lemma createTopicMonitors_spec (w : ZeusWatchdog.t Time) :
  if ZeusWatchdog.config_complete ps
  then ZeusWatchdog.createTopicMonitors Time ps uninit w
       = ZeusWatchdog.Undefined
  else exists w' line,
         ZeusWatchdog.createTopicMonitors Time ps uninit w
         = ZeusWatchdog.Returned false w'
         /\ ZeusWatchdog.ros_fatal w' = ZeusWatchdog.ros_fatal w ++ [line].
Proof.
  unfold ZeusWatchdog.createTopicMonitors, ZeusWatchdog.global_parameters,
    ZeusWatchdog.config_complete.
  destruct (ZeusWatchdog.getParam_int ps "nb_of_topics") as [nb|]; simpl;
    [|eexists; eexists; split; reflexivity].
  destruct (ZeusWatchdog.getParam_float ps "rate") as [rate|]; simpl;
    [|eexists; eexists; split; reflexivity].
  match goal with
  | |- context [ZeusWatchdog.retrieve_topics Time ps uninit ?n ?i ?w0] =>
      pose proof (retrieve_topics_spec n i w0) as H
  end.
  unfold ZeusWatchdog.turns in *. simpl in *. exact H.
Qed.
End InitFacts.

(** C7. [ZeusWatchdog::createTopicMonitors] logs one fatal line and
    returns false when a required parameter is missing, and it has no
    other defined return.  The rest of the claim fails on the code.  With every parameter
    present the function reaches its closing brace, where it has no
    [return]: success is never reported, and the behaviour is undefined.
    And the constructor drops the value returned: with an empty parameter
    server [main] still enters [run()], whose first pass publishes a true
    status over an empty monitor list, after which [cmdVelCB] lets every
    command through. *)
Theorem C7_initialisation_failure_is_dropped :
  (forall (Time : Type) ps uninit (w : ZeusWatchdog.t Time),
      let r := ZeusWatchdog.createTopicMonitors Time ps uninit w in
      (ZeusWatchdog.config_complete ps = false ->
       exists w' line,
         r = ZeusWatchdog.Returned false w'
         /\ ZeusWatchdog.ros_fatal w' = ZeusWatchdog.ros_fatal w ++ [line])
      /\ (ZeusWatchdog.config_complete ps = true ->
          r = ZeusWatchdog.Undefined)
      /\ ((exists w', r = ZeusWatchdog.Returned false w')
          <-> ZeusWatchdog.config_complete ps = false)
      /\ (forall w', r <> ZeusWatchdog.Returned true w'))
  /\ (forall uninit (w : ZeusWatchdog.t Ros.Time),
         ZeusWatchdog.config_complete (Ros.params one_topic) = true
         /\ ZeusWatchdog.createTopicMonitors Ros.Time
              (Ros.params one_topic) uninit w
            = ZeusWatchdog.Undefined)
  /\ (forall uninit nb0 rate0 status0 now msg,
         let w0 := ZeusWatchdog.mk Ros.Time nb0 rate0 [] status0 [] [] [] [] [] in
         ZeusWatchdog.createTopicMonitors Ros.Time (Ros.params no_params)
           uninit w0
         = ZeusWatchdog.Returned false
             (ZeusWatchdog.log_fatal Ros.Time "Missing nb_of_topics parameter"
                w0)
         /\ exists w,
              ZeusWatchdog.main Ros.Time (Ros.params no_params)
                uninit nb0 rate0 status0 now = Some w
              /\ ZeusWatchdog.topic_list_ w = []
              /\ ZeusWatchdog.status_pub_ w = [true]
              /\ ZeusWatchdog.cmd_vel_pub_ (ZeusWatchdog.cmdVelCB msg w)
                 = [msg]).
Proof.
  split; [|split].
  - intros Time ps uninit w r.
    pose proof (createTopicMonitors_spec ps uninit w) as H. fold r in H.
    destruct (ZeusWatchdog.config_complete ps).
    + rewrite H. repeat split; try congruence.
      intros [w' E]. discriminate.
    + destruct H as (w' & line & H1 & H2). rewrite H1.
      repeat split; try congruence.
      * intros _. exists w', line. split; [reflexivity | exact H2].
      * intros _. exists w'. reflexivity.
  - intros uninit w. split; reflexivity.
  - intros uninit nb0 rate0 status0 now msg. split; [reflexivity|].
    eexists. split; [reflexivity|]. repeat split.
Qed.

(** C8, as stated, fails.  With [nb_of_topics = 0] and [rate] present
    neither lookup fails and no fatal line is logged; what follows is the
    loop over the topics and the closing brace of the function, and the
    code defines no failure there: [createTopicMonitors] has no defined
    result, where the claim has it fail fatally. *)
Lemma C8_counterexample :
  let ps := Ros.params zero_topics in
  let w0 := ZeusWatchdog.mk Ros.Time 7 F32.zero [] false [] [] [] [] [] in
  ZeusWatchdog.getParam_int ps "nb_of_topics" = Some 0
  /\ ZeusWatchdog.getParam_float ps "rate" = Some (F32.of_Z 10)
  /\ (exists w',
         ZeusWatchdog.global_parameters Ros.Time ps w0 = inr w'
         /\ ZeusWatchdog.ros_fatal w' = [])
  /\ ZeusWatchdog.createTopicMonitors Ros.Time ps (fun _ => false) w0
     = ZeusWatchdog.Undefined.
Proof.
  split; [reflexivity|]. split; [reflexivity|].
  split; [eexists; split; reflexivity|].
  reflexivity.
Qed.

(** C8, amended.  The code has no check for an empty configuration.
    With [nb_of_topics = 0] and [rate] present both lookups of
    [createTopicMonitors] succeed: no fatal line is logged and no
    [return false] is taken by the checks of the two parameters,
    [nb_of_topics_] is set to 0 and [rate_] to the rate, the line
    "Monitoring 0 topics" is logged, and no monitor has been created when
    control arrives at the loop over the topics.  Nothing is stated about
    what follows. *)
Theorem C8_empty_configuration_passes_the_checks (Time : Type)
    (ps : ZeusWatchdog.ParamServer) (rate : F32.t) (w : ZeusWatchdog.t Time) :
  ZeusWatchdog.getParam_int ps "nb_of_topics" = Some 0 ->
  ZeusWatchdog.getParam_float ps "rate" = Some rate ->
  exists w',
    ZeusWatchdog.global_parameters Time ps w = inr w'
    /\ ZeusWatchdog.getNbOfTopics w' = 0
    /\ ZeusWatchdog.rate_ w' = rate
    /\ ZeusWatchdog.ros_fatal w' = ZeusWatchdog.ros_fatal w
    /\ ZeusWatchdog.ros_info w'
       = ZeusWatchdog.ros_info w ++ ["Monitoring 0 topics"]
    /\ ZeusWatchdog.topic_list_ w' = ZeusWatchdog.topic_list_ w.
Proof.
  intros Hnb Hrate. unfold ZeusWatchdog.global_parameters.
  rewrite Hnb, Hrate. eexists. split; [reflexivity|]. repeat split.
Qed.

Lemma C8_empty_configuration_passes_the_checks_witness :
  exists w',
    ZeusWatchdog.global_parameters Ros.Time (Ros.params zero_topics)
      (ZeusWatchdog.mk Ros.Time 7 F32.zero [] false [] [] [] [] [])
    = inr w'
    /\ ZeusWatchdog.getNbOfTopics w' = 0
    /\ ZeusWatchdog.ros_fatal w' = []
    /\ ZeusWatchdog.ros_info w' = ["Monitoring 0 topics"].
Proof.
  destruct (C8_empty_configuration_passes_the_checks Ros.Time
              (Ros.params zero_topics) (F32.of_Z 10)
              (ZeusWatchdog.mk Ros.Time 7 F32.zero [] false [] [] [] [] [])
              eq_refl eq_refl)
    as (w' & H1 & H2 & _ & H4 & H5 & _).
  exists w'. split; [exact H1|]. split; [exact H2|].
  split; [exact H4 | exact H5].
Defined.

(** ** Strict mode against averaging mode *)

Lemma toNSec_ms (n : Z) : Ros.toNSec (Ros.ms n) = n * 1000000.
Proof.
  unfold Ros.toNSec, Ros.ms. simpl.
  pose proof (Z.div_mod n 1000 ltac:(lia)). lia.
Qed.

Lemma elapsed_one_ms (n : Z) :
  TopicMonitor.elapsed_time Ros.toSec_diff (Ros.ms n) (Ros.ms (n + 1)) = gap_1ms.
Proof.
  unfold TopicMonitor.elapsed_time, Ros.toSec_diff.
  rewrite !toNSec_ms.
  replace ((n + 1) * 1000000 - n * 1000000) with 1000000 by lia.
  reflexivity.
Qed.

Lemma gaps_every_ms (n k : nat) :
  TopicMonitor.gaps Ros.toSec_diff
    (map (fun i => Ros.ms (Z.of_nat i)) (seq k n))
  = repeat gap_1ms (Nat.pred n).
Proof.
  revert k. induction n as [|n IH]; intros k; [reflexivity|].
  destruct n as [|n]; [reflexivity|].
  specialize (IH (S k)).
  change (seq k (S (S n))) with (k :: seq (S k) (S n)).
  change (seq (S k) (S n)) with (S k :: seq (S (S k)) n) in *.
  simpl map in *.
  change (TopicMonitor.gaps Ros.toSec_diff
            (Ros.ms (Z.of_nat k) :: Ros.ms (Z.of_nat (S k)) :: ?l))
    with (TopicMonitor.elapsed_time Ros.toSec_diff
            (Ros.ms (Z.of_nat k)) (Ros.ms (Z.of_nat (S k)))
          :: TopicMonitor.gaps Ros.toSec_diff (Ros.ms (Z.of_nat (S k)) :: l)).
  rewrite IH, Nat2Z.inj_succ. unfold Z.succ. rewrite elapsed_one_ms.
  reflexivity.
Qed.

Lemma all_within_repeat (m g : F32.t) (n : nat) :
  F32.gt g m = false -> TopicMonitor.all_within m (repeat g n) = true.
Proof.
  intros H. induction n as [|n IH]; [reflexivity|].
  simpl. rewrite H. exact IH.
Qed.

(** C9, as stated, fails.  The channel "imu" requires 1000 Hz, so
    [min_time_] is the [float] 0.001; the log holds 11461 stamps one
    millisecond apart, so every gap is that same [float].  The strict pass
    sets [status_] to true.  The averaging pass adds the 11460 gaps in
    [float]: the rounded sum divided by 11461 is above [min_time_], and
    the pass sets [status_] to false. *)
Lemma C9_counterexample :
  let log := every_ms (Z.to_nat 11461) in
  (2 <= length log)%nat
  /\ F32.gt (TopicMonitor.min_freq_ (imu false false)) F32.zero = true
  /\ List.Forall
       (fun g => F32.le g (TopicMonitor.min_time_ (imu false false)) = true)
       (TopicMonitor.gaps Ros.toSec_diff log)
  /\ TopicMonitor.status_
       (TopicMonitor.run_cycle Ros.toSec_diff
          (TopicMonitor.arrivals log (imu false false))) = true
  /\ TopicMonitor.status_
       (TopicMonitor.run_cycle Ros.toSec_diff
          (TopicMonitor.arrivals log (imu false true))) = false.
Proof.
  intros log.
  assert (Hlen : length log = Z.to_nat 11461)
    by (unfold log, every_ms; rewrite length_map, length_seq; reflexivity).
  assert (Hlen2 : (2 <= length log)%nat) by (rewrite Hlen; lia).
  assert (Hgaps : TopicMonitor.gaps Ros.toSec_diff log
                  = repeat gap_1ms (Z.to_nat 11460)).
  { unfold log, every_ms. rewrite gaps_every_ms. reflexivity. }
  rewrite !arrivals_spec.
  change (TopicMonitor.stamps_ (imu false false) ++ log) with log.
  change (TopicMonitor.stamps_ (imu false true) ++ log) with log.
  split; [exact Hlen2|]. split; [reflexivity|]. split; [|split].
  - rewrite Hgaps. apply List.Forall_forall. intros g Hg.
    apply repeat_spec in Hg. subst g. reflexivity.
  - rewrite status_run_cycle.
    rewrite (verdict_strict Ros.toSec_diff
               (TopicMonitor.set_stamps log (imu false false)) eq_refl Hlen2).
    simpl TopicMonitor.stamps_. rewrite Hgaps.
    apply all_within_repeat. reflexivity.
  - rewrite status_run_cycle.
    rewrite (verdict_average Ros.toSec_diff
               (TopicMonitor.set_stamps log (imu false true)) eq_refl Hlen2).
    simpl TopicMonitor.stamps_. rewrite Hgaps, Hlen.
    vm_compute. reflexivity.
Qed.

(** *** Rounding, in units of [2^-149] *)

Lemma digits2_bounds (p : positive) :
  2 ^ (Z.pos (digits2_pos p) - 1) <= Z.pos p < 2 ^ Z.pos (digits2_pos p).
Proof.
  induction p as [p IH|p IH|]; simpl digits2_pos.
  - rewrite Pos2Z.inj_succ. replace (Z.succ (Z.pos (digits2_pos p)) - 1)
      with (Z.succ (Z.pos (digits2_pos p) - 1)) by lia.
    rewrite !Z.pow_succ_r by lia. lia.
  - rewrite Pos2Z.inj_succ. replace (Z.succ (Z.pos (digits2_pos p)) - 1)
      with (Z.succ (Z.pos (digits2_pos p) - 1)) by lia.
    rewrite !Z.pow_succ_r by lia. lia.
  - simpl. lia.
Qed.

Lemma Zdigits2_nonneg (m : Z) : 0 <= Zdigits2 m.
Proof. destruct m; simpl; lia. Qed.

Lemma Zdigits2_bounds (m : Z) :
  0 < m -> 2 ^ (Zdigits2 m - 1) <= m < 2 ^ Zdigits2 m.
Proof.
  destruct m as [|p|p]; try lia. intros _. apply digits2_bounds.
Qed.

Lemma Zdigits2_unique (m k : Z) :
  2 ^ (k - 1) <= m < 2 ^ k -> 1 <= k -> Zdigits2 m = k.
Proof.
  intros [Hlo Hhi] Hk.
  assert (Hm : 0 < m) by (pose proof (Z.pow_pos_nonneg 2 (k - 1)); lia).
  destruct (Zdigits2_bounds m Hm) as [Dlo Dhi].
  pose proof (Zdigits2_nonneg m) as Hd.
  destruct (Z.lt_trichotomy (Zdigits2 m) k) as [H|[H|H]]; [|exact H|].
  - assert (2 ^ Zdigits2 m <= 2 ^ (k - 1)) by (apply Z.pow_le_mono_r; lia). lia.
  - assert (2 ^ k <= 2 ^ (Zdigits2 m - 1)) by (apply Z.pow_le_mono_r; lia). lia.
Qed.

Lemma Zdigits2_le (m k : Z) : 0 <= m < 2 ^ k -> 0 <= k -> Zdigits2 m <= k.
Proof.
  intros [Hlo Hhi] Hk.
  destruct (Z.eq_dec m 0) as [->|Hm]; [simpl; lia|].
  destruct (Zdigits2_bounds m ltac:(lia)) as [Dlo Dhi].
  destruct (Z_le_gt_dec (Zdigits2 m) k) as [H|H]; [exact H|].
  assert (2 ^ k <= 2 ^ (Zdigits2 m - 1)) by (apply Z.pow_le_mono_r; lia). lia.
Qed.

Lemma Zdigits2_ge (m k : Z) : 2 ^ (k - 1) <= m -> 1 <= k -> k <= Zdigits2 m.
Proof.
  intros Hlo Hk.
  assert (Hm : 0 < m) by (pose proof (Z.pow_pos_nonneg 2 (k - 1)); lia).
  destruct (Zdigits2_bounds m Hm) as [Dlo Dhi].
  destruct (Z_le_gt_dec k (Zdigits2 m)) as [H|H]; [exact H|].
  pose proof (Zdigits2_nonneg m).
  assert (2 ^ Zdigits2 m <= 2 ^ (k - 1)) by (apply Z.pow_le_mono_r; lia). lia.
Qed.

(** iterating a step that moves an indexed invariant one index up *)
Lemma iter_pos_index {A : Type} (Q : Z -> A -> Prop) (f : A -> A) :
  (forall k a, 0 <= k -> Q k a -> Q (k + 1) (f a)) ->
  forall p k a, 0 <= k -> Q k a -> Q (k + Z.pos p) (SpecFloat.iter_pos f p a).
Proof.
  intros Hf. induction p as [p IH|p IH|]; intros k a Hk Ha; simpl.
  - replace (k + Z.pos p~1) with (k + 1 + Z.pos p + Z.pos p) by lia.
    apply IH; [lia|]. apply IH; [lia|]. apply Hf; assumption.
  - replace (k + Z.pos p~0) with (k + Z.pos p + Z.pos p) by lia.
    apply IH; [lia|]. apply IH; assumption.
  - apply Hf; assumption.
Qed.

Lemma shr_1_m (r : shr_record) : 0 <= shr_m r -> shr_m (shr_1 r) = shr_m r / 2.
Proof.
  destruct r as [m r s]. cbn [shr_m]. intros Hm.
  destruct m as [|[p|p|]|p]; cbn [shr_1 shr_m]; try lia.
  - reflexivity.
  - apply Z.div_unique with (r := 1); lia.
  - apply Z.div_unique with (r := 0); lia.
  - reflexivity.
Qed.

Lemma shr_1_r (r : shr_record) : 0 <= shr_m r -> shr_r (shr_1 r) = Z.odd (shr_m r).
Proof.
  destruct r as [m r s]. simpl. intros Hm.
  destruct m as [|[p|p|]|p]; simpl; try reflexivity; lia.
Qed.

Lemma above_shr_1 (N D : Z) (r : shr_record) :
  0 < D -> above N D r -> above N (2 * D) (shr_1 r).
Proof.
  intros HD (Hm & Hfl & Hr).
  pose proof (shr_1_m r Hm) as E1. pose proof (shr_1_r r Hm) as E2.
  pose proof (Z.div_mod (shr_m r) 2 ltac:(lia)) as Hdm.
  pose proof (Z.mod_pos_bound (shr_m r) 2 ltac:(lia)) as Hb.
  unfold above. rewrite E1, E2. split; [apply Z.div_pos; lia|]. split.
  - nia.
  - intros Ho. rewrite Zmod_odd, Ho in Hdm. nia.
Qed.

Lemma shifted_iter (N D m : Z) (p : positive) (r : shr_record) :
  0 < D -> above N D r -> shr_m r = m ->
  shifted N D m (Z.pos p) (SpecFloat.iter_pos shr_1 p r).
Proof.
  intros HD Ha Hm.
  apply (iter_pos_index (shifted N D m) shr_1) with (k := 0) (p := p);
    [|lia|].
  - intros k a Hk [Hab Hma]. split.
    + rewrite Z.pow_add_r by lia. change (2 ^ 1) with 2.
      replace (2 ^ k * 2 * D) with (2 * (2 ^ k * D)) by lia.
      apply above_shr_1; [|exact Hab].
      pose proof (Z.pow_pos_nonneg 2 k). lia.
    + rewrite shr_1_m by (destruct Hab; assumption).
      rewrite Hma, Z.pow_add_r by lia. change (2 ^ 1) with 2.
      rewrite Z.div_div; [reflexivity| |lia].
      pose proof (Z.pow_pos_nonneg 2 k). lia.
  - split.
    + change (2 ^ 0) with 1. rewrite Z.mul_1_l. exact Ha.
    + change (2 ^ 0) with 1. rewrite Z.div_1_r. exact Hm.
Qed.

(** first stage: the mantissa is cut down to 24 digits, or down to the
    exponent of the denormals *)
Lemma shr_fexp_first (m e : Z) (l : location) (N D : Z) :
  0 <= m -> 0 < D ->
  e <= fexp F32.prec F32.emax (Zdigits2 m + e) ->
  above N D (shr_record_of_loc m l) ->
  exists r1 n,
    shr_fexp F32.prec F32.emax m e l = (r1, e + n)
    /\ 0 <= n /\ e + n = fexp F32.prec F32.emax (Zdigits2 m + e)
    /\ above N (2 ^ n * D) r1 /\ shr_m r1 = m / 2 ^ n.
Proof.
  intros Hm HD HNC Ha.
  assert (Hrec : shr_m (shr_record_of_loc m l) = m)
    by (destruct l as [|[]]; reflexivity).
  unfold shr_fexp, shr.
  destruct (fexp F32.prec F32.emax (Zdigits2 m + e) - e) as [|p|p] eqn:E;
    [| |lia].
  - exists (shr_record_of_loc m l), 0.
    split; [f_equal; lia|]. split; [lia|]. split; [lia|].
    change (2 ^ 0) with 1. rewrite Z.mul_1_l, Z.div_1_r. split; assumption.
  - exists (SpecFloat.iter_pos shr_1 p (shr_record_of_loc m l)), (Z.pos p).
    split; [reflexivity|]. split; [lia|]. split; [lia|].
    apply (shifted_iter N D m p _ HD Ha Hrec).
Qed.

Lemma shr_fexp_second (mr e1 : Z) :
  -149 <= e1 -> 0 <= mr <= 2 ^ 24 ->
  (-149 < e1 -> 2 ^ 23 <= mr) ->
  exists r2 ef,
    shr_fexp F32.prec F32.emax mr e1 loc_Exact = (r2, ef)
    /\ e1 <= ef /\ shr_m r2 * 2 ^ (ef - e1) = mr
    /\ canonic (shr_m r2) ef.
Proof.
  intros He Hmr Hn.
  destruct (Z.eq_dec mr (2 ^ 24)) as [->|Hne].
  - (* the rounding carried into a 25th digit *)
    exists (Build_shr_record (2 ^ 23) false false), (e1 + 1).
    split.
    + rewrite (shr_fexp_shift _ _ _ 1%positive); [reflexivity|].
      change (Zdigits2 (2 ^ 24)) with 25. rewrite fexp32. lia.
    + split; [lia|]. split.
      * replace (e1 + 1 - e1) with 1 by lia. reflexivity.
      * unfold canonic. cbn [shr_m]. repeat split; lia.
  - exists (Build_shr_record mr false false), e1.
    assert (Hd : fexp F32.prec F32.emax (Zdigits2 mr + e1) <= e1).
    { rewrite fexp32.
      assert (Zdigits2 mr <= 24); [|lia].
      apply Zdigits2_le; lia. }
    split; [apply (shr_fexp_keep mr e1 loc_Exact Hd)|].
    split; [lia|]. split.
    + rewrite Z.sub_diag. cbn [shr_m]. change (2 ^ 0) with 1. lia.
    + unfold canonic. cbn [shr_m]. split; [lia|]. split; [lia|].
      exact Hn.
Qed.

(** The two stages of a rounding.  [m1] is the mantissa after the first
    shift by [n], [mr] the rounded mantissa, [mf] and [ef] the result. *)
Lemma binary_round_aux_stages (s : bool) (m e : Z) (l : location) (N D : Z) :
  0 <= m -> 0 < D ->
  e <= fexp F32.prec F32.emax (Zdigits2 m + e) ->
  above N D (shr_record_of_loc m l) ->
  exists n m1 mr mf ef,
    0 <= n /\ m1 = m / 2 ^ n
    /\ 0 <= m1 /\ m1 * (2 ^ n * D) <= N
    /\ (mr = m1 \/ (mr = m1 + 1 /\ (2 * m1 + 1) * (2 ^ n * D) <= 2 * N))
    /\ (-149 < e + n -> 2 ^ 23 <= m1)
    /\ e + n <= ef /\ mf * 2 ^ (ef - (e + n)) = mr
    /\ canonic mf ef
    /\ binary_round_aux F32.prec F32.emax s m e l
       = match mf with
         | 0 => S754_zero s
         | Z.pos p =>
             if ef <=? 104 then S754_finite s p ef else S754_infinity s
         | Z.neg _ => S754_nan
         end.
Proof.
  intros Hm HD HNC Ha.
  destruct (shr_fexp_first m e l N D Hm HD HNC Ha)
    as (r1 & n & E1 & Hn & He1 & (Hm1 & Hfl & Hr) & Hdiv).
  set (m1 := shr_m r1) in *.
  set (mr := round_nearest_even m1 (loc_of_shr_record r1)).
  assert (Hmr : mr = m1 \/ (mr = m1 + 1 /\ shr_r r1 = true)).
  { subst mr m1. destruct r1 as [m1 [] []]; cbn; try (left; reflexivity).
    - right. split; reflexivity.
    - destruct (Z.even m1); [left | right; split]; reflexivity. }
  (* size of the mantissa after the first shift *)
  pose proof (Zdigits2_nonneg m) as Hd0.
  rewrite fexp32 in He1, HNC.
  assert (Hp : 0 < 2 ^ n) by (apply Z.pow_pos_nonneg; lia).
  assert (Hnorm : -149 < e + n -> 2 ^ 23 <= m1 < 2 ^ 24).
  { intros Hlt.
    assert (Hmpos : 0 < m).
    { destruct (Z.eq_dec m 0) as [->|]; [simpl in *; lia | lia]. }
    destruct (Zdigits2_bounds m Hmpos) as [Dlo Dhi].
    assert (En : n = Zdigits2 m - 24) by lia.
    rewrite Hdiv. split.
    - apply Z.div_le_lower_bound; [lia|].
      rewrite <- Z.pow_add_r by lia.
      replace (n + 23) with (Zdigits2 m - 1) by lia. exact Dlo.
    - apply Z.div_lt_upper_bound; [lia|].
      rewrite <- Z.pow_add_r by lia.
      replace (n + 24) with (Zdigits2 m) by lia. exact Dhi. }
  assert (Hsub : m1 < 2 ^ 24).
  { rewrite Hdiv.
    apply Z.div_lt_upper_bound; [lia|].
    rewrite <- Z.pow_add_r by lia.
    destruct (Z.eq_dec m 0) as [->|Hne].
    - apply Z.pow_pos_nonneg; lia.
    - destruct (Zdigits2_bounds m ltac:(lia)) as [Dlo Dhi].
      assert (2 ^ Zdigits2 m <= 2 ^ (n + 24))
        by (apply Z.pow_le_mono_r; lia).
      lia. }
  assert (He1' : -149 <= e + n) by lia.
  assert (P1 : 0 <= mr <= 2 ^ 24)
    by (destruct Hmr as [E|[E _]]; rewrite E; lia).
  assert (P2 : -149 < e + n -> 2 ^ 23 <= mr).
  { intros Hlt. specialize (Hnorm Hlt).
    destruct Hmr as [E|[E _]]; rewrite E; lia. }
  destruct (shr_fexp_second mr (e + n) He1' P1 P2)
    as (r2 & ef & E2 & Hef & Hval & Hcan).
  exists n, m1, mr, (shr_m r2), ef.
  split; [exact Hn|]. split; [exact Hdiv|]. split; [exact Hm1|].
  split; [exact Hfl|]. split.
  { destruct Hmr as [E|[E Hr1]]; [left; exact E|].
    right. split; [exact E | apply Hr; exact Hr1]. }
  split; [intros Hlt; apply (Hnorm Hlt)|].
  split; [exact Hef|]. split; [exact Hval|]. split; [exact Hcan|].
  apply (binary_round_aux_char s m e l r1 r2 (e + n) ef E1 E2).
Qed.

(** *** Alignment *)

Lemma iter_xO (m d : positive) :
  Z.pos (Pos.iter xO m d) = Z.pos m * 2 ^ Z.pos d.
Proof.
  induction d as [|d IH] using Pos.peano_ind.
  - simpl. lia.
  - rewrite Pos.iter_succ, Pos2Z.inj_xO, IH, Pos2Z.inj_succ, Z.pow_succ_r by lia.
    lia.
Qed.

Lemma shl_align_spec (m : positive) (e e' : Z) :
  exists k, 0 <= k /\ k = Z.max 0 (e - e')
    /\ Z.pos (fst (shl_align m e e')) = Z.pos m * 2 ^ k
    /\ snd (shl_align m e e') = e - k.
Proof.
  unfold shl_align.
  destruct (e' - e) as [|p|p] eqn:E; simpl.
  - exists 0. repeat split; try lia.
  - exists 0. repeat split; try lia.
  - exists (Z.pos p). split; [lia|]. split; [lia|].
    split; [apply iter_xO | lia].
Qed.

Lemma Zdigits2_shift (m k : Z) :
  0 < m -> 0 <= k -> Zdigits2 (m * 2 ^ k) = Zdigits2 m + k.
Proof.
  intros Hm Hk. destruct (Zdigits2_bounds m Hm) as [Dlo Dhi].
  assert (1 <= Zdigits2 m).
  { destruct m; simpl; lia. }
  assert (Hp : 0 < 2 ^ k) by (apply Z.pow_pos_nonneg; lia).
  apply Zdigits2_unique; [|lia]. split.
  - replace (Zdigits2 m + k - 1) with (Zdigits2 m - 1 + k) by lia.
    rewrite Z.pow_add_r by lia. nia.
  - rewrite Z.pow_add_r by lia. nia.
Qed.

(** *** Rounding an integer multiple of a power of two *)

(** The value of [binary_round s p e] is at most [1 + 2^-24] times the
    value rounded. *)
Lemma binary_round_upper (s : bool) (p : positive) (e : Z) :
  -149 <= e ->
  exists mf ef,
    canonic mf ef
    /\ 2 ^ 24 * (mf * 2 ^ (ef + 149)) <= (2 ^ 24 + 1) * (Z.pos p * 2 ^ (e + 149))
    /\ binary_round F32.prec F32.emax s p e
       = match mf with
         | 0 => S754_zero s
         | Z.pos q =>
             if ef <=? 104 then S754_finite s q ef else S754_infinity s
         | Z.neg _ => S754_nan
         end.
Proof.
  intros He. unfold binary_round.
  destruct (shl_align_spec p e
              (fexp F32.prec F32.emax (Z.pos (digits2_pos p) + e)))
    as (k & Hk & Ek & Hm & Hs).
  destruct (shl_align p e _) as [mz ez]. cbn [fst snd] in Hm, Hs.
  change (Z.pos (digits2_pos p)) with (Zdigits2 (Z.pos p)) in Ek.
  pose proof (Zdigits2_nonneg (Z.pos p)) as Hd.
  rewrite fexp32 in Ek.
  assert (Hez : -149 <= ez) by lia.
  assert (HNC : ez <= fexp F32.prec F32.emax (Zdigits2 (Z.pos mz) + ez)).
  { rewrite Hm, Zdigits2_shift, fexp32 by lia. lia. }
  assert (Ha : above (Z.pos mz) 1 (shr_record_of_loc (Z.pos mz) loc_Exact)).
  { unfold above. cbn. repeat split; first [lia | discriminate]. }
  destruct (binary_round_aux_stages s (Z.pos mz) ez loc_Exact (Z.pos mz) 1
              ltac:(lia) ltac:(lia) HNC Ha)
    as (n & m1 & mr & mf & ef & Hn & Hm1 & Hm1' & Hfl & Hmr & Hnorm & Hef
        & Hval & Hcan & Hres).
  exists mf, ef. split; [exact Hcan|]. split; [|exact Hres].
  assert (Hp : 0 < 2 ^ n) by (apply Z.pow_pos_nonneg; lia).
  (* the rounded mantissa against the aligned one *)
  assert (Hrel : 2 ^ 24 * (mr * 2 ^ n) <= (2 ^ 24 + 1) * Z.pos mz).
  { destruct (Z.eq_dec n 0) as [->|Hn0].
    - change (2 ^ 0) with 1 in *. rewrite Z.div_1_r in Hm1.
      destruct Hmr as [->|[-> Hup]]; lia.
    - assert (H23 : 2 ^ 23 <= m1) by (apply Hnorm; lia).
      change (2 ^ 23) with 8388608 in H23.
      change (2 ^ 24) with 16777216.
      destruct Hmr as [->|[-> Hup]]; nia. }
  assert (E1 : mf * 2 ^ (ef + 149) = mr * 2 ^ n * 2 ^ (ez + 149)).
  { rewrite <- Hval.
    replace (ef + 149) with (ef - (ez + n) + (n + (ez + 149))) by lia.
    rewrite !Z.pow_add_r by lia. ring. }
  assert (E2 : Z.pos p * 2 ^ (e + 149) = Z.pos mz * 2 ^ (ez + 149)).
  { rewrite Hm. replace (e + 149) with (k + (ez + 149)) by lia.
    rewrite Z.pow_add_r by lia. ring. }
  rewrite E1, E2.
  assert (Hq : 0 < 2 ^ (ez + 149)) by (apply Z.pow_pos_nonneg; lia).
  nia.
Qed.

(** *** Addition *)

Lemma add_units (sx sy : bool) (mx my : positive) (ex ey : Z) :
  -149 <= ex -> -149 <= ey ->
  exists zi,
    F32.units (S754_finite sx mx ex) + F32.units (S754_finite sy my ey)
    = zi * 2 ^ (Z.min ex ey + 149)
    /\ F32.add (S754_finite sx mx ex) (S754_finite sy my ey)
       = binary_normalize F32.prec F32.emax zi (Z.min ex ey) false.
Proof.
  intros Hx Hy. unfold F32.add, SFadd.
  destruct (shl_align_spec mx ex (Z.min ex ey)) as (kx & Hkx & Ekx & Hmx & _).
  destruct (shl_align_spec my ey (Z.min ex ey)) as (ky & Hky & Eky & Hmy & _).
  eexists. split; [|reflexivity].
  unfold F32.units, cond_Zopp. rewrite Hmx, Hmy.
  replace (ex + 149) with (kx + (Z.min ex ey + 149)) by lia.
  replace (ey + 149) with (ky + (Z.min ex ey + 149)) by lia.
  rewrite (Z.pow_add_r 2 kx), (Z.pow_add_r 2 ky) by lia.
  destruct sx, sy; ring.
Qed.

Lemma add_within (B M B' : Z) (s g : F32.t) :
  0 <= B' -> B <= B' -> 2 ^ 24 * M <= B' ->
  (2 ^ 24 + 1) * (B + 2 ^ 24 * M) <= 2 ^ 24 * B' ->
  B' < 2 ^ 300 ->
  within B s -> gap_within M g -> within B' (F32.add s g).
Proof.
  intros HB' HBB HMB Hstep Hov Hs Hg.
  destruct s as [ss|ss| |ss ms es]; cbn [within] in Hs; try contradiction.
  - (* the sum so far is a zero *)
    destruct g as [sg|sg| |sg mg eg]; cbn [gap_within] in Hg;
      try contradiction.
    + destruct ss, sg; exact I.
    + cbn. cbn in Hg. lia.
  - (* minus infinity *)
    subst ss.
    destruct g as [sg|sg| |sg mg eg]; cbn [gap_within] in Hg;
      try contradiction; reflexivity.
  - destruct g as [sg|sg| |sg mg eg]; cbn [gap_within] in Hg;
      try contradiction.
    + cbn. cbn in Hs. lia.
    + destruct Hs as [Hes Hs]. destruct Hg as [Heg Hg].
      destruct (add_units ss sg ms mg es eg Hes Heg) as (zi & Hz & ->).
      set (ez := Z.min es eg) in *.
      assert (Hez : -149 <= ez) by (subst ez; lia).
      assert (Hq : 0 < 2 ^ (ez + 149)) by (apply Z.pow_pos_nonneg; lia).
      destruct zi as [|p|p]; cbn [binary_normalize].
      * exact I.
      * destruct (binary_round_upper false p ez Hez)
          as (mf & ef & Hcan & Hup & ->).
        destruct mf as [|q|q]; [exact I| |destruct Hcan as (_ & ? & _); lia].
        assert (Hle : 2 ^ 24 * (Z.pos q * 2 ^ (ef + 149)) <= B').
        { rewrite <- Hz in Hup.
          apply Z.mul_le_mono_pos_l with (p := 2 ^ 24); [lia|].
          eapply Z.le_trans; [|exact Hstep].
          eapply Z.le_trans;
            [apply Z.mul_le_mono_nonneg_l; [lia | exact Hup]|].
          nia. }
        destruct Hcan as (Hef & Hq24 & Hq23).
        destruct (ef <=? 104) eqn:E.
        -- cbn [within F32.units]. split; [exact Hef | lia].
        -- apply Z.leb_gt in E. specialize (Hq23 ltac:(lia)).
           assert (2 ^ 254 <= 2 ^ (ef + 149))
             by (apply Z.pow_le_mono_r; lia).
           assert (2 ^ 23 * 2 ^ 254 <= Z.pos q * 2 ^ (ef + 149)) by nia.
           change (2 ^ 23 * 2 ^ 254) with (2 ^ 277) in *.
           assert (2 ^ 24 * 2 ^ 277 <= B') by lia.
           change (2 ^ 24 * 2 ^ 277) with (2 ^ 301) in *.
           assert (2 ^ 300 < 2 ^ 301) by (apply Z.pow_lt_mono_r; lia).
           lia.
      * destruct (binary_round_upper true p ez Hez)
          as (mf & ef & Hcan & Hup & ->).
        destruct mf as [|q|q]; [exact I| |destruct Hcan as (_ & ? & _); lia].
        destruct Hcan as (Hef & _).
        destruct (ef <=? 104); [|reflexivity].
        cbn [within F32.units]. split; [exact Hef|].
        assert (0 < 2 ^ (ef + 149)) by (apply Z.pow_pos_nonneg; lia).
        nia.
Qed.

(** *** Numbers and their order *)

Lemma number_canonic (s : bool) (m : positive) (e : Z) :
  F32.number (S754_finite s m e) = true -> canonic (Z.pos m) e /\ e <= 104.
Proof.
  unfold F32.number, bounded, canonical_mantissa.
  rewrite andb_true_iff, Z.eqb_eq, Z.leb_le, fexp32.
  change (F32.emax - F32.prec) with 104. intros [Hc He].
  destruct (digits2_bounds m) as [Dlo Dhi].
  pose proof (Pos2Z.is_pos (digits2_pos m)) as Hd.
  split; [|exact He]. unfold canonic. split; [lia|]. split.
  - split; [lia|].
    assert (2 ^ Z.pos (digits2_pos m) <= 2 ^ 24)
      by (apply Z.pow_le_mono_r; lia).
    lia.
  - intros Hlt.
    replace 23 with (Z.pos (digits2_pos m) - 1) by lia. exact Dlo.
Qed.

(** Among canonical positive numbers the larger exponent wins. *)
Lemma canonic_exponent_lt (m1 e1 m2 e2 : Z) :
  canonic m1 e1 -> canonic m2 e2 -> e1 < e2 ->
  m1 * 2 ^ (e1 + 149) < m2 * 2 ^ (e2 + 149).
Proof.
  intros (He1 & Hm1 & _) (He2 & Hm2 & Hn2) Hlt.
  specialize (Hn2 ltac:(lia)).
  assert (Hp : 0 < 2 ^ (e1 + 149)) by (apply Z.pow_pos_nonneg; lia).
  assert (Hq : 2 * 2 ^ (e1 + 149) <= 2 ^ (e2 + 149)).
  { rewrite <- Z.pow_succ_r by lia. apply Z.pow_le_mono_r; lia. }
  change (2 ^ 24) with 16777216 in *. change (2 ^ 23) with 8388608 in *.
  nia.
Qed.

(** [a > m] is false exactly when [a] holds no more units than [m], for a
    positive [a] and a non-negative [m]. *)
Lemma gt_false_units (ma : positive) (ea : Z) (m : F32.t) :
  canonic (Z.pos ma) ea ->
  F32.number m = true -> F32.le F32.zero m = true ->
  (F32.gt (S754_finite false ma ea) m = false
   <-> F32.units (S754_finite false ma ea) <= F32.units m).
Proof.
  intros Ha Hm Hm0.
  assert (Hpa : 0 < 2 ^ (ea + 149))
    by (apply Z.pow_pos_nonneg; destruct Ha; lia).
  destruct m as [sm|sm| |sm mm em]; try discriminate.
  - cbn. split; [discriminate | lia].
  - destruct sm; [discriminate|].
    destruct (number_canonic _ _ _ Hm) as [Hc _].
    assert (Hpm : 0 < 2 ^ (em + 149))
      by (apply Z.pow_pos_nonneg; destruct Hc; lia).
    unfold F32.gt, SFltb, SFcompare, F32.units. rewrite !Z.mul_1_l.
    destruct (em ?= ea) eqn:E.
    + apply Z.compare_eq in E. subst em.
      rewrite Pos.compare_cont_spec. cbn [Pos.switch_Eq].
      destruct (mm ?= ma)%positive eqn:E2.
      * apply Pos.compare_eq in E2. subst. split; [lia | reflexivity].
      * change ((mm < ma)%positive) in E2.
        split; [discriminate|]. intros H. exfalso.
        assert (Z.pos mm < Z.pos ma) by lia. nia.
      * apply Pos.compare_gt_iff in E2.
        split; [|reflexivity]. intros _.
        assert (Z.pos ma < Z.pos mm) by lia. nia.
    + apply Z.compare_lt_iff in E.
      pose proof (canonic_exponent_lt _ _ _ _ Hc Ha E).
      split; [discriminate | lia].
    + apply Z.compare_gt_iff in E.
      pose proof (canonic_exponent_lt _ _ _ _ Ha Hc ltac:(lia)).
      split; [lia | reflexivity].
Qed.

(** A gap that the strict scan accepts holds no more units than
    [min_time]. *)
Lemma accepted_gap (g m : F32.t) :
  F32.number g = true -> F32.number m = true -> F32.le F32.zero m = true ->
  F32.gt g m = false ->
  gap_within (F32.units m) g /\ 0 <= F32.units m.
Proof.
  intros Hg Hm Hm0 Hgt.
  assert (H0 : 0 <= F32.units m).
  { destruct m as [sm|sm| |sm mm em]; try discriminate; cbn; try lia.
    destruct sm; [discriminate|].
    destruct (number_canonic _ _ _ Hm) as [(He & _) _].
    assert (0 < 2 ^ (em + 149)) by (apply Z.pow_pos_nonneg; lia). nia. }
  split; [|exact H0].
  destruct g as [sg|sg| |sg mg eg]; try discriminate; [exact I|].
  destruct (number_canonic _ _ _ Hg) as [Hc _].
  cbn [gap_within]. split; [destruct Hc; lia|].
  destruct sg.
  - assert (0 < 2 ^ (eg + 149))
      by (apply Z.pow_pos_nonneg; destruct Hc; lia).
    cbn [F32.units]. nia.
  - apply (gt_false_units mg eg m Hc Hm Hm0). exact Hgt.
Qed.

Lemma le_units_bound (m : F32.t) :
  F32.number m = true -> F32.le F32.zero m = true ->
  F32.le m (F32.of_Z (2 ^ 100)) = true -> F32.units m <= 2 ^ 249.
Proof.
  intros Hm Hm0 Hle.
  change (F32.of_Z (2 ^ 100)) with (S754_finite false 8388608 77) in Hle.
  destruct m as [sm|sm| |sm mm em]; try discriminate.
  destruct sm; [discriminate|].
  destruct (number_canonic _ _ _ Hm) as [Hc _].
  assert (Hb : F32.number (S754_finite false 8388608 77) = true) by reflexivity.
  assert (Hb0 : F32.le F32.zero (S754_finite false 8388608 77) = true)
    by reflexivity.
  pose proof (gt_false_units mm em (S754_finite false 8388608 77) Hc Hb Hb0)
    as [H _].
  change (F32.units (S754_finite false 8388608 77)) with (2 ^ 249) in H.
  apply H.
  rewrite (le_not_gt (S754_finite false mm em) (S754_finite false 8388608 77)
             eq_refl eq_refl) in Hle.
  apply negb_true_iff in Hle. exact Hle.
Qed.

(** *** Division by a count *)

(** An integer below [2^24] converts exactly. *)
Lemma of_Z_exact (p : positive) :
  Z.pos p < 2 ^ 24 ->
  exists mn en,
    F32.of_Z (Z.pos p) = S754_finite false mn en
    /\ -23 <= en <= 0
    /\ Z.pos mn = Z.pos p * 2 ^ (- en)
    /\ Zdigits2 (Z.pos mn) = 24.
Proof.
  intros Hp. unfold F32.of_Z, binary_normalize, binary_round.
  destruct (shl_align_spec p 0
              (fexp F32.prec F32.emax (Z.pos (digits2_pos p) + 0)))
    as (k & Hk & Ek & Hm & Hs).
  destruct (shl_align p 0 _) as [mz ez]. cbn [fst snd] in Hm, Hs.
  change (Z.pos (digits2_pos p)) with (Zdigits2 (Z.pos p)) in Ek.
  rewrite fexp32 in Ek.
  assert (Hd : 1 <= Zdigits2 (Z.pos p) <= 24).
  { split; [simpl; lia|]. apply Zdigits2_le; lia. }
  assert (Hdz : Zdigits2 (Z.pos mz) = 24)
    by (rewrite Hm, Zdigits2_shift by lia; lia).
  exists mz, ez. split.
  - rewrite (binary_round_aux_char false (Z.pos mz) ez loc_Exact
               (Build_shr_record (Z.pos mz) false false)
               (Build_shr_record (Z.pos mz) false false) ez ez).
    + cbn [shr_m].
      replace (ez <=? F32.emax - F32.prec) with true
        by (symmetry; apply Z.leb_le; change (F32.emax - F32.prec) with 104;
            lia).
      reflexivity.
    + apply shr_fexp_keep. rewrite Hdz, fexp32. lia.
    + cbn [shr_m loc_of_shr_record round_nearest_even].
      apply shr_fexp_keep. rewrite Hdz, fexp32. lia.
  - split; [lia|]. split; [|exact Hdz].
    rewrite Hm. f_equal. f_equal. lia.
Qed.

(** The round bit of a quotient is set only from half the divisor on. *)
Lemma new_location_above (q d r : Z) :
  0 < d -> 0 <= r < d ->
  shr_r (shr_record_of_loc q (new_location d r)) = true -> d <= 2 * r.
Proof.
  intros Hd Hr. unfold new_location, new_location_even, new_location_odd.
  destruct (Z.even d) eqn:Ev.
  - destruct (r =? 0); [discriminate|].
    destruct (Z.compare_spec (2 * r) d); cbn; intros; try lia; discriminate.
  - destruct (r =? 0); [discriminate|].
    destruct (Z.compare_spec (2 * r + 1) d); cbn; intros; try lia;
      discriminate.
Qed.

(** [a] units of size [T * E] stay below [U] when [a] units of size
    [T * d] stay below [N] and [N / d] units of size [E] stay below [U] *)
Lemma scaled_floor (a T d N E U : Z) :
  0 < d -> 0 <= E ->
  a * (T * d) <= N -> N * E <= d * U -> a * (T * E) <= U.
Proof.
  intros Hd HE H1 H2.
  apply Z.mul_le_mono_pos_r with (p := d); [exact Hd|].
  assert (a * (T * d) * E <= N * E)
    by (apply Z.mul_le_mono_nonneg_r; assumption).
  lia.
Qed.

(** The quotient that a division rounds: its integer part, the location
    of the rest, and enough digits for the rounding to normalise it. *)
Lemma div_core_spec (m1 m2 : positive) (e1 e2 : Z) :
  exists q e' l,
    SFdiv_core_binary F32.prec F32.emax (Z.pos m1) e1 (Z.pos m2) e2
    = (q, e', l)
    /\ 0 <= q
    /\ e' = Z.min (fexp F32.prec F32.emax
                     (Zdigits2 (Z.pos m1) + e1 - (Zdigits2 (Z.pos m2) + e2)))
              (e1 - e2)
    /\ above (Z.pos m1 * 2 ^ (e1 - e2 - e')) (Z.pos m2) (shr_record_of_loc q l)
    /\ e' <= fexp F32.prec F32.emax (Zdigits2 q + e').
Proof.
  unfold SFdiv_core_binary.
  set (d1 := Zdigits2 (Z.pos m1)). set (d2 := Zdigits2 (Z.pos m2)).
  set (e' := Z.min (fexp F32.prec F32.emax (d1 + e1 - (d2 + e2))) (e1 - e2)).
  set (sh := e1 - e2 - e').
  assert (Hsh : 0 <= sh) by (subst sh e'; lia).
  set (m' := match sh with
             | 0 => Z.pos m1
             | Z.pos _ => Z.shiftl (Z.pos m1) sh
             | Z.neg _ => 0
             end).
  assert (Hm' : m' = Z.pos m1 * 2 ^ sh).
  { subst m'. destruct sh eqn:E; [simpl; lia| |lia].
    rewrite Z.shiftl_mul_pow2 by lia. reflexivity. }
  pose proof (Z_div_mod m' (Z.pos m2) ltac:(lia)) as Hdm.
  destruct (Z.div_eucl m' (Z.pos m2)) as [q r]. destruct Hdm as [Hqr Hr].
  assert (Hpsh : 0 < 2 ^ sh) by (apply Z.pow_pos_nonneg; lia).
  assert (Hq0 : 0 <= q) by nia.
  exists q, e', (new_location (Z.pos m2) r).
  split; [reflexivity|]. split; [exact Hq0|]. split; [reflexivity|].
  change (e1 - e2 - e') with sh. rewrite <- Hm'. split.
  - unfold above.
    replace (shr_m (shr_record_of_loc q (new_location (Z.pos m2) r))) with q
      by (destruct (new_location (Z.pos m2) r) as [|[]]; reflexivity).
    split; [exact Hq0|]. split; [nia|].
    intros Hbit.
    pose proof (new_location_above q (Z.pos m2) r ltac:(lia) Hr Hbit). nia.
  - rewrite fexp32. destruct (Z_le_gt_dec e' (-149)) as [E|E]; [lia|].
    assert (Hsh24 : 24 + d2 - d1 <= sh).
    { subst sh e'. rewrite fexp32 in *. lia. }
    destruct (Zdigits2_bounds (Z.pos m1) ltac:(lia)) as [Dlo _]. fold d1 in Dlo.
    destruct (Zdigits2_bounds (Z.pos m2) ltac:(lia)) as [_ Dhi]. fold d2 in Dhi.
    assert (Hd1 : 1 <= d1) by (subst d1; simpl; lia).
    assert (Hd2 : 1 <= d2) by (subst d2; simpl; lia).
    set (T := 2 ^ d2) in *.
    assert (HT : 0 < T) by (apply Z.pow_pos_nonneg; lia).
    assert (HN : 2 ^ 23 * T <= m').
    { rewrite Hm'. subst T. rewrite <- Z.pow_add_r by lia.
      apply Z.le_trans with (2 ^ (d1 - 1) * 2 ^ sh).
      - rewrite <- Z.pow_add_r by lia. apply Z.pow_le_mono_r; lia.
      - apply Z.mul_le_mono_nonneg_r; lia. }
    assert (Hq23 : 2 ^ 23 <= q).
    { change (2 ^ 23) with 8388608 in *.
      destruct (Z_le_gt_dec 8388608 q) as [H|H]; [exact H|]. exfalso.
      assert ((q + 1) * Z.pos m2 <= 8388608 * Z.pos m2)
        by (apply Z.mul_le_mono_nonneg_r; lia).
      assert (8388608 * Z.pos m2 < 8388608 * T)
        by (apply Z.mul_lt_mono_pos_l; lia).
      lia. }
    pose proof (Zdigits2_ge q 24 Hq23 ltac:(lia)). lia.
Qed.

(** When the sum is at most [count * min_time], the average that the
    division computes is not above [min_time]. *)
Lemma div_not_above (ms : positive) (es : Z) (p : positive) (m : F32.t) :
  -149 <= es -> Z.pos p < 2 ^ 24 ->
  F32.number m = true -> F32.le F32.zero m = true ->
  F32.units (S754_finite false ms es) <= Z.pos p * F32.units m ->
  F32.gt (F32.div (S754_finite false ms es) (F32.of_Z (Z.pos p))) m = false.
Proof.
  intros Hes Hp Hm Hm0 Hle.
  destruct (of_Z_exact p Hp) as (mn & en & -> & Hen & Hmn & Hdn).
  assert (Hps : 0 < 2 ^ (es + 149)) by (apply Z.pow_pos_nonneg; lia).
  cbn [F32.units] in Hle. rewrite Z.mul_1_l in Hle.
  (* [min_time] is a positive number *)
  destruct m as [sm|sm| |sm mu eu]; try discriminate.
  { cbn [F32.units] in Hle. nia. }
  destruct sm; [discriminate|].
  destruct (number_canonic _ _ _ Hm) as [Hcu Heu].
  cbn [F32.units] in Hle. rewrite Z.mul_1_l in Hle.
  set (U := Z.pos mu * 2 ^ (eu + 149)) in *.
  (* the quotient and its location *)
  unfold F32.div, SFdiv.
  destruct (div_core_spec ms mn es en) as (q & e' & l & -> & Hq0 & Ee' & Ha & HNC).
  set (sh := es - en - e') in *.
  set (m' := Z.pos ms * 2 ^ sh) in *.
  assert (He' : -149 <= e') by (rewrite Ee', fexp32; lia).
  assert (Hsh : 0 <= sh) by (subst sh; lia).
  destruct (binary_round_aux_stages (xorb false false) q e' l m' (Z.pos mn)
              Hq0 ltac:(lia) HNC Ha)
    as (n & m1 & mr & mf & ef & Hn & Hm1 & Hm1' & Hfl & Hmr & Hnorm & Hef
        & Hval & Hcan & Hres).
  rewrite Hres. cbn [xorb].
  (* the value divided is at most [U] times the divisor *)
  assert (Hstar : m' * 2 ^ (e' + 149) <= Z.pos mn * U).
  { subst m'. rewrite Hmn.
    replace (Z.pos ms * 2 ^ sh * 2 ^ (e' + 149))
      with (Z.pos ms * 2 ^ (es + 149) * 2 ^ (- en)).
    - assert (0 < 2 ^ (- en)) by (apply Z.pow_pos_nonneg; lia).
      assert (Z.pos ms * 2 ^ (es + 149) * 2 ^ (- en)
              <= Z.pos p * U * 2 ^ (- en))
        by (apply Z.mul_le_mono_nonneg_r; lia).
      lia.
    - rewrite <- !Z.mul_assoc, <- !Z.pow_add_r by lia.
      f_equal. f_equal. subst sh. lia. }
  set (P := 2 ^ (e' + n + 149)).
  assert (HP : 0 < P) by (apply Z.pow_pos_nonneg; lia).
  assert (HPn : P = 2 ^ n * 2 ^ (e' + 149)).
  { subst P. rewrite <- Z.pow_add_r by lia. f_equal. lia. }
  assert (Hpn : 0 < 2 ^ n) by (apply Z.pow_pos_nonneg; lia).
  assert (Hpe : 0 < 2 ^ (e' + 149)) by (apply Z.pow_pos_nonneg; lia).
  assert (Hround : mr * P <= U).
  { destruct Hmr as [->|[-> Hup]].
    - rewrite HPn.
      apply (scaled_floor m1 (2 ^ n) (Z.pos mn) m' (2 ^ (e' + 149)) U);
        [lia | lia | exact Hfl | exact Hstar].
    - assert (Hhalf : (2 * m1 + 1) * P <= 2 * U).
      { rewrite HPn.
        apply (scaled_floor (2 * m1 + 1) (2 ^ n) (Z.pos mn) (2 * m')
                 (2 ^ (e' + 149)) (2 * U));
          [lia | lia | exact Hup | lia]. }
      destruct (Z_le_gt_dec (e' + n) eu) as [Hge|Hlt].
      + (* [U] is a multiple of [P] *)
        assert (HU : U = Z.pos mu * 2 ^ (eu - (e' + n)) * P).
        { subst U P. rewrite <- Z.mul_assoc, <- Z.pow_add_r by lia.
          f_equal. f_equal. lia. }
        set (K := Z.pos mu * 2 ^ (eu - (e' + n))) in *.
        assert (HK : 2 * m1 + 1 <= 2 * K).
        { apply (Z.mul_le_mono_pos_r _ _ P HP). lia. }
        rewrite HU. apply Z.mul_le_mono_nonneg_r; lia.
      + (* [U] has a smaller exponent, and is below [m1 * P] *)
        exfalso.
        specialize (Hnorm ltac:(destruct Hcu; lia)).
        destruct Hcu as (Heu0 & Hmu & _).
        assert (Hpow : 2 * 2 ^ (eu + 149) <= P).
        { subst P. rewrite <- Z.pow_succ_r by lia.
          apply Z.pow_le_mono_r; lia. }
        set (Q := 2 ^ (eu + 149)) in *.
        assert (HQ : 0 < Q) by (apply Z.pow_pos_nonneg; lia).
        change (2 ^ 24) with 16777216 in *. change (2 ^ 23) with 8388608 in *.
        assert (H1 : Z.pos mu * (2 * Q) < 16777216 * (2 * Q))
          by (apply Z.mul_lt_mono_pos_r; lia).
        assert (H2 : 16777216 * (2 * Q) <= 16777216 * P)
          by (apply Z.mul_le_mono_nonneg_l; lia).
        assert (H3 : 16777216 * P <= 2 * m1 * P)
          by (apply Z.mul_le_mono_nonneg_r; lia).
        subst U. lia. }
  assert (Hout : mf * 2 ^ (ef + 149) <= U).
  { replace (mf * 2 ^ (ef + 149)) with (mr * P); [exact Hround|].
    rewrite <- Hval. subst P. rewrite <- Z.mul_assoc, <- Z.pow_add_r by lia.
    f_equal. f_equal. lia. }
  destruct mf as [|qf|qf]; [reflexivity| |destruct Hcan as (_ & ? & _); lia].
  assert (Hef104 : ef <= 104).
  { destruct (Z_le_gt_dec ef eu) as [H|H]; [lia|].
    pose proof (canonic_exponent_lt _ _ _ _ Hcu Hcan ltac:(lia)).
    subst U. lia. }
  replace (ef <=? 104) with true by (symmetry; apply Z.leb_le; exact Hef104).
  apply (gt_false_units qf ef (S754_finite false mu eu) Hcan Hm Hm0).
  cbn [F32.units]. rewrite !Z.mul_1_l. exact Hout.
Qed.

(** *** The sum of the gaps *)

Lemma budget_step (k M : Z) :
  0 <= M <= 2 ^ 249 -> 0 <= k < 4096 ->
  0 <= budget (k + 1) M
  /\ budget k M <= budget (k + 1) M
  /\ 2 ^ 24 * M <= budget (k + 1) M
  /\ (2 ^ 24 + 1) * (budget k M + 2 ^ 24 * M) <= 2 ^ 24 * budget (k + 1) M
  /\ budget (k + 1) M < 2 ^ 300.
Proof.
  intros HM Hk. unfold budget.
  change (2 ^ 24) with 16777216.
  assert (H1 : 0 <= 16777216 * (k + 1) + (k + 1) * (k + 1 + 1)) by nia.
  assert (H2 : 16777216 * k + k * (k + 1)
               <= 16777216 * (k + 1) + (k + 1) * (k + 1 + 1)) by nia.
  assert (H3 : 16777216 <= 16777216 * (k + 1) + (k + 1) * (k + 1 + 1)) by nia.
  assert (H4 : (16777216 + 1) * (16777216 * k + k * (k + 1) + 16777216)
               <= 16777216 * (16777216 * (k + 1) + (k + 1) * (k + 1 + 1)))
    by nia.
  assert (H5 : 16777216 * (k + 1) + (k + 1) * (k + 1 + 1) <= 2 ^ 37).
  { change (2 ^ 37) with 137438953472. nia. }
  split; [apply Z.mul_nonneg_nonneg; lia|].
  split; [apply Z.mul_le_mono_nonneg_r; lia|].
  split; [apply Z.mul_le_mono_nonneg_r; lia|].
  split.
  - replace ((16777216 + 1) * ((16777216 * k + k * (k + 1)) * M + 16777216 * M))
      with ((16777216 + 1) * (16777216 * k + k * (k + 1) + 16777216) * M)
      by ring.
    rewrite Z.mul_assoc. apply Z.mul_le_mono_nonneg_r; lia.
  - apply Z.le_lt_trans with (2 ^ 37 * 2 ^ 249).
    + apply Z.mul_le_mono_nonneg; lia.
    + reflexivity.
Qed.

Lemma fsum_within (M : Z) (gs : list F32.t) (acc : F32.t) (k : Z) :
  0 <= M <= 2 ^ 249 -> 0 <= k -> k + Z.of_nat (length gs) <= 4096 ->
  List.Forall (gap_within M) gs ->
  within (budget k M) acc ->
  within (budget (k + Z.of_nat (length gs)) M) (TopicMonitor.fsum acc gs).
Proof.
  intros HM. revert acc k.
  induction gs as [|g gs IH]; intros acc k Hk Hlen Hgs Hacc.
  - simpl. rewrite Z.add_0_r. exact Hacc.
  - inversion Hgs as [|g' gs' Hg Hgs']; subst.
    change (TopicMonitor.fsum acc (g :: gs))
      with (TopicMonitor.fsum (F32.add acc g) gs).
    cbn [length] in *.
    replace (k + Z.of_nat (S (length gs)))
      with (k + 1 + Z.of_nat (length gs)) by lia.
    apply IH; [lia | lia | exact Hgs'|].
    destruct (budget_step k M HM ltac:(lia)) as (B1 & B2 & B3 & B4 & B5).
    apply (add_within (budget k M) M (budget (k + 1) M) acc g
             B1 B2 B3 B4 B5 Hacc Hg).
Qed.

(** A number not below zero is above no negative number, no zero and not
    above minus infinity. *)
Lemma gt_nonpositive (a m : F32.t) :
  F32.number m = true -> F32.le F32.zero m = true ->
  match a with
  | S754_zero _ => True
  | S754_infinity s | S754_finite s _ _ => s = true
  | S754_nan => False
  end ->
  F32.gt a m = false.
Proof.
  intros Hm Hm0 Ha.
  destruct m as [sm|sm| |sm mm em]; try discriminate;
    [|destruct sm; [discriminate|]];
    destruct a as [sa|sa| |sa ma ea]; try contradiction; try subst sa;
    reflexivity.
Qed.

(** When every gap is at most [m], so is the average that the pass
    computes, up to 4096 stamps. *)
Lemma average_not_above (m : F32.t) (gs : list F32.t) :
  (1 <= length gs <= 4095)%nat ->
  F32.number m = true -> F32.le F32.zero m = true ->
  F32.le m (F32.of_Z (2 ^ 100)) = true ->
  List.Forall (fun g => F32.number g = true) gs ->
  TopicMonitor.all_within m gs = true ->
  F32.gt
    (F32.div (TopicMonitor.fsum F32.zero gs)
       (F32.of_Z (Z.of_nat (S (length gs))))) m
  = false.
Proof.
  intros Hlen Hm Hm0 Hmax Hnum Hall.
  set (M := F32.units m).
  assert (HM : 0 <= M <= 2 ^ 249).
  { split; [|apply (le_units_bound m Hm Hm0 Hmax)].
    subst M. destruct m as [sm|sm| |sm mm em]; try discriminate.
    destruct sm; [discriminate|]. cbn [F32.units].
    destruct (number_canonic _ _ _ Hm) as [(He & _) _].
    assert (0 < 2 ^ (em + 149)) by (apply Z.pow_pos_nonneg; lia). nia. }
  assert (Hgs : List.Forall (gap_within M) gs).
  { apply all_within_Forall in Hall.
    rewrite List.Forall_forall in *. intros g Hg.
    apply (accepted_gap g m (Hnum g Hg) Hm Hm0 (Hall g Hg)). }
  pose proof (fsum_within M gs F32.zero 0 HM ltac:(lia) ltac:(lia) Hgs I)
    as Hsum.
  rewrite Z.add_0_l in Hsum.
  set (n := Z.of_nat (length gs)) in *.
  assert (Hn : 1 <= n <= 4095) by (subst n; lia).
  replace (Z.of_nat (S (length gs))) with (n + 1) by (subst n; lia).
  destruct (n + 1) as [|p|p] eqn:Ep; try lia.
  destruct (of_Z_exact p ltac:(change (2 ^ 24) with 16777216; lia))
    as (mn & en & Hof & _).
  destruct (TopicMonitor.fsum F32.zero gs) as [ss|ss| |ss ms es];
    cbn [within] in Hsum; try contradiction.
  - apply (gt_nonpositive _ m Hm Hm0). rewrite Hof. exact I.
  - apply (gt_nonpositive _ m Hm Hm0). rewrite Hof. subst ss. reflexivity.
  - destruct Hsum as [Hes Hsum].
    destruct ss.
    + apply (gt_nonpositive _ m Hm Hm0). rewrite Hof.
      pose proof (div_signed true false ms mn es en) as Hsg.
      destruct (F32.div _ _); cbn in Hsg; try contradiction; try exact I;
        exact Hsg.
    + apply (div_not_above ms es p m Hes
               ltac:(change (2 ^ 24) with 16777216; lia) Hm Hm0).
      fold M. rewrite <- Ep.
      unfold budget in Hsum. change (2 ^ 24) with 16777216 in Hsum.
      set (u := F32.units (S754_finite false ms es)) in *.
      assert (H1 : 16777216 * n + n * (n + 1) <= 16777216 * (n + 1)) by nia.
      assert (H2 : (16777216 * n + n * (n + 1)) * M
                   <= 16777216 * (n + 1) * M)
        by (apply Z.mul_le_mono_nonneg_r; lia).
      lia.
Qed.

(** *** What a rounding returns *)

Lemma proper_number (a : F32.t) : proper a -> F32.finite a = true -> F32.number a = true.
Proof. destruct a; simpl; intros H E; try discriminate; auto. Qed.

Lemma canonic_bounded (q : positive) (e : Z) :
  canonic (Z.pos q) e -> e <= 104 -> bounded F32.prec F32.emax q e = true.
Proof.
  intros (He & Hq & Hn) H104. unfold bounded, canonical_mantissa.
  rewrite andb_true_iff, Z.eqb_eq, Z.leb_le, fexp32.
  change (F32.emax - F32.prec) with 104. split; [|exact H104].
  change (Z.pos (digits2_pos q)) with (Zdigits2 (Z.pos q)).
  pose proof (Zdigits2_le (Z.pos q) 24 ltac:(lia) ltac:(lia)).
  destruct (Z.eq_dec e (-149)) as [->|Hne]; [lia|].
  pose proof (Zdigits2_ge (Z.pos q) 24 ltac:(apply Hn; lia) ltac:(lia)).
  lia.
Qed.

Lemma stages_proper (s : bool) (mf ef : Z) :
  canonic mf ef ->
  proper match mf with
         | 0 => S754_zero s
         | Z.pos p =>
             if ef <=? 104 then S754_finite s p ef else S754_infinity s
         | Z.neg _ => S754_nan
         end.
Proof.
  intros Hcan. destruct mf as [|q|q]; [exact I| |destruct Hcan as (_ & ? & _); lia].
  destruct (ef <=? 104) eqn:E; [|exact I].
  apply Z.leb_le in E. apply (canonic_bounded q ef Hcan E).
Qed.

Lemma binary_round_proper (s : bool) (p : positive) (e : Z) :
  proper (binary_round F32.prec F32.emax s p e).
Proof.
  unfold binary_round.
  destruct (shl_align_spec p e
              (fexp F32.prec F32.emax (Z.pos (digits2_pos p) + e)))
    as (k & Hk & Ek & Hm & Hs).
  destruct (shl_align p e _) as [mz ez]. cbn [fst snd] in Hm, Hs.
  change (Z.pos (digits2_pos p)) with (Zdigits2 (Z.pos p)) in Ek.
  rewrite fexp32 in Ek.
  assert (HNC : ez <= fexp F32.prec F32.emax (Zdigits2 (Z.pos mz) + ez)).
  { rewrite Hm, Zdigits2_shift, fexp32 by lia. lia. }
  assert (Ha : above (Z.pos mz) 1 (shr_record_of_loc (Z.pos mz) loc_Exact)).
  { unfold above. cbn. repeat split; first [lia | discriminate]. }
  destruct (binary_round_aux_stages s (Z.pos mz) ez loc_Exact (Z.pos mz) 1
              ltac:(lia) ltac:(lia) HNC Ha)
    as (n & m1 & mr & mf & ef & _ & _ & _ & _ & _ & _ & _ & _ & Hcan & ->).
  apply (stages_proper s mf ef Hcan).
Qed.

(** The conversion of a [double] is in canonical form. *)
Lemma of_double_number (d : F64.t) :
  F32.finite (F32.of_double d) = true -> F32.number (F32.of_double d) = true.
Proof.
  intros H. apply proper_number; [|exact H].
  destruct d as [s|s| |s m e]; try discriminate; [exact I|].
  apply binary_round_proper.
Qed.

Lemma div_proper (s1 s2 : bool) (m1 m2 : positive) (e1 e2 : Z) :
  proper (F32.div (S754_finite s1 m1 e1) (S754_finite s2 m2 e2)).
Proof.
  unfold F32.div, SFdiv.
  destruct (div_core_spec m1 m2 e1 e2) as (q & e' & l & -> & Hq0 & _ & Ha & HNC).
  destruct (binary_round_aux_stages (xorb s1 s2) q e' l _ (Z.pos m2)
              Hq0 ltac:(lia) HNC Ha)
    as (n & m1' & mr & mf & ef & _ & _ & _ & _ & _ & _ & _ & _ & Hcan & ->).
  apply (stages_proper _ mf ef Hcan).
Qed.

(** [1 / min_freq] is a number in canonical form whenever it lies between
    zero and a finite bound. *)
Lemma min_time_number (f bound : F32.t) :
  F32.le F32.zero (F32.div (F32.of_Z 1) f) = true ->
  F32.le (F32.div (F32.of_Z 1) f) bound = true ->
  F32.finite bound = true ->
  F32.number (F32.div (F32.of_Z 1) f) = true.
Proof.
  change (F32.of_Z 1) with (S754_finite false 8388608 (-23)).
  intros H0 Hb Hf. apply proper_number.
  - destruct f as [s|s| |s m e]; try (destruct s; discriminate);
      try discriminate; try exact I.
    apply div_proper.
  - destruct (F32.div _ f) as [s|s| |s m e]; try reflexivity;
      try discriminate.
    destruct s; [discriminate|].
    destruct bound; discriminate.
Qed.

(** Every gap is the conversion of a [double]. *)
Lemma gaps_converted {Time : Type} (toSec_diff : Time -> Time -> F64.t)
    (l : list Time) (g : F32.t) :
  In g (TopicMonitor.gaps toSec_diff l) -> exists d, g = F32.of_double d.
Proof.
  induction l as [|a [|b l] IH]; try contradiction.
  change (TopicMonitor.gaps toSec_diff (a :: b :: l))
    with (TopicMonitor.elapsed_time toSec_diff a b
          :: TopicMonitor.gaps toSec_diff (b :: l)).
  intros [<-|H]; [eexists; reflexivity | exact (IH H)].
Qed.

(** C9, amended.  For a log of at least two and at most 4096 stamps
    whose gaps are finite, and a [min_time_] that is a number between
    zero and [2^100]: when the strict pass sets [status_] to true, so does
    the averaging pass over the same log.  The rounding of each addition
    adds at most [2^-24] of the sum, which over at most 4095 gaps stays
    within the one [min_time_] that dividing by the number of stamps
    leaves spare.  The constructor sets [min_time_ = 1 / min_freq], which
    is not below zero whenever [min_freq > 0] and is a number whenever it
    is, besides, at most [2^100]; so the implication holds for every
    monitor that the constructor built with such a [min_freq], whatever
    stamps of that kind it has logged. *)
Theorem C9_strict_implies_average :
  (forall (Time : Type) (toSec_diff : Time -> Time -> F64.t)
          (x : TopicMonitor.t Time),
      (2 <= length (TopicMonitor.stamps_ x) <= 4096)%nat ->
      F32.number (TopicMonitor.min_time_ x) = true ->
      F32.le F32.zero (TopicMonitor.min_time_ x) = true ->
      F32.le (TopicMonitor.min_time_ x) (F32.of_Z (2 ^ 100)) = true ->
      List.Forall (fun g => F32.finite g = true)
        (TopicMonitor.gaps toSec_diff (TopicMonitor.stamps_ x)) ->
      TopicMonitor.status_
        (TopicMonitor.run_cycle toSec_diff
           (TopicMonitor.set_use_average false x))
      = true ->
      TopicMonitor.status_
        (TopicMonitor.run_cycle toSec_diff
           (TopicMonitor.set_use_average true x))
      = true)
  /\ (forall (Time : Type) status0 name topic_name min_freq use_average rate,
         F32.gt min_freq F32.zero = true ->
         let m := TopicMonitor.min_time_
                    (TopicMonitor.new Time status0 name topic_name min_freq
                       use_average rate) in
         m = F32.div (F32.of_Z 1) min_freq
         /\ F32.le F32.zero m = true
         /\ (F32.le m (F32.of_Z (2 ^ 100)) = true -> F32.number m = true))
  /\ (forall (Time : Type) (toSec_diff : Time -> Time -> F64.t)
             status0 name topic_name min_freq rate (log : list Time),
         (2 <= length log <= 4096)%nat ->
         F32.gt min_freq F32.zero = true ->
         F32.le (F32.div (F32.of_Z 1) min_freq) (F32.of_Z (2 ^ 100)) = true ->
         List.Forall (fun g => F32.finite g = true)
           (TopicMonitor.gaps toSec_diff log) ->
         let x use_average :=
           TopicMonitor.arrivals log
             (TopicMonitor.new Time status0 name topic_name min_freq
                use_average rate) in
         TopicMonitor.status_ (TopicMonitor.run_cycle toSec_diff (x false))
         = true ->
         TopicMonitor.status_ (TopicMonitor.run_cycle toSec_diff (x true))
         = true).
Proof.
  assert (G : forall (Time : Type) (toSec_diff : Time -> Time -> F64.t)
                     (x : TopicMonitor.t Time),
             (2 <= length (TopicMonitor.stamps_ x) <= 4096)%nat ->
             F32.number (TopicMonitor.min_time_ x) = true ->
             F32.le F32.zero (TopicMonitor.min_time_ x) = true ->
             F32.le (TopicMonitor.min_time_ x) (F32.of_Z (2 ^ 100)) = true ->
             List.Forall (fun g => F32.finite g = true)
               (TopicMonitor.gaps toSec_diff (TopicMonitor.stamps_ x)) ->
             TopicMonitor.status_
               (TopicMonitor.run_cycle toSec_diff
                  (TopicMonitor.set_use_average false x))
             = true ->
             TopicMonitor.status_
               (TopicMonitor.run_cycle toSec_diff
                  (TopicMonitor.set_use_average true x))
             = true);
    [|split; [exact G|split]].
  - intros Time toSec_diff x Hlen Hm Hm0 Hmax Hgs.
    rewrite !status_run_cycle.
    assert (Hlen' : forall u,
               (2 <= length (TopicMonitor.stamps_
                               (TopicMonitor.set_use_average u x)))%nat)
      by (intros u; simpl; lia).
    rewrite (verdict_strict toSec_diff
               (TopicMonitor.set_use_average false x) eq_refl (Hlen' false)).
    rewrite (verdict_average toSec_diff
               (TopicMonitor.set_use_average true x) eq_refl (Hlen' true)).
    simpl TopicMonitor.stamps_. simpl TopicMonitor.min_time_.
    intros Hall. apply negb_true_iff.
    unfold TopicMonitor.average_time_elapsed.
    pose proof (length_gaps toSec_diff (TopicMonitor.stamps_ x)) as Hlg.
    replace (length (TopicMonitor.stamps_ x))
      with (S (length (TopicMonitor.gaps toSec_diff (TopicMonitor.stamps_ x))))
      by lia.
    apply average_not_above; try assumption; [lia|].
    rewrite List.Forall_forall in *. intros g Hg.
    destruct (gaps_converted toSec_diff _ g Hg) as [d ->].
    apply of_double_number. apply (Hgs _ Hg).
  - intros Time status0 name topic_name min_freq use_average rate Hf m.
    split; [reflexivity|].
    pose proof (min_time_nonneg min_freq Hf) as H0.
    split; [exact H0|].
    intros Hb. apply (min_time_number min_freq _ H0 Hb). reflexivity.
  - intros Time toSec_diff status0 name topic_name min_freq rate log Hlen Hf
      Hb Hgs x.
    pose proof (min_time_nonneg min_freq Hf) as H0.
    assert (Hx : forall u,
               x u = TopicMonitor.set_use_average u
                       (TopicMonitor.set_stamps log
                          (TopicMonitor.new Time status0 name topic_name
                             min_freq false rate)))
      by (intros u; subst x; cbv beta; rewrite arrivals_spec; reflexivity).
    rewrite !Hx.
    apply (G Time toSec_diff); try assumption.
    apply (min_time_number min_freq _ H0 Hb). reflexivity.
Qed.

Lemma C9_strict_implies_average_witness :
  TopicMonitor.status_
    (TopicMonitor.run_cycle Ros.toSec_diff
       (TopicMonitor.set_use_average true
          (TopicMonitor.arrivals [Ros.ms 0; Ros.ms 50; Ros.ms 110]
             (lidar false))))
  = true
  /\ TopicMonitor.status_
       (TopicMonitor.run_cycle Ros.toSec_diff
          (TopicMonitor.arrivals (every_ms (Z.to_nat 4096)) (imu false true)))
     = true.
Proof.
  split.
  - apply (proj1 C9_strict_implies_average Ros.Time Ros.toSec_diff
             (TopicMonitor.arrivals [Ros.ms 0; Ros.ms 50; Ros.ms 110]
                (lidar false))).
    + simpl. lia.
    + reflexivity.
    + reflexivity.
    + reflexivity.
    + vm_compute. repeat constructor.
    + reflexivity.
  - assert (Hlen : length (every_ms (Z.to_nat 4096)) = Z.to_nat 4096)
      by (unfold every_ms; rewrite length_map, length_seq; reflexivity).
    assert (Hgaps : TopicMonitor.gaps Ros.toSec_diff (every_ms (Z.to_nat 4096))
                    = repeat gap_1ms (Z.to_nat 4095))
      by (unfold every_ms; rewrite gaps_every_ms; reflexivity).
    apply (proj2 (proj2 C9_strict_implies_average) Ros.Time Ros.toSec_diff
             false "imu" "/imu/data" (F32.of_Z 1000) (ratio 1 12)
             (every_ms (Z.to_nat 4096))).
    + rewrite Hlen. lia.
    + reflexivity.
    + vm_compute. reflexivity.
    + rewrite Hgaps. apply List.Forall_forall. intros g Hg.
      apply repeat_spec in Hg. subst g. reflexivity.
    + assert (Hlen2 : (2 <= length (every_ms (Z.to_nat 4096)))%nat)
        by (rewrite Hlen; lia).
      change (TopicMonitor.new Ros.Time false "imu" "/imu/data"
                (F32.of_Z 1000) false (ratio 1 12))
        with (imu false false).
      rewrite arrivals_spec.
      change (TopicMonitor.stamps_ (imu false false)
              ++ every_ms (Z.to_nat 4096))
        with (every_ms (Z.to_nat 4096)).
      rewrite status_run_cycle.
      rewrite (verdict_strict Ros.toSec_diff
                 (TopicMonitor.set_stamps (every_ms (Z.to_nat 4096))
                    (imu false false)) eq_refl Hlen2).
      change (TopicMonitor.stamps_
                (TopicMonitor.set_stamps (every_ms (Z.to_nat 4096))
                   (imu false false)))
        with (every_ms (Z.to_nat 4096)).
      rewrite Hgaps. apply all_within_repeat. reflexivity.
Defined.

(** C10.  Averaging mode, a log of exactly two stamps with gap [g], [g] a
    zero or a normal [float] and [min_time_] a normal [float], a zero or an
    infinity: the pass sets [status_] to true if and only if
    [g <= 2 * min_time_].  When [min_time_ = 1 / min_freq] for a
    [min_freq] below [2^126], [2 * min_time_] is [2 / min_freq].  The
    channel "odom" requires 10 Hz; two stamps 200 ms apart, the rate of
    5 Hz, give a gap of the [float] 0.2 and [status_] true. *)
Theorem C10_two_stamps_average :
  (forall (Time : Type) (toSec_diff : Time -> Time -> F64.t)
          (x : TopicMonitor.t Time) (a b : Time),
      TopicMonitor.use_average_ x = true ->
      TopicMonitor.stamps_ x = [a; b] ->
      F32.halvable (TopicMonitor.elapsed_time toSec_diff a b) = true ->
      F32.regular (TopicMonitor.min_time_ x) = true ->
      let g := TopicMonitor.elapsed_time toSec_diff a b in
      let s := TopicMonitor.status_ (TopicMonitor.run_cycle toSec_diff x) in
      (s = true
       <-> F32.le g (F32.mul (F32.of_Z 2) (TopicMonitor.min_time_ x)) = true)
      /\ s = negb (F32.gt (F32.div (F32.add F32.zero g) (F32.of_Z 2))
                     (TopicMonitor.min_time_ x))
      /\ (TopicMonitor.min_time_ x
          = F32.div (F32.of_Z 1) (TopicMonitor.min_freq_ x) ->
          F32.invertible (TopicMonitor.min_freq_ x) = true ->
          F32.mul (F32.of_Z 2) (TopicMonitor.min_time_ x)
          = F32.div (F32.of_Z 2) (TopicMonitor.min_freq_ x)))
  /\ (forall status0 : bool,
         let x := TopicMonitor.arrivals odom_log (odom status0) in
         TopicMonitor.stamps_ x = odom_log
         /\ TopicMonitor.gaps Ros.toSec_diff odom_log = [ratio 2 10]
         /\ TopicMonitor.min_time_ x = ratio 1 10
         /\ F32.mul (F32.of_Z 2) (ratio 1 10) = ratio 2 10
         /\ TopicMonitor.status_ (TopicMonitor.run_cycle Ros.toSec_diff x)
            = true).
Proof.
  split.
  - intros Time toSec_diff x a b Hmode Hlog Hg Hm g s. subst s.
    assert (Hlen : (2 <= length (TopicMonitor.stamps_ x))%nat)
      by (rewrite Hlog; simpl; lia).
    rewrite status_run_cycle, (verdict_average toSec_diff x Hmode Hlen).
    rewrite Hlog. simpl TopicMonitor.gaps. simpl length.
    unfold TopicMonitor.average_time_elapsed, TopicMonitor.fsum.
    cbn [fold_left]. fold g. change (Z.of_nat 2) with 2.
    pose proof (half_vs_double g _ Hg Hm) as Heq.
    split; [rewrite Heq; reflexivity|]. split; [reflexivity|].
    intros E Hf. rewrite E in Hm |- *. apply (twice_min_time _ Hf Hm).
  - intros status0. vm_compute. repeat split; reflexivity.
Qed.

Lemma C10_two_stamps_average_witness :
  let x := TopicMonitor.arrivals odom_log (odom false) in
  TopicMonitor.status_ (TopicMonitor.run_cycle Ros.toSec_diff x) = true
  <-> F32.le (TopicMonitor.elapsed_time Ros.toSec_diff (Ros.ms 1000) (Ros.ms 1200))
        (F32.mul (F32.of_Z 2) (TopicMonitor.min_time_ x)) = true.
Proof.
  apply (proj1 C10_two_stamps_average Ros.Time Ros.toSec_diff
           (TopicMonitor.arrivals odom_log (odom false))
           (Ros.ms 1000) (Ros.ms 1200)); reflexivity.
Defined.

(** ** Further properties of a monitor *)

Lemma SFcompare_refl (a : spec_float) :
  F32.is_nan a = false -> SFcompare a a = Some Eq.
Proof.
  destruct a as [s|s| |s m e]; try discriminate; intros _; simpl.
  - reflexivity.
  - destruct s; reflexivity.
  - rewrite Z.compare_refl, Pos.compare_cont_refl. destruct s; reflexivity.
Qed.

Lemma last_cons {A : Type} (l : list A) (a d : A) :
  List.last (a :: l) d = List.last l a.
Proof.
  revert a d. induction l as [|b l IH]; intros a d; [reflexivity|].
  change (List.last (a :: b :: l) d) with (List.last (b :: l) d).
  rewrite (IH b d), (IH b a). reflexivity.
Qed.

Lemma last_retained {A : Type} (l : list A) (d : A) :
  List.last (TopicMonitor.retained l) d = List.last l d.
Proof.
  destruct l as [|a l]; [reflexivity|].
  simpl TopicMonitor.retained. rewrite (last_cons l a d). reflexivity.
Qed.

Lemma length_retained {A : Type} (l : list A) :
  (length (TopicMonitor.retained l) <= 1)%nat.
Proof. destruct l; simpl; lia. Qed.

Section TraceFacts.
Context {Time : Type}.
Variable toSec_diff : Time -> Time -> F64.t.

Lemma monitor_exec_app (tr1 tr2 : list (monitor_event Time))
    (x : TopicMonitor.t Time) :
  monitor_exec toSec_diff (tr1 ++ tr2) x
  = monitor_exec toSec_diff tr2 (monitor_exec toSec_diff tr1 x).
Proof. apply fold_left_app. Qed.

Lemma monitor_exec_arrivals (rs : list Time) (x : TopicMonitor.t Time) :
  monitor_exec toSec_diff (map Arrival rs) x = TopicMonitor.arrivals rs x.
Proof.
  revert x. induction rs as [|r rs IH]; intros x; [reflexivity|].
  simpl. apply IH.
Qed.

Lemma stamps_step (x : TopicMonitor.t Time) (e : monitor_event Time) :
  TopicMonitor.stamps_ (monitor_step toSec_diff x e)
  = match e with
    | Arrival r => TopicMonitor.stamps_ x ++ [r]
    | Pass => TopicMonitor.retained (TopicMonitor.stamps_ x)
    end.
Proof. destruct e; reflexivity. Qed.

Lemma last_exec (tr : list (monitor_event Time)) (x : TopicMonitor.t Time)
    (d : Time) :
  List.last (TopicMonitor.stamps_ (monitor_exec toSec_diff tr x)) d
  = List.last (receipts tr) (List.last (TopicMonitor.stamps_ x) d).
Proof.
  revert x. induction tr as [|e tr IH]; intros x; [reflexivity|].
  change (monitor_exec toSec_diff (e :: tr) x)
    with (monitor_exec toSec_diff tr (monitor_step toSec_diff x e)).
  rewrite IH, stamps_step. destruct e as [r|].
  - change (receipts (Arrival r :: tr)) with (r :: receipts tr).
    rewrite List.last_last, last_cons. reflexivity.
  - change (receipts (Pass :: tr)) with (receipts tr).
    rewrite last_retained. reflexivity.
Qed.

Lemma nonempty_exec (tr : list (monitor_event Time)) (x : TopicMonitor.t Time) :
  TopicMonitor.stamps_ x <> [] \/ receipts tr <> [] ->
  TopicMonitor.stamps_ (monitor_exec toSec_diff tr x) <> [].
Proof.
  revert x. induction tr as [|e tr IH]; intros x H.
  - destruct H as [H|H]; [exact H | now elim H].
  - change (monitor_exec toSec_diff (e :: tr) x)
      with (monitor_exec toSec_diff tr (monitor_step toSec_diff x e)).
    apply IH. rewrite stamps_step. destruct e as [r|].
    + left. destruct (TopicMonitor.stamps_ x); discriminate.
    + destruct H as [H|H]; [left | right; exact H].
      destruct (TopicMonitor.stamps_ x); [now elim H | discriminate].
Qed.
End TraceFacts.

(** X1. [TopicMonitor::topicCB] only appends: after the callbacks of a
    sequence of messages the log is the old log followed by the receipt
    times in their order of arrival, none lost, repeated or moved, and the
    verdict and the configuration are untouched. *)
Theorem X1_topicCB_appends (Time : Type) (l : list Time)
    (x : TopicMonitor.t Time) :
  let y := TopicMonitor.arrivals l x in
  TopicMonitor.stamps_ y = TopicMonitor.stamps_ x ++ l
  /\ length (TopicMonitor.stamps_ y)
     = (length (TopicMonitor.stamps_ x) + length l)%nat
  /\ TopicMonitor.status_ y = TopicMonitor.status_ x
  /\ TopicMonitor.min_time_ y = TopicMonitor.min_time_ x
  /\ TopicMonitor.use_average_ y = TopicMonitor.use_average_ x
  /\ TopicMonitor.name_ y = TopicMonitor.name_ x.
Proof.
  intros y. subst y. rewrite arrivals_spec. simpl.
  repeat split. apply length_app.
Qed.

(** X2. The monitoring loop runs at the smaller of [min_freq_] and
    [rate_]: when both are numbers, [run_freq] is one of the two and is
    [<=] each of them.  When [min_freq_] is NaN the test [min_freq_ < rate_]
    is false and [run_freq] is [rate_]. *)
Theorem X2_run_freq_is_minimum :
  (forall (Time : Type) (x : TopicMonitor.t Time),
      F32.is_nan (TopicMonitor.min_freq_ x) = false ->
      F32.is_nan (TopicMonitor.rate_ x) = false ->
      F32.le (run_freq x) (TopicMonitor.min_freq_ x) = true
      /\ F32.le (run_freq x) (TopicMonitor.rate_ x) = true
      /\ (run_freq x = TopicMonitor.min_freq_ x
          \/ run_freq x = TopicMonitor.rate_ x))
  /\ (forall (Time : Type) (x : TopicMonitor.t Time),
         F32.is_nan (TopicMonitor.min_freq_ x) = true ->
         run_freq x = TopicMonitor.rate_ x).
Proof.
  split.
  - intros Time x Hf Hr. unfold run_freq, F32.le, SFleb, SFltb.
    destruct (SFcompare_defined _ _ Hf Hr) as [c Hc].
    rewrite Hc. pose proof (SFcompare_swap _ _ _ Hc) as Hs.
    destruct c; simpl in Hs.
    + rewrite Hs, (SFcompare_refl _ Hr). auto.
    + rewrite Hc, (SFcompare_refl _ Hf). auto.
    + rewrite Hs, (SFcompare_refl _ Hr). auto.
  - intros Time x Hf. unfold run_freq, SFltb.
    destruct (TopicMonitor.min_freq_ x); try discriminate. reflexivity.
Qed.

Lemma X2_run_freq_is_minimum_witness :
  run_freq (imu false false) = ratio 1 12
  /\ F32.le (run_freq (imu false false)) (F32.of_Z 1000) = true.
Proof.
  destruct (proj1 X2_run_freq_is_minimum Ros.Time (imu false false))
    as [H1 [H2 _]]; try reflexivity.
  split; [reflexivity | exact H1].
Defined.

(** X3. Whatever arrivals and passes a monitor goes through, its
    configuration never changes: name, topic, [min_freq_], [use_average_],
    [rate_] and [min_time_] are those of the start.  For a monitor made by
    the constructor, [min_time_ = 1 / min_freq_] therefore holds in every
    state it reaches. *)
Theorem X3_configuration_is_invariant (Time : Type)
    (toSec_diff : Time -> Time -> F64.t) (tr : list (monitor_event Time)) :
  (forall x : TopicMonitor.t Time,
      let y := monitor_exec toSec_diff tr x in
      TopicMonitor.name_ y = TopicMonitor.name_ x
      /\ TopicMonitor.topic_name_ y = TopicMonitor.topic_name_ x
      /\ TopicMonitor.min_freq_ y = TopicMonitor.min_freq_ x
      /\ TopicMonitor.use_average_ y = TopicMonitor.use_average_ x
      /\ TopicMonitor.rate_ y = TopicMonitor.rate_ x
      /\ TopicMonitor.min_time_ y = TopicMonitor.min_time_ x)
  /\ (forall status0 name topic_name min_freq use_average rate,
         let y := monitor_exec toSec_diff tr
                    (TopicMonitor.new Time status0 name topic_name min_freq
                       use_average rate) in
         TopicMonitor.min_time_ y
         = F32.div (F32.of_Z 1) (TopicMonitor.min_freq_ y)).
Proof.
  assert (H : forall x : TopicMonitor.t Time,
             let y := monitor_exec toSec_diff tr x in
             TopicMonitor.name_ y = TopicMonitor.name_ x
             /\ TopicMonitor.topic_name_ y = TopicMonitor.topic_name_ x
             /\ TopicMonitor.min_freq_ y = TopicMonitor.min_freq_ x
             /\ TopicMonitor.use_average_ y = TopicMonitor.use_average_ x
             /\ TopicMonitor.rate_ y = TopicMonitor.rate_ x
             /\ TopicMonitor.min_time_ y = TopicMonitor.min_time_ x).
  { induction tr as [|e tr IH]; intros x; [repeat split|].
    change (monitor_exec toSec_diff (e :: tr) x)
      with (monitor_exec toSec_diff tr (monitor_step toSec_diff x e)).
    destruct (IH (monitor_step toSec_diff x e)) as (H1 & H2 & H3 & H4 & H5 & H6).
    cbv zeta. rewrite H1, H2, H3, H4, H5, H6.
    destruct e; repeat split. }
  split; [exact H|].
  intros status0 name topic_name min_freq use_average rate y. subst y.
  destruct (H (TopicMonitor.new Time status0 name topic_name min_freq
                 use_average rate)) as (_ & _ & H3 & _ & _ & H6).
  rewrite H3, H6. reflexivity.
Qed.

(** X4. Whatever passes took place in between, the log of a monitor ends
    with the receipt time of the most recent message; a log that has
    received a message is never empty again. *)
Theorem X4_log_ends_with_latest_arrival (Time : Type)
    (toSec_diff : Time -> Time -> F64.t) (tr : list (monitor_event Time))
    (x : TopicMonitor.t Time) (rs : list Time) (r : Time) :
  receipts tr = rs ++ [r] ->
  exists l, TopicMonitor.stamps_ (monitor_exec toSec_diff tr x) = l ++ [r].
Proof.
  intros Hr.
  assert (Hne : TopicMonitor.stamps_ (monitor_exec toSec_diff tr x) <> []).
  { apply nonempty_exec. right. rewrite Hr. destruct rs; discriminate. }
  exists (removelast (TopicMonitor.stamps_ (monitor_exec toSec_diff tr x))).
  rewrite (app_removelast_last r Hne) at 1.
  rewrite last_exec, Hr, List.last_last. reflexivity.
Qed.

Lemma X4_log_ends_with_latest_arrival_witness :
  exists l,
    TopicMonitor.stamps_
      (monitor_exec Ros.toSec_diff
         [Arrival (Ros.ms 0); Pass; Arrival (Ros.ms 50); Pass; Pass]
         (lidar false))
    = l ++ [Ros.ms 50].
Proof.
  apply (X4_log_ends_with_latest_arrival Ros.Time Ros.toSec_diff
           [Arrival (Ros.ms 0); Pass; Arrival (Ros.ms 50); Pass; Pass]
           (lidar false) [Ros.ms 0] (Ros.ms 50)).
  reflexivity.
Defined.

(** X5. A pass bounds the log: after a pass followed by the arrival of the
    messages [rs], the log is the stamp kept by the pass (none if the log
    was empty) followed by [rs], so it holds at most [1 + length rs]
    stamps, however long it was before the pass. *)
Theorem X5_log_is_bounded_by_a_pass (Time : Type)
    (toSec_diff : Time -> Time -> F64.t) (tr : list (monitor_event Time))
    (rs : list Time) (x : TopicMonitor.t Time) :
  let before := TopicMonitor.stamps_ (monitor_exec toSec_diff tr x) in
  let after :=
    TopicMonitor.stamps_
      (monitor_exec toSec_diff (tr ++ Pass :: map Arrival rs) x) in
  after = TopicMonitor.retained before ++ rs
  /\ (length after <= 1 + length rs)%nat.
Proof.
  intros before after. subst before after.
  rewrite monitor_exec_app.
  change (monitor_exec toSec_diff (Pass :: map Arrival rs) ?y)
    with (monitor_exec toSec_diff (map Arrival rs)
            (TopicMonitor.run_cycle toSec_diff y)).
  rewrite monitor_exec_arrivals, arrivals_spec. simpl TopicMonitor.stamps_.
  split; [reflexivity|].
  rewrite length_app.
  pose proof (length_retained
                (TopicMonitor.stamps_ (monitor_exec toSec_diff tr x))).
  lia.
Qed.

(** X6. Silence is detected: two passes with no arrival in between leave
    [status_] false, in either mode and whatever happened before; so does
    a pass that follows the very first message of an empty log. *)
Theorem X6_silence_is_unhealthy (Time : Type)
    (toSec_diff : Time -> Time -> F64.t) (tr : list (monitor_event Time))
    (x : TopicMonitor.t Time) (r : Time) :
  TopicMonitor.status_ (monitor_exec toSec_diff (tr ++ [Pass; Pass]) x) = false
  /\ TopicMonitor.status_
       (monitor_exec toSec_diff [Arrival r; Pass]
          (TopicMonitor.set_stamps [] x)) = false.
Proof.
  split; [|reflexivity].
  rewrite monitor_exec_app.
  apply (run_twice_stale toSec_diff (monitor_exec toSec_diff tr x)).
Qed.

(** X7. The gap across a pass is checked: when the log ends with [a], a
    pass keeps [a], and if exactly one message, received at [b], arrives
    before the next pass, that pass decides on the gap from [a] to [b]
    alone.  In strict mode [status_] is true unless the gap is
    [> min_time_]; in averaging mode unless half the gap is. *)
Theorem X7_gap_across_a_pass (Time : Type)
    (toSec_diff : Time -> Time -> F64.t) (x : TopicMonitor.t Time)
    (l : list Time) (a b : Time) :
  TopicMonitor.stamps_ x = l ++ [a] ->
  let y := monitor_exec toSec_diff [Pass; Arrival b; Pass] x in
  let g := TopicMonitor.elapsed_time toSec_diff a b in
  TopicMonitor.stamps_ y = [b]
  /\ TopicMonitor.status_ y
     = if TopicMonitor.use_average_ x
       then negb (F32.gt (F32.div (F32.add F32.zero g) (F32.of_Z 2))
                    (TopicMonitor.min_time_ x))
       else negb (F32.gt g (TopicMonitor.min_time_ x)).
Proof.
  intros Hlog y g. subst y.
  change (monitor_exec toSec_diff [Pass; Arrival b; Pass] x)
    with (TopicMonitor.run_cycle toSec_diff
            (TopicMonitor.topicCB b (TopicMonitor.run_cycle toSec_diff x))).
  set (z := TopicMonitor.topicCB b (TopicMonitor.run_cycle toSec_diff x)).
  assert (Hz : TopicMonitor.stamps_ z = [a; b]).
  { subst z. simpl. rewrite Hlog, retained_snoc. reflexivity. }
  split.
  - rewrite stamps_run_cycle, Hz. reflexivity.
  - rewrite status_run_cycle.
    assert (Hlen : (2 <= length (TopicMonitor.stamps_ z))%nat)
      by (rewrite Hz; simpl; lia).
    change (TopicMonitor.use_average_ x) with (TopicMonitor.use_average_ z).
    change (TopicMonitor.min_time_ x) with (TopicMonitor.min_time_ z).
    destruct (TopicMonitor.use_average_ z) eqn:Hmode.
    + rewrite (verdict_average toSec_diff z Hmode Hlen), Hz. reflexivity.
    + rewrite (verdict_strict toSec_diff z Hmode Hlen), Hz. simpl.
      rewrite andb_true_r. reflexivity.
Qed.

Lemma X7_gap_across_a_pass_witness :
  TopicMonitor.status_
    (monitor_exec Ros.toSec_diff [Pass; Arrival (Ros.ms 350); Pass]
       (TopicMonitor.arrivals lidar_log (lidar false)))
  = true.
Proof.
  destruct (X7_gap_across_a_pass Ros.Time Ros.toSec_diff
              (TopicMonitor.arrivals lidar_log (lidar false))
              [Ros.ms 0; Ros.ms 50; Ros.ms 110] (Ros.ms 300) (Ros.ms 350)
              eq_refl) as [_ H].
  rewrite H. reflexivity.
Defined.

Lemma gt_infinity (g : F32.t) : F32.gt g (S754_infinity false) = false.
Proof. destruct g as [s|s| |s m e]; try reflexivity; destruct s; reflexivity. Qed.

Lemma gt_nan (g : F32.t) : F32.gt g S754_nan = false.
Proof. reflexivity. Qed.

(** A [min_time_] that no number exceeds lets every log of two stamps or
    more pass, in both modes. *)
Lemma verdict_unbounded {Time : Type} (toSec_diff : Time -> Time -> F64.t)
    (x : TopicMonitor.t Time) :
  (forall g, F32.gt g (TopicMonitor.min_time_ x) = false) ->
  (2 <= length (TopicMonitor.stamps_ x))%nat ->
  TopicMonitor.verdict toSec_diff x = true.
Proof.
  intros Hm Hlen. destruct (TopicMonitor.use_average_ x) eqn:Hmode.
  - rewrite (verdict_average toSec_diff x Hmode Hlen), Hm. reflexivity.
  - rewrite (verdict_strict toSec_diff x Hmode Hlen).
    apply all_within_Forall. apply List.Forall_forall. intros g _. apply Hm.
Qed.

(** X8. A [min_freq] of zero or NaN switches the check off: the
    constructor computes [min_time_ = 1 / min_freq], which is [+inf] for
    [+0] and NaN for NaN, no gap and no average compares greater, and
    every pass over two stamps or more sets [status_] to true, in both
    modes and whatever the gaps. *)
Theorem X8_zero_min_freq_disables_the_check (Time : Type)
    (toSec_diff : Time -> Time -> F64.t) (status0 : bool)
    (name topic_name : string) (min_freq : F32.t) (use_average : bool)
    (rate : F32.t) (log : list Time) :
  min_freq = S754_zero false \/ min_freq = S754_nan ->
  (2 <= length log)%nat ->
  let x := TopicMonitor.new Time status0 name topic_name min_freq
             use_average rate in
  (TopicMonitor.min_time_ x = S754_infinity false
   \/ TopicMonitor.min_time_ x = S754_nan)
  /\ TopicMonitor.status_
       (TopicMonitor.run_cycle toSec_diff (TopicMonitor.arrivals log x))
     = true.
Proof.
  intros Hf Hlen x.
  assert (Hm : TopicMonitor.min_time_ x = S754_infinity false
               \/ TopicMonitor.min_time_ x = S754_nan)
    by (destruct Hf as [-> | ->]; [left | right]; reflexivity).
  split; [exact Hm|].
  rewrite status_run_cycle, arrivals_spec. apply verdict_unbounded.
  - intros g.
    change (F32.gt g (TopicMonitor.min_time_ x) = false).
    destruct Hm as [E | E]; rewrite E; [apply gt_infinity | apply gt_nan].
  - simpl. exact Hlen.
Qed.

Lemma X8_zero_min_freq_disables_the_check_witness :
  TopicMonitor.status_
    (TopicMonitor.run_cycle Ros.toSec_diff
       (TopicMonitor.arrivals [Ros.ms 0; Ros.ms 60000]
          (TopicMonitor.new Ros.Time false "lidar" "/scan" (S754_zero false)
             false (F32.of_Z 10))))
  = true.
Proof.
  apply (X8_zero_min_freq_disables_the_check Ros.Time Ros.toSec_diff false
           "lidar" "/scan" (S754_zero false) false (F32.of_Z 10)
           [Ros.ms 0; Ros.ms 60000]).
  - left. reflexivity.
  - simpl. lia.
Defined.

Lemma not_gt_across_zero (g m : F32.t) :
  F32.le g F32.zero = true -> F32.le F32.zero m = true -> F32.gt g m = false.
Proof.
  destruct g as [sg|sg| |sg mg eg], m as [sm|sm| |sm mm em];
    try discriminate; try reflexivity;
    try destruct sg; try destruct sm; try discriminate; reflexivity.
Qed.

(** X9. Receipt times are not checked for order: in strict mode, with
    [min_time_ >= 0], a log whose stamps never advance (every gap zero or
    negative) is judged healthy. *)
Theorem X9_stamps_that_do_not_advance_pass (Time : Type)
    (toSec_diff : Time -> Time -> F64.t) (x : TopicMonitor.t Time) :
  TopicMonitor.use_average_ x = false ->
  (2 <= length (TopicMonitor.stamps_ x))%nat ->
  F32.le F32.zero (TopicMonitor.min_time_ x) = true ->
  List.Forall (fun g => F32.le g F32.zero = true)
    (TopicMonitor.gaps toSec_diff (TopicMonitor.stamps_ x)) ->
  TopicMonitor.status_ (TopicMonitor.run_cycle toSec_diff x) = true.
Proof.
  intros Hmode Hlen Hm Hgs.
  rewrite status_run_cycle, (verdict_strict toSec_diff x Hmode Hlen).
  apply all_within_Forall. apply List.Forall_forall. intros g Hg.
  rewrite List.Forall_forall in Hgs.
  apply (not_gt_across_zero g _ (Hgs g Hg) Hm).
Qed.

Lemma X9_stamps_that_do_not_advance_pass_witness :
  TopicMonitor.status_
    (TopicMonitor.run_cycle Ros.toSec_diff
       (TopicMonitor.arrivals [Ros.ms 300; Ros.ms 300; Ros.ms 110]
          (lidar false)))
  = true.
Proof.
  apply (X9_stamps_that_do_not_advance_pass Ros.Time Ros.toSec_diff
           (TopicMonitor.arrivals [Ros.ms 300; Ros.ms 300; Ros.ms 110]
              (lidar false))).
  - reflexivity.
  - simpl. lia.
  - reflexivity.
  - vm_compute. repeat constructor.
Defined.

(** ** Further properties of the node *)

Section PassFacts.
Context {Time : Type}.

Lemma set_status_set_status (a b : bool) (w : ZeusWatchdog.t Time) :
  ZeusWatchdog.set_status a (ZeusWatchdog.set_status b w)
  = ZeusWatchdog.set_status a w.
Proof. reflexivity. Qed.

(** While the monitors visited so far all report true the turns leave
    [status_] as it is; from the first one that reports false on,
    [status_] is false. *)
Lemma visits_spec (l : list (TopicMonitor.t Time))
    (w : ZeusWatchdog.t Time) (arr : list TopicStatus) :
  fold_left pass_visit l (w, arr)
  = (if forallb TopicMonitor.getStatus l then w
     else ZeusWatchdog.set_status false w,
     arr ++ map ZeusWatchdog.report l).
Proof.
  revert w arr. induction l as [|m l IH]; intros w arr.
  - simpl. rewrite app_nil_r. reflexivity.
  - change (fold_left pass_visit (m :: l) (w, arr))
      with (fold_left pass_visit l (pass_visit (w, arr) m)).
    unfold pass_visit at 2. simpl fst. simpl snd.
    rewrite IH, <- app_assoc. simpl forallb. simpl map.
    change {| ts_name := TopicMonitor.getName m;
              ts_status := TopicMonitor.getStatus m |}
      with (ZeusWatchdog.report m).
    generalize (ZeusWatchdog.report m). intros r.
    destruct (TopicMonitor.getStatus m); simpl.
    + reflexivity.
    + rewrite set_status_set_status.
      destruct (forallb TopicMonitor.getStatus l); reflexivity.
Qed.

Lemma commands_spec (msgs : list geometry_msgs.Twist)
    (w : ZeusWatchdog.t Time) :
  commands msgs w
  = ZeusWatchdog.mk Time
      (ZeusWatchdog.nb_of_topics_ w) (ZeusWatchdog.rate_ w)
      (ZeusWatchdog.topic_list_ w) (ZeusWatchdog.status_ w)
      (ZeusWatchdog.cmd_vel_pub_ w
       ++ map (fun msg => if ZeusWatchdog.status_ w then msg
                          else geometry_msgs.Twist_new) msgs)
      (ZeusWatchdog.status_pub_ w) (ZeusWatchdog.info_pub_ w)
      (ZeusWatchdog.ros_fatal w) (ZeusWatchdog.ros_info w).
Proof.
  revert w. induction msgs as [|msg msgs IH]; intros w.
  - destruct w. simpl. rewrite app_nil_r. reflexivity.
  - change (commands (msg :: msgs) w)
      with (commands msgs (ZeusWatchdog.cmdVelCB msg w)).
    rewrite IH. unfold ZeusWatchdog.cmdVelCB.
    destruct (ZeusWatchdog.status_ w) eqn:E; simpl; rewrite E, <- app_assoc;
      reflexivity.
Qed.
End PassFacts.

(** X10. A pass of [ZeusWatchdog::run] writes the member [status_] that
    [cmdVelCB] reads: it first sets it to true and clears it only when the
    loop reaches a monitor that reports false.  The pass is the sequence
    reset, one turn per monitor, publish.  A command handled after the
    reset, while the monitors visited so far ([l1]) all report true, is
    forwarded unchanged, although a later monitor ([l2]) reports false and
    whatever [status_] was before the pass. *)
Theorem X10_gate_opens_during_a_pass :
  (forall (Time : Type) (now : Time) (w : ZeusWatchdog.t Time),
      ZeusWatchdog.run_cycle now w
      = pass_publish now
          (fold_left pass_visit (ZeusWatchdog.topic_list_ w) (pass_reset w)))
  /\ (forall (Time : Type) (w : ZeusWatchdog.t Time)
             (l1 l2 : list (TopicMonitor.t Time)) (msg : geometry_msgs.Twist),
         ZeusWatchdog.topic_list_ w = l1 ++ l2 ->
         forallb TopicMonitor.getStatus l1 = true ->
         ZeusWatchdog.cmd_vel_pub_
           (ZeusWatchdog.cmdVelCB msg
              (fst (fold_left pass_visit l1 (pass_reset w))))
         = ZeusWatchdog.cmd_vel_pub_ w ++ [msg]).
Proof.
  split.
  - intros Time now w. unfold pass_reset, ZeusWatchdog.run_cycle.
    rewrite visits_spec, collect_spec. unfold pass_publish. simpl.
    destruct (forallb TopicMonitor.getStatus (ZeusWatchdog.topic_list_ w));
      reflexivity.
  - intros Time w l1 l2 msg _ Hl1. unfold pass_reset.
    rewrite visits_spec, Hl1. reflexivity.
Qed.

Lemma X10_gate_opens_during_a_pass_witness :
  let w := ZeusWatchdog.set_status false four_topics in
  ZeusWatchdog.status_pub_ (ZeusWatchdog.run_cycle (Ros.ms 0) w) = [false]
  /\ forall msg,
       ZeusWatchdog.cmd_vel_pub_
         (ZeusWatchdog.cmdVelCB msg
            (fst (fold_left pass_visit [lidar true; odom true]
                    (pass_reset w))))
       = [msg].
Proof.
  intros w. split; [reflexivity|]. intros msg.
  apply (proj2 X10_gate_opens_during_a_pass Ros.Time w
           [lidar true; odom true] [imu false false; imu true true] msg);
    reflexivity.
Defined.

(** X11. [cmdVelCB] is a synchronous gate: a burst of commands yields
    exactly one output per command, in the order received, and changes
    nothing else of the node.  After a pass of [run] the outputs are the
    commands themselves when every monitor reports true, and as many
    all-zero [Twist]s otherwise. *)
Theorem X11_one_output_per_command (Time : Type) (now : Time)
    (msgs : list geometry_msgs.Twist) (w : ZeusWatchdog.t Time) :
  ZeusWatchdog.cmd_vel_pub_ (commands msgs w)
  = ZeusWatchdog.cmd_vel_pub_ w
    ++ map (fun msg => if ZeusWatchdog.status_ w then msg
                       else geometry_msgs.Twist_new) msgs
  /\ length (ZeusWatchdog.cmd_vel_pub_ (commands msgs w))
     = (length (ZeusWatchdog.cmd_vel_pub_ w) + length msgs)%nat
  /\ ZeusWatchdog.status_ (commands msgs w) = ZeusWatchdog.status_ w
  /\ ZeusWatchdog.status_pub_ (commands msgs w) = ZeusWatchdog.status_pub_ w
  /\ ZeusWatchdog.info_pub_ (commands msgs w) = ZeusWatchdog.info_pub_ w
  /\ ZeusWatchdog.topic_list_ (commands msgs w) = ZeusWatchdog.topic_list_ w
  /\ ZeusWatchdog.cmd_vel_pub_ (commands msgs (ZeusWatchdog.run_cycle now w))
     = ZeusWatchdog.cmd_vel_pub_ w
       ++ (if forallb TopicMonitor.getStatus (ZeusWatchdog.topic_list_ w)
           then msgs
           else repeat geometry_msgs.Twist_new (length msgs)).
Proof.
  rewrite !commands_spec. simpl.
  repeat split.
  - rewrite length_app, length_map. reflexivity.
  - unfold ZeusWatchdog.run_cycle. rewrite collect_spec. simpl. f_equal.
    destruct (forallb TopicMonitor.getStatus (ZeusWatchdog.topic_list_ w)).
    + apply map_id.
    + induction msgs as [|msg msgs IH]; [reflexivity|].
      simpl. rewrite IH. reflexivity.
Qed.

Section CreationFacts.
Context {Time : Type}.
Variable ps : ZeusWatchdog.ParamServer.
Variable uninit : Z -> bool.

Lemma retrieve_topic_created (i : Z) (w : ZeusWatchdog.t Time) :
  ZeusWatchdog.retrieve_topic Time ps uninit i w
  = match created_monitor ps uninit i with
    | Some m => inr (ZeusWatchdog.push_topic Time m w)
    | None =>
        inl (ZeusWatchdog.log_fatal Time
               ("One or more parameter for " +:+ ZeusWatchdog.topic_id i
                +:+ " is missing") w)
    end.
Proof.
  unfold ZeusWatchdog.retrieve_topic, created_monitor.
  destruct (ZeusWatchdog.getParam_string ps _); [|reflexivity].
  destruct (ZeusWatchdog.getParam_string ps _); [|reflexivity].
  destruct (ZeusWatchdog.getParam_float ps _); [|reflexivity].
  destruct (ZeusWatchdog.getParam_bool ps _); [|reflexivity].
  destruct (ZeusWatchdog.getParam_float ps _); reflexivity.
Qed.

Lemma created_monitor_complete (i : Z) :
  ZeusWatchdog.topic_complete ps i = true ->
  exists name topic_name min_freq use_average monitoring_rate,
    ZeusWatchdog.getParam_string ps (ZeusWatchdog.topic_id i +:+ "/name")
    = Some name
    /\ ZeusWatchdog.getParam_string ps
         (ZeusWatchdog.topic_id i +:+ "/topic_name") = Some topic_name
    /\ ZeusWatchdog.getParam_float ps
         (ZeusWatchdog.topic_id i +:+ "/min_freq") = Some min_freq
    /\ ZeusWatchdog.getParam_bool ps
         (ZeusWatchdog.topic_id i +:+ "/use_average") = Some use_average
    /\ ZeusWatchdog.getParam_float ps
         (ZeusWatchdog.topic_id i +:+ "/monitoring_rate")
       = Some monitoring_rate
    /\ created_monitor (Time := Time) ps uninit i
       = Some (TopicMonitor.new Time (uninit i) name topic_name min_freq
                 use_average monitoring_rate).
Proof.
  unfold ZeusWatchdog.topic_complete, created_monitor.
  destruct (ZeusWatchdog.getParam_string ps _) as [name|];
    [|simpl; rewrite ?andb_false_r; discriminate].
  destruct (ZeusWatchdog.getParam_string ps _) as [topic_name|];
    [|simpl; rewrite ?andb_false_r; discriminate].
  destruct (ZeusWatchdog.getParam_float ps _) as [min_freq|];
    [|simpl; rewrite ?andb_false_r; discriminate].
  destruct (ZeusWatchdog.getParam_bool ps _) as [use_average|];
    [|simpl; rewrite ?andb_false_r; discriminate].
  destruct (ZeusWatchdog.getParam_float ps _) as [monitoring_rate|];
    [|simpl; rewrite ?andb_false_r; discriminate].
  intros _. exists name, topic_name, min_freq, use_average, monitoring_rate.
  repeat split.
Qed.

Lemma created_monitor_incomplete (i : Z) :
  ZeusWatchdog.topic_complete ps i = false ->
  created_monitor (Time := Time) ps uninit i = None.
Proof.
  intros H. destruct (created_monitor (Time := Time) ps uninit i) eqn:E;
    [|reflexivity].
  destruct (ZeusWatchdog.topic_complete ps i) eqn:Hc; [discriminate|].
  pose proof (retrieve_topic_incomplete ps uninit i
                (ZeusWatchdog.mk Time 0 F32.zero [] false [] [] [] [] []) Hc)
    as [line Hl].
  rewrite retrieve_topic_created, E in Hl. discriminate.
Qed.

Lemma created_monitors_nth (n : nat) (i : Z) (k : nat) :
  ZeusWatchdog.topics_complete ps n i = true -> (k < n)%nat ->
  nth_error (created_monitors (Time := Time) ps uninit n i) k
  = created_monitor ps uninit (i + Z.of_nat k)
  /\ ZeusWatchdog.topic_complete ps (i + Z.of_nat k) = true.
Proof.
  revert i k. induction n as [|n IH]; intros i k Hc Hk; [lia|].
  simpl in Hc. apply andb_true_iff in Hc. destruct Hc as [Hi Hrest].
  destruct (created_monitor_complete i Hi)
    as (name & topic & f & avg & r & _ & _ & _ & _ & _ & Hm).
  simpl created_monitors. rewrite Hm.
  destruct k as [|k].
  - simpl. rewrite Z.add_0_r. split; [symmetry; exact Hm | exact Hi].
  - simpl nth_error.
    replace (i + Z.of_nat (S k)) with (i + 1 + Z.of_nat k) by lia.
    apply IH; [exact Hrest | lia].
Qed.

Lemma created_monitors_length (n : nat) (i : Z) :
  ZeusWatchdog.topics_complete ps n i = true ->
  length (created_monitors (Time := Time) ps uninit n i) = n.
Proof.
  revert i. induction n as [|n IH]; intros i Hc; [reflexivity|].
  simpl in Hc. apply andb_true_iff in Hc. destruct Hc as [Hi Hrest].
  destruct (created_monitor_complete i Hi)
    as (name & topic & f & avg & r & _ & _ & _ & _ & _ & Hm).
  simpl. rewrite Hm. simpl. rewrite (IH _ Hrest). reflexivity.
Qed.

(** The topics before the first incomplete one, [k] of them. *)
Lemma created_monitors_prefix (n k : nat) (i : Z) :
  ZeusWatchdog.topics_complete ps k i = true ->
  ZeusWatchdog.topic_complete ps (i + Z.of_nat k) = false ->
  (k < n)%nat ->
  created_monitors (Time := Time) ps uninit n i
  = created_monitors ps uninit k i.
Proof.
  revert n i. induction k as [|k IH]; intros n i Hc Hk Hlt.
  - destruct n as [|n]; [lia|]. simpl.
    rewrite Z.add_0_r in Hk. rewrite (created_monitor_incomplete i Hk).
    reflexivity.
  - destruct n as [|n]; [lia|].
    simpl in Hc. apply andb_true_iff in Hc. destruct Hc as [Hi Hrest].
    destruct (created_monitor_complete i Hi)
      as (name & topic & f & avg & r & _ & _ & _ & _ & _ & Hm).
    simpl. rewrite Hm. f_equal. apply IH; [exact Hrest | | lia].
    replace (i + 1 + Z.of_nat k) with (i + Z.of_nat (S k)) by lia. exact Hk.
Qed.

(** When the first [k] topics from index [i] are complete and the next
    one, still within the bound, is not, the loop returns false: it has
    logged one fatal line and appended the monitors of those [k] topics,
    and nothing else of the node has changed. *)
Lemma retrieve_topics_returned (n k : nat) (i : Z) (w : ZeusWatchdog.t Time) :
  ZeusWatchdog.topics_complete ps k i = true ->
  ZeusWatchdog.topic_complete ps (i + Z.of_nat k) = false ->
  (k < n)%nat ->
  exists w',
    ZeusWatchdog.retrieve_topics Time ps uninit n i w
    = ZeusWatchdog.Returned false w'
    /\ ZeusWatchdog.ros_fatal w'
       = ZeusWatchdog.ros_fatal w
         ++ ["One or more parameter for "
             +:+ ZeusWatchdog.topic_id (i + Z.of_nat k) +:+ " is missing"]
    /\ ZeusWatchdog.topic_list_ w'
       = ZeusWatchdog.topic_list_ w ++ created_monitors ps uninit k i
    /\ ZeusWatchdog.nb_of_topics_ w' = ZeusWatchdog.nb_of_topics_ w
    /\ ZeusWatchdog.rate_ w' = ZeusWatchdog.rate_ w
    /\ ZeusWatchdog.ros_info w' = ZeusWatchdog.ros_info w
    /\ ZeusWatchdog.info_pub_ w' = ZeusWatchdog.info_pub_ w.
Proof.
  revert n i w. induction k as [|k IH]; intros n i w Hc Hk Hlt.
  - destruct n as [|n]; [lia|]. simpl.
    rewrite Z.add_0_r in *. rewrite retrieve_topic_created.
    rewrite (created_monitor_incomplete i Hk).
    eexists. split; [reflexivity|]. simpl. rewrite app_nil_r.
    repeat split.
  - destruct n as [|n]; [lia|].
    simpl in Hc. apply andb_true_iff in Hc. destruct Hc as [Hi Hrest].
    destruct (created_monitor_complete i Hi)
      as (name & topic & f & avg & r & _ & _ & _ & _ & _ & Hm).
    simpl. rewrite retrieve_topic_created, Hm.
    replace (i + Z.of_nat (S k)) with (i + 1 + Z.of_nat k) in * by lia.
    destruct (IH n (i + 1)
                (ZeusWatchdog.push_topic Time
                   (TopicMonitor.new Time (uninit i) name topic f avg r) w)
                Hrest Hk ltac:(lia))
      as (w' & E & H1 & H2 & H3 & H4 & H5 & H6).
    exists w'. split; [exact E|]. split; [exact H1|].
    split; [rewrite H2; simpl; rewrite <- app_assoc; reflexivity|].
    repeat split; assumption.
Qed.

(** The whole of [createTopicMonitors] on such a configuration. *)
Lemma createTopicMonitors_returned (nb : Z) (rate : F32.t) (k : nat)
    (w : ZeusWatchdog.t Time) :
  ZeusWatchdog.getParam_int ps "nb_of_topics" = Some nb ->
  ZeusWatchdog.getParam_float ps "rate" = Some rate ->
  ZeusWatchdog.topics_complete ps k 0 = true ->
  ZeusWatchdog.topic_complete ps (Z.of_nat k) = false ->
  (k < Z.to_nat nb)%nat ->
  exists w',
    ZeusWatchdog.createTopicMonitors Time ps uninit w
    = ZeusWatchdog.Returned false w'
    /\ ZeusWatchdog.ros_fatal w'
       = ZeusWatchdog.ros_fatal w
         ++ ["One or more parameter for "
             +:+ ZeusWatchdog.topic_id (Z.of_nat k) +:+ " is missing"]
    /\ ZeusWatchdog.topic_list_ w'
       = ZeusWatchdog.topic_list_ w ++ created_monitors ps uninit k 0
    /\ ZeusWatchdog.nb_of_topics_ w' = nb
    /\ ZeusWatchdog.rate_ w' = rate
    /\ ZeusWatchdog.ros_info w'
       = ZeusWatchdog.ros_info w
         ++ ["Monitoring " +:+ ZeusWatchdog.to_string nb +:+ " topics"]
    /\ ZeusWatchdog.info_pub_ w' = ZeusWatchdog.info_pub_ w.
Proof.
  intros Hnb Hrate Hc Hk Hlt.
  assert (Hk0 : ZeusWatchdog.topic_complete ps (0 + Z.of_nat k) = false)
    by (rewrite Z.add_0_l; exact Hk).
  unfold ZeusWatchdog.createTopicMonitors, ZeusWatchdog.global_parameters.
  rewrite Hnb, Hrate.
  match goal with
  | |- context [ZeusWatchdog.retrieve_topics Time ps uninit ?n 0 ?w0] =>
      destruct (retrieve_topics_returned n k 0 w0 Hc Hk0 Hlt)
        as (w' & E & H1 & H2 & H3 & H4 & H5 & H6)
  end.
  rewrite Z.add_0_l in H1.
  exists w'. split; [exact E|]. repeat split; assumption.
Qed.
End CreationFacts.

(** X12. The monitors kept after a failed initialisation.  When the first
    [k] topics are complete and topic [k+1], at most [nb_of_topics], is
    not, [createTopicMonitors] returns false having stored [nb_of_topics]
    and [rate], logged one "Monitoring" line and appended exactly [k]
    monitors, in the order of the topics: the monitor of topic [j+1] is
    constructed from the five parameters under ["topic_<j+1>/"], with an
    empty log. *)
Theorem X12_one_monitor_per_complete_topic (Time : Type)
    (ps : ZeusWatchdog.ParamServer) (uninit : Z -> bool)
    (w : ZeusWatchdog.t Time) (nb : Z) (rate : F32.t) (k : nat) :
  ZeusWatchdog.getParam_int ps "nb_of_topics" = Some nb ->
  ZeusWatchdog.getParam_float ps "rate" = Some rate ->
  ZeusWatchdog.topics_complete ps k 0 = true ->
  ZeusWatchdog.topic_complete ps (Z.of_nat k) = false ->
  (k < Z.to_nat nb)%nat ->
  exists w',
    ZeusWatchdog.createTopicMonitors Time ps uninit w
    = ZeusWatchdog.Returned false w'
    /\ ZeusWatchdog.getNbOfTopics w' = nb
    /\ ZeusWatchdog.rate_ w' = rate
    /\ ZeusWatchdog.ros_info w'
       = ZeusWatchdog.ros_info w
         ++ ["Monitoring " +:+ ZeusWatchdog.to_string nb +:+ " topics"]
    /\ length (ZeusWatchdog.topic_list_ w')
       = (length (ZeusWatchdog.topic_list_ w) + k)%nat
    /\ forall j : nat,
         (j < k)%nat ->
         exists name topic_name min_freq use_average monitoring_rate,
           ZeusWatchdog.getParam_string ps
             (ZeusWatchdog.topic_id (Z.of_nat j) +:+ "/name") = Some name
           /\ ZeusWatchdog.getParam_string ps
                (ZeusWatchdog.topic_id (Z.of_nat j) +:+ "/topic_name")
              = Some topic_name
           /\ ZeusWatchdog.getParam_float ps
                (ZeusWatchdog.topic_id (Z.of_nat j) +:+ "/min_freq")
              = Some min_freq
           /\ ZeusWatchdog.getParam_bool ps
                (ZeusWatchdog.topic_id (Z.of_nat j) +:+ "/use_average")
              = Some use_average
           /\ ZeusWatchdog.getParam_float ps
                (ZeusWatchdog.topic_id (Z.of_nat j) +:+ "/monitoring_rate")
              = Some monitoring_rate
           /\ nth_error (ZeusWatchdog.topic_list_ w')
                (length (ZeusWatchdog.topic_list_ w) + j)
              = Some (TopicMonitor.new Time (uninit (Z.of_nat j)) name
                        topic_name min_freq use_average monitoring_rate).
Proof.
  intros Hnb Hrate Hc Hk Hlt.
  destruct (createTopicMonitors_returned ps uninit nb rate k w
              Hnb Hrate Hc Hk Hlt)
    as (w' & E & _ & Hlist & H3 & H4 & H5 & _).
  exists w'. split; [exact E|].
  unfold ZeusWatchdog.getNbOfTopics.
  split; [exact H3|]. split; [exact H4|]. split; [exact H5|].
  rewrite Hlist. split.
  - rewrite length_app, (created_monitors_length ps uninit _ _ Hc). reflexivity.
  - intros j Hj.
    destruct (created_monitors_nth (Time := Time) ps uninit _ 0 j Hc Hj)
      as [Hn Hj'].
    rewrite Z.add_0_l in Hn, Hj'.
    destruct (created_monitor_complete (Time := Time) ps uninit _ Hj')
      as (name & topic & f & avg & rt & P1 & P2 & P3 & P4 & P5 & Hm).
    exists name, topic, f, avg, rt. repeat split; try assumption.
    rewrite nth_error_app2 by lia.
    replace (length (ZeusWatchdog.topic_list_ w) + j
             - length (ZeusWatchdog.topic_list_ w))%nat with j by lia.
    rewrite Hn. exact Hm.
Qed.

Lemma X12_one_monitor_per_complete_topic_witness :
  let w0 := ZeusWatchdog.mk Ros.Time 7 F32.zero [] false [] [] [] [] [] in
  exists w',
    ZeusWatchdog.createTopicMonitors Ros.Time
      (Ros.params second_topic_incomplete) (fun _ => true) w0
    = ZeusWatchdog.Returned false w'
    /\ ZeusWatchdog.getNbOfTopics w' = 3
    /\ ZeusWatchdog.topic_list_ w' = [lidar true].
Proof.
  intros w0.
  destruct (X12_one_monitor_per_complete_topic Ros.Time
              (Ros.params second_topic_incomplete)
              (fun _ => true) w0 3 (F32.of_Z 10) 1 eq_refl eq_refl eq_refl
              eq_refl ltac:(simpl; lia))
    as (w' & E & Hnb & _).
  exists w'. split; [exact E|]. split; [exact Hnb|].
  vm_compute in E. injection E as <-. reflexivity.
Defined.

(** X13. A missing parameter stops the initialisation half way.  When the
    first [k] topics are complete and topic [k+1] is not, with [k+1] at
    most [nb_of_topics], [createTopicMonitors] returns false after one
    fatal line naming ["topic_<k+1>"], but the [k] monitors constructed
    before stay in [topic_list_]: [main] goes on and the first pass of
    [run] reports on those [k] topics only. *)
Theorem X13_partial_initialisation (Time : Type)
    (ps : ZeusWatchdog.ParamServer) (uninit : Z -> bool)
    (nb : Z) (rate : F32.t) (k : nat)
    (nb0 : Z) (rate0 : F32.t) (status0 : bool) (now : Time) :
  ZeusWatchdog.getParam_int ps "nb_of_topics" = Some nb ->
  ZeusWatchdog.getParam_float ps "rate" = Some rate ->
  ZeusWatchdog.topics_complete ps k 0 = true ->
  ZeusWatchdog.topic_complete ps (Z.of_nat k) = false ->
  (k < Z.to_nat nb)%nat ->
  let w0 := ZeusWatchdog.mk Time nb0 rate0 [] status0 [] [] [] [] [] in
  exists w1 w,
    ZeusWatchdog.createTopicMonitors Time ps uninit w0
    = ZeusWatchdog.Returned false w1
    /\ ZeusWatchdog.ros_fatal w1
       = ["One or more parameter for "
          +:+ ZeusWatchdog.topic_id (Z.of_nat k) +:+ " is missing"]
    /\ ZeusWatchdog.topic_list_ w1 = created_monitors ps uninit k 0
    /\ length (ZeusWatchdog.topic_list_ w1) = k
    /\ ZeusWatchdog.main Time ps uninit nb0 rate0 status0 now = Some w
    /\ ZeusWatchdog.topic_list_ w = created_monitors ps uninit k 0
    /\ ZeusWatchdog.info_pub_ w
       = [mkTopicArray now
            (map ZeusWatchdog.report
               (created_monitors (Time := Time) ps uninit k 0))].
Proof.
  intros Hnb Hrate Hc Hk Hlt w0.
  destruct (createTopicMonitors_returned ps uninit nb rate k w0
              Hnb Hrate Hc Hk Hlt)
    as (w1 & E & H1 & H2 & _ & _ & _ & H6).
  simpl in H1, H2, H6.
  exists w1, (ZeusWatchdog.run_cycle now w1).
  split; [exact E|]. split; [exact H1|]. split; [exact H2|].
  split; [rewrite H2; apply (created_monitors_length ps uninit k 0 Hc)|].
  split.
  { unfold ZeusWatchdog.main, ZeusWatchdog.new. fold w0. rewrite E.
    reflexivity. }
  unfold ZeusWatchdog.run_cycle. rewrite collect_spec. simpl.
  rewrite H2, H6. split; reflexivity.
Qed.

Lemma X13_partial_initialisation_witness :
  exists w,
    ZeusWatchdog.main Ros.Time (Ros.params second_topic_incomplete)
      (fun _ => true) 7 F32.zero false (Ros.ms 0) = Some w
    /\ length (ZeusWatchdog.topic_list_ w) = 1%nat.
Proof.
  pose proof (X13_partial_initialisation Ros.Time
                (Ros.params second_topic_incomplete) (fun _ => true)
                3 (F32.of_Z 10) 1 7 F32.zero false (Ros.ms 0)
                eq_refl eq_refl eq_refl eq_refl ltac:(simpl; lia)) as H.
  destruct H as (w1 & w & _ & _ & _ & _ & Hm & Hw & _).
  exists w. split; [exact Hm|]. rewrite Hw. reflexivity.
Defined.

(** X15. A missing global parameter leaves members unset.  Without
    [nb_of_topics] the constructor returns a node whose [nb_of_topics_]
    and [rate_] still hold whatever they held before ([rate] is not even
    looked up), and [getNbOfTopics] hands that value to [main].  With
    [nb_of_topics] but without [rate], [nb_of_topics_] is set and [rate_]
    is not.  In both cases no monitor is created, whatever topics the
    parameter server describes, and one fatal line is logged. *)
Theorem X15_missing_global_parameter :
  (forall (Time : Type) (ps : ZeusWatchdog.ParamServer) uninit nb0 rate0
          status0,
      ZeusWatchdog.getParam_int ps "nb_of_topics" = None ->
      exists w,
        ZeusWatchdog.new Time ps uninit nb0 rate0 status0 = Some w
        /\ ZeusWatchdog.getNbOfTopics w = nb0
        /\ ZeusWatchdog.rate_ w = rate0
        /\ ZeusWatchdog.topic_list_ w = []
        /\ ZeusWatchdog.ros_info w = []
        /\ ZeusWatchdog.ros_fatal w = ["Missing nb_of_topics parameter"])
  /\ (forall (Time : Type) (ps : ZeusWatchdog.ParamServer) uninit nb nb0
             rate0 status0,
         ZeusWatchdog.getParam_int ps "nb_of_topics" = Some nb ->
         ZeusWatchdog.getParam_float ps "rate" = None ->
         exists w,
           ZeusWatchdog.new Time ps uninit nb0 rate0 status0 = Some w
           /\ ZeusWatchdog.getNbOfTopics w = nb
           /\ ZeusWatchdog.rate_ w = rate0
           /\ ZeusWatchdog.topic_list_ w = []
           /\ ZeusWatchdog.ros_info w = []
           /\ ZeusWatchdog.ros_fatal w = ["Missing rate parameter"]).
Proof.
  split.
  - intros Time ps uninit nb0 rate0 status0 Hnb.
    unfold ZeusWatchdog.new, ZeusWatchdog.createTopicMonitors,
      ZeusWatchdog.global_parameters.
    rewrite Hnb. eexists. split; [reflexivity|]. repeat split.
  - intros Time ps uninit nb nb0 rate0 status0 Hnb Hrate.
    unfold ZeusWatchdog.new, ZeusWatchdog.createTopicMonitors,
      ZeusWatchdog.global_parameters.
    rewrite Hnb, Hrate. eexists. split; [reflexivity|]. repeat split.
Qed.

Lemma X15_missing_global_parameter_witness :
  (exists w,
      ZeusWatchdog.new Ros.Time
        (Ros.params (delete "nb_of_topics" one_topic))
        (fun _ => true) 7 F32.zero false = Some w
      /\ ZeusWatchdog.getNbOfTopics w = 7)
  /\ (exists w,
         ZeusWatchdog.new Ros.Time (Ros.params (delete "rate" one_topic))
           (fun _ => true) 7 (F32.of_Z 3) false = Some w
         /\ ZeusWatchdog.rate_ w = F32.of_Z 3).
Proof.
  assert (H1 : ZeusWatchdog.getParam_int
                 (Ros.params (delete "nb_of_topics" one_topic))
                 "nb_of_topics" = None) by reflexivity.
  assert (H2 : ZeusWatchdog.getParam_int
                 (Ros.params (delete "rate" one_topic)) "nb_of_topics"
               = Some 1) by reflexivity.
  assert (H3 : ZeusWatchdog.getParam_float
                 (Ros.params (delete "rate" one_topic)) "rate" = None)
    by reflexivity.
  split.
  - destruct (proj1 X15_missing_global_parameter Ros.Time
                (Ros.params (delete "nb_of_topics" one_topic))
                (fun _ => true) 7 F32.zero false H1)
      as (w & E & H & _).
    exists w. split; [exact E | exact H].
  - destruct (proj2 X15_missing_global_parameter Ros.Time
                (Ros.params (delete "rate" one_topic))
                (fun _ => true) 1 7 (F32.of_Z 3) false H2 H3)
      as (w & E & _ & H & _).
    exists w. split; [exact E | exact H].
Defined.

(** X16. After an initialisation that stopped at topic [k+1], the first
    report that [main] publishes on [info] is stamped with the time of
    the pass and has one entry for each of the [k] topics that precede
    it, in the order of the configuration: entry [j] carries the name
    stored under ["topic_<j+1>/name"].  The topics from [k+1] on are
    absent from the report. *)
Theorem X16_report_follows_the_configuration (Time : Type)
    (ps : ZeusWatchdog.ParamServer) (uninit : Z -> bool) (nb : Z)
    (rate : F32.t) (k : nat) (nb0 : Z) (rate0 : F32.t) (status0 : bool)
    (now : Time) :
  ZeusWatchdog.getParam_int ps "nb_of_topics" = Some nb ->
  ZeusWatchdog.getParam_float ps "rate" = Some rate ->
  ZeusWatchdog.topics_complete ps k 0 = true ->
  ZeusWatchdog.topic_complete ps (Z.of_nat k) = false ->
  (k < Z.to_nat nb)%nat ->
  exists w msg,
    ZeusWatchdog.main Time ps uninit nb0 rate0 status0 now = Some w
    /\ ZeusWatchdog.info_pub_ w = [msg]
    /\ header_stamp msg = now
    /\ length (statuses msg) = k
    /\ forall j : nat,
         (j < k)%nat ->
         nth_error (map ts_name (statuses msg)) j
         = ZeusWatchdog.getParam_string ps
             (ZeusWatchdog.topic_id (Z.of_nat j) +:+ "/name").
Proof.
  intros Hnb Hrate Hc Hk Hlt.
  set (w0 := ZeusWatchdog.mk Time nb0 rate0 [] status0 [] [] [] [] []).
  destruct (createTopicMonitors_returned ps uninit nb rate k w0
              Hnb Hrate Hc Hk Hlt)
    as (w1 & E & _ & Hlist & _ & _ & _ & Hinfo).
  simpl in Hlist, Hinfo.
  exists (ZeusWatchdog.run_cycle now w1),
    (mkTopicArray now
       (map ZeusWatchdog.report
          (created_monitors (Time := Time) ps uninit k 0))).
  split.
  { unfold ZeusWatchdog.main, ZeusWatchdog.new. fold w0. rewrite E.
    reflexivity. }
  unfold ZeusWatchdog.run_cycle. rewrite collect_spec. simpl.
  rewrite Hlist, Hinfo. simpl.
  split; [reflexivity|]. split; [reflexivity|].
  split; [rewrite length_map; apply (created_monitors_length ps uninit _ _ Hc)|].
  intros j Hj. rewrite map_map.
  destruct (created_monitors_nth (Time := Time) ps uninit _ 0 j Hc Hj)
    as [Hn Hj'].
  rewrite Z.add_0_l in Hn, Hj'.
  destruct (created_monitor_complete (Time := Time) ps uninit _ Hj')
    as (name & topic & f & avg & rt & P1 & _ & _ & _ & _ & Hm).
  rewrite nth_error_map, Hn, Hm, P1. reflexivity.
Qed.

Lemma X16_report_follows_the_configuration_witness :
  exists w msg,
    ZeusWatchdog.main Ros.Time (Ros.params second_topic_incomplete)
      (fun _ => true) 7 F32.zero false (Ros.ms 0) = Some w
    /\ ZeusWatchdog.info_pub_ w = [msg]
    /\ map ts_name (statuses msg) = ["lidar"].
Proof.
  destruct (X16_report_follows_the_configuration Ros.Time
              (Ros.params second_topic_incomplete) (fun _ => true) 3
              (F32.of_Z 10) 1 7 F32.zero false (Ros.ms 0)
              eq_refl eq_refl eq_refl eq_refl ltac:(simpl; lia))
    as (w & msg & Hw & Hmsg & _).
  exists w, msg. split; [exact Hw|]. split; [exact Hmsg|].
  vm_compute in Hw. injection Hw as <-.
  vm_compute in Hmsg. injection Hmsg as <-. reflexivity.
Defined.

(** ** Consecutive passes of a monitor *)

Section PairFacts.
Context {Time : Type}.
Variable toSec_diff : Time -> Time -> F64.t.

Lemma gaps_cons2 (a b : Time) (l : list Time) :
  TopicMonitor.gaps toSec_diff (a :: b :: l)
  = TopicMonitor.elapsed_time toSec_diff a b
    :: TopicMonitor.gaps toSec_diff (b :: l).
Proof. reflexivity. Qed.

(** Cutting a log at a stamp and repeating that stamp cuts its gaps. *)
Lemma gaps_split (l1 l2 : list Time) (a : Time) :
  TopicMonitor.gaps toSec_diff (l1 ++ a :: l2)
  = TopicMonitor.gaps toSec_diff (l1 ++ [a])
    ++ TopicMonitor.gaps toSec_diff (a :: l2).
Proof.
  induction l1 as [|b l1 IH]; [reflexivity|].
  destruct l1 as [|c l1].
  - simpl app. rewrite gaps_cons2. destruct l2; reflexivity.
  - change ((b :: c :: l1) ++ a :: l2) with (b :: c :: (l1 ++ a :: l2)).
    change ((b :: c :: l1) ++ [a]) with (b :: c :: (l1 ++ [a])).
    rewrite !gaps_cons2.
    change (c :: l1 ++ a :: l2) with ((c :: l1) ++ a :: l2).
    change (c :: l1 ++ [a]) with ((c :: l1) ++ [a]).
    rewrite IH. reflexivity.
Qed.
End PairFacts.

(** X17. Strict mode checks every pair of consecutive messages exactly
    once, also across a pass.  Let the log hold at least two stamps and
    end with [a]; a pass runs, the messages [l2] (at least one) arrive and
    a second pass runs.  The second pass examines the gaps of [a :: l2],
    and both passes set [status_] to true if and only if no gap of the
    whole sequence of arrivals is above [min_time_]. *)
Theorem X17_passes_cover_every_gap (Time : Type)
    (toSec_diff : Time -> Time -> F64.t) (x : TopicMonitor.t Time)
    (l1 l2 : list Time) (a : Time) :
  TopicMonitor.use_average_ x = false ->
  TopicMonitor.stamps_ x = l1 ++ [a] ->
  l1 <> [] -> l2 <> [] ->
  let x1 := TopicMonitor.run_cycle toSec_diff x in
  let x2 := TopicMonitor.run_cycle toSec_diff (TopicMonitor.arrivals l2 x1) in
  TopicMonitor.stamps_ (TopicMonitor.arrivals l2 x1) = a :: l2
  /\ TopicMonitor.status_ x1 && TopicMonitor.status_ x2
     = TopicMonitor.all_within (TopicMonitor.min_time_ x)
         (TopicMonitor.gaps toSec_diff (l1 ++ a :: l2)).
Proof.
  intros Hmode Hlog Hl1 Hl2 x1 x2.
  assert (Hs : TopicMonitor.stamps_ (TopicMonitor.arrivals l2 x1) = a :: l2).
  { rewrite arrivals_spec. subst x1. simpl.
    rewrite Hlog, retained_snoc. reflexivity. }
  split; [exact Hs|].
  subst x2. rewrite !status_run_cycle.
  assert (Hlen1 : (2 <= length (TopicMonitor.stamps_ x))%nat).
  { rewrite Hlog, length_app. destruct l1; [now elim Hl1 | simpl; lia]. }
  assert (Hlen2 : (2 <= length (TopicMonitor.stamps_
                                  (TopicMonitor.arrivals l2 x1)))%nat).
  { rewrite Hs. destruct l2; [now elim Hl2 | simpl; lia]. }
  assert (Hmode2 : TopicMonitor.use_average_ (TopicMonitor.arrivals l2 x1)
                   = false)
    by (rewrite arrivals_spec; exact Hmode).
  subst x1. rewrite status_run_cycle.
  rewrite (verdict_strict toSec_diff x Hmode Hlen1).
  rewrite (verdict_strict toSec_diff _ Hmode2 Hlen2).
  rewrite (gaps_split toSec_diff l1 l2 a).
  unfold TopicMonitor.all_within. rewrite forallb_app.
  rewrite Hs, Hlog, arrivals_spec. reflexivity.
Qed.

Lemma X17_passes_cover_every_gap_witness :
  let x := TopicMonitor.arrivals [Ros.ms 0; Ros.ms 50] (lidar false) in
  let x1 := TopicMonitor.run_cycle Ros.toSec_diff x in
  let x2 := TopicMonitor.run_cycle Ros.toSec_diff
              (TopicMonitor.arrivals [Ros.ms 300] x1) in
  TopicMonitor.status_ x1 && TopicMonitor.status_ x2 = false.
Proof.
  intros x x1 x2.
  destruct (X17_passes_cover_every_gap Ros.Time Ros.toSec_diff x
              [Ros.ms 0] [Ros.ms 300] (Ros.ms 50) eq_refl eq_refl
              ltac:(discriminate) ltac:(discriminate)) as [_ H].
  fold x1 in H. fold x2 in H. rewrite H. reflexivity.
Defined.
